(** * react-native-torch-nitro: the torch controllers and the error classifier

    A shallow embedding of
    - [ios/HybridTorch.swift] (module [Ios]),
    - [android/src/main/java/com/margelo/nitro/nitrotorch/HybridTorch.kt]
      (module [Android]),
    - [src/utils.ts] (module [Js]),
    and the properties of the level scale, of the notifications and of the
    error classification that hold of them.

    Numbers are IEEE 754 values: Swift's [Float] is binary32, Swift's and
    Kotlin's [Double] and the JS numbers are binary64.  Both are carried by
    the Standard Library's [spec_float] and its correctly rounded
    operations. *)

From Stdlib Require Import ZArith List Bool String Ascii Lia.
From Stdlib Require Import Floats.SpecFloat.
From Stdlib Require Import DecimalString.
Import ListNotations.

Open Scope Z_scope.

(* ================================================================== *)
(** * IEEE 754 arithmetic *)
(* ================================================================== *)

Definition binary : Set := spec_float.

Module IEEE.

Section Format.
Variables prec emax : Z.

(** Conversion of an integer, rounded to nearest even. *)
Definition of_Z (z : Z) : binary := binary_normalize prec emax z 0 false.

(** Conversion of a value of another binary format. *)
Definition of_binary (x : binary) : binary :=
  match x with
  | S754_finite s m e => binary_normalize prec emax (cond_Zopp s (Zpos m)) e s
  | _ => x
  end.

(** [round]: to the nearest integer, halfway cases away from zero. *)
Definition round (x : binary) : binary :=
  match x with
  | S754_finite s m (Zneg k) =>
      let d := Z.pow_pos 2 k in
      let q := Zpos m / d in
      let r := Zpos m mod d in
      let q' := if d <=? 2 * r then q + 1 else q in
      binary_normalize prec emax (cond_Zopp s q') 0 s
  | _ => x
  end.
End Format.

Definition ltb (x y : binary) : bool := SFltb x y.
Definition leb (x y : binary) : bool := SFleb x y.
Definition eqb (x y : binary) : bool := SFeqb x y.

(** The integer part of a finite value, towards zero. *)
Definition truncate (x : binary) : Z :=
  match x with
  | S754_finite s m (Zneg k) => cond_Zopp s (Zpos m / Z.pow_pos 2 k)
  | S754_finite s m e => cond_Zopp s (Zpos m * 2 ^ e)
  | _ => 0
  end.

End IEEE.

(** Swift's [Float]. *)
Module Float.
Definition prec := 24.
Definition emax := 128.
Definition of_Z := IEEE.of_Z prec emax.
Definition of_double := IEEE.of_binary prec emax.
Definition mul := SFmul prec emax.
Definition div := SFdiv prec emax.
Definition one : binary := of_Z 1.
(** The literal [0.1]: the binary32 value nearest to one tenth. *)
Definition tenth : binary := S754_finite false 13421773 (-27).
(** [Float.greatestFiniteMagnitude]. *)
Definition greatestFiniteMagnitude : binary := SFmax_float prec emax.
(** Swift's generic [min] and [max] ([y < x ? y : x] and [y >= x ? y : x]). *)
Definition min (x y : binary) : binary := if IEEE.ltb y x then y else x.
Definition max (x y : binary) : binary := if IEEE.leb x y then y else x.
End Float.

(** Swift's and Kotlin's [Double]. *)
Module Double.
Definition prec := 53.
Definition emax := 1024.
Definition of_Z := IEEE.of_Z prec emax.
Definition of_float := IEEE.of_binary prec emax.
Definition mul := SFmul prec emax.
Definition div := SFdiv prec emax.
Definition round := IEEE.round prec emax.

(** Kotlin's [Int]: 32 bits. *)
Definition Int_MIN_VALUE := - 2 ^ 31.
Definition Int_MAX_VALUE := 2 ^ 31 - 1.

(** Kotlin's [Double.toInt()]: towards zero, NaN to 0, saturating. *)
Definition toInt (x : binary) : Z :=
  match x with
  | S754_nan => 0
  | S754_infinity s => if s then Int_MIN_VALUE else Int_MAX_VALUE
  | _ => Z.max Int_MIN_VALUE (Z.min Int_MAX_VALUE (IEEE.truncate x))
  end.

(** By how many bits the digits of a small integer are shifted to fill
    the mantissa. *)
Definition shift (p : positive) : positive := (53 - digits2_pos p)%positive.

(** Equality of two [Double?]: Swift's [!=] on [Optional<Double>] and
    Kotlin's on [Double?] compare the payloads as IEEE values. *)
Definition opt_neq (a b : option binary) : bool :=
  match a, b with
  | None, None => false
  | Some x, Some y => negb (IEEE.eqb x y)
  | _, _ => true
  end.
End Double.

(* ================================================================== *)
(** * Effects: state, a trace of events, and exceptions *)
(* ================================================================== *)

(** A computation runs from a state and ends normally or by a throw;
    either way it leaves a state and the events it emitted, in order.
    The events are the calls made to the hardware and the calls made
    through the two JS callback slots. *)

Inductive outcome (Err A : Type) : Type :=
| Done (a : A)
| Thrown (e : Err).
Arguments Done {Err A} a.
Arguments Thrown {Err A} e.

Module Eff.
Section Eff.
Context {St Ev : Type}.

Definition M (Err A : Type) : Type := St -> outcome Err A * St * list Ev.

Definition ret {Err A} (a : A) : M Err A := fun s => (Done a, s, []).

Definition bind {Err A B} (m : M Err A) (k : A -> M Err B) : M Err B :=
  fun s =>
    match m s with
    | (Done a, s1, t1) => let '(r, s2, t2) := k a s1 in (r, s2, t1 ++ t2)
    | (Thrown e, s1, t1) => (Thrown e, s1, t1)
    end.

Definition throw {Err A} (e : Err) : M Err A := fun s => (Thrown e, s, []).

Definition catch {Err Err' A} (m : M Err A) (h : Err -> M Err' A) : M Err' A :=
  fun s =>
    match m s with
    | (Done a, s1, t1) => (Done a, s1, t1)
    | (Thrown e, s1, t1) => let '(r, s2, t2) := h e s1 in (r, s2, t1 ++ t2)
    end.

Definition get {Err} : M Err St := fun s => (Done s, s, []).
Definition modify {Err} (f : St -> St) : M Err unit := fun s => (Done tt, f s, []).
Definition emit {Err} (ev : Ev) : M Err unit := fun s => (Done tt, s, [ev]).

Definition when {Err} (b : bool) (m : M Err unit) : M Err unit :=
  if b then m else ret tt.

(** [x ?: throw e] *)
Definition orThrow {Err A} (o : option A) (e : Err) : M Err A :=
  match o with Some a => ret a | None => throw e end.

(** A call that fails when the environment says so. *)
Definition failing {Err X} (failure : option X) (wrap : X -> Err) : M Err unit :=
  match failure with Some x => throw (wrap x) | None => ret tt end.
End Eff.

Definition result {St Ev Err A} (r : outcome Err A * St * list Ev) := fst (fst r).
Definition state {St Ev Err A} (r : outcome Err A * St * list Ev) := snd (fst r).
Definition trace {St Ev Err A} (r : outcome Err A * St * list Ev) := snd r.
End Eff.

Declare Scope eff_scope.
Delimit Scope eff_scope with eff.
Notation "x <- m ;; k" := (Eff.bind m (fun x => k))
  (at level 61, m at next level, right associativity) : eff_scope.
Notation "m ;; k" := (Eff.bind m (fun _ => k))
  (at level 61, right associativity) : eff_scope.

(* ================================================================== *)
(** * ios/HybridTorch.swift *)
(* ================================================================== *)

Module Ios.
Import Eff.
Local Open Scope eff_scope.

(** ** The hardware, as the controller sees it during one call *)

Record Device := { hasTorch : bool }.

Record Hardware := {
  device : option Device;              (* AVCaptureDevice.default(for: .video) *)
  maxAvailableTorchLevel : binary;     (* a Float *)
  lockError : option string;           (* lockForConfiguration() throws *)
  torchOnError : option string         (* setTorchModeOn(level:) throws *)
}.

Inductive Event :=
| LockForConfiguration
| SetTorchModeOn (level : binary)
| TorchModeOff
| UnlockForConfiguration
| StateChanged (isOn : bool)              (* onStateChanged?(isOn) *)
| LevelChanged (level : option binary).   (* onLevelChanged?(level) *)

(** ** The controller *)

Record State := {
  isTorchOn : bool;
  currentLevel : binary;
  previousLevel : option binary
}.

Definition init : State :=
  {| isTorchOn := false; currentLevel := Double.of_Z 1; previousLevel := None |}.

Definition maxTorchLevel : binary := Double.of_Z 10.

Inductive TorchError :=
| noDevice
| noTorch
| failed (msg : string).

Definition code (e : TorchError) : string :=
  match e with
  | noDevice => "NoFlashAvailable"
  | noTorch => "NoFlashAvailable"
  | failed _ => "AccessFailed"
  end.

Definition message (e : TorchError) : string :=
  match e with
  | noDevice => "No camera device available"
  | noTorch => "Device has no torch"
  | failed msg => "Failed: " ++ msg
  end.

(** What a rejected promise carries: the [NSError] whose description is
    the JSON object [{"code": ..., "message": ...}] of [toJSON]. *)
Record NSError := { err_code : string; err_message : string }.

Definition toJSON (e : TorchError) : NSError :=
  {| err_code := code e; err_message := message e |}.

Definition set_isTorchOn (b : bool) (s : State) : State :=
  {| isTorchOn := b; currentLevel := currentLevel s; previousLevel := previousLevel s |}.
Definition set_currentLevel (l : binary) (s : State) : State :=
  {| isTorchOn := isTorchOn s; currentLevel := l; previousLevel := previousLevel s |}.
Definition set_previousLevel (l : option binary) (s : State) : State :=
  {| isTorchOn := isTorchOn s; currentLevel := currentLevel s; previousLevel := l |}.

Definition T := @M State Event.

(** A device with a torch that can be locked for configuration. *)
Definition torchReady (hw : Hardware) : bool :=
  match device hw, lockError hw with
  | Some dev, None => hasTorch dev
  | _, _ => false
  end.

(** ... and that accepts the level it is given. *)
Definition usable (hw : Hardware) : bool :=
  torchReady hw && match torchOnError hw with None => true | Some _ => false end.

(** [Float(level / maxTorchLevel)] *)
Definition normalizedLevel (level : binary) : binary :=
  Float.of_double (Double.div level maxTorchLevel).

(** [max(0.1, min(min(maxAvailableTorchLevel, 1.0), torchLevel))] *)
Definition clampedLevel (maxAvailableTorchLevel torchLevel : binary) : binary :=
  let maxAvailable := Float.min maxAvailableTorchLevel Float.one in
  Float.max Float.tenth (Float.min maxAvailable torchLevel).

(** [Double(level) * maxTorchLevel] *)
Definition levelOfNormalized (level : binary) : binary :=
  Double.mul (Double.of_float level) maxTorchLevel.

Definition setTorchMode (hw : Hardware) (enable : bool) (level : option binary)
  : T TorchError unit :=
  dev <- orThrow (device hw) noDevice ;;
  when (negb (hasTorch dev)) (throw noTorch) ;;
  emit LockForConfiguration ;;
  failing (lockError hw) failed ;;
  (if enable then
     s <- get ;;
     let torchLevel :=
       match level with
       | Some l => l
       | None => normalizedLevel (currentLevel s)
       end in
     emit (SetTorchModeOn (clampedLevel (maxAvailableTorchLevel hw) torchLevel)) ;;
     failing (torchOnError hw) failed ;;
     match level with
     | Some l => modify (set_currentLevel (levelOfNormalized l))
     | None => ret tt
     end
   else emit TorchModeOff) ;;
  emit UnlockForConfiguration ;;
  s <- get ;;
  let wasOn := isTorchOn s in
  modify (set_isTorchOn enable) ;;
  when (negb (Bool.eqb wasOn enable)) (emit (StateChanged enable)) ;;
  s <- get ;;
  let newLevel := if enable then Some (Double.round (currentLevel s)) else None in
  let roundedPrevious := option_map Double.round (previousLevel s) in
  when (Double.opt_neq roundedPrevious newLevel)
    (emit (LevelChanged newLevel) ;; modify (set_previousLevel newLevel)).

(** [catch let error as TorchError { throw NSError(... error.toJSON()) }] *)
Definition rethrow {A} (m : T TorchError A) : T NSError A :=
  catch m (fun e => throw (toJSON e)).

Definition on (hw : Hardware) : T NSError unit :=
  rethrow (setTorchMode hw true None).

Definition off (hw : Hardware) : T NSError unit :=
  rethrow (setTorchMode hw false None).

Definition toggle (hw : Hardware) : T NSError unit :=
  rethrow (s <- get ;; setTorchMode hw (negb (isTorchOn s)) None).

(** [level >= 1 && level <= self.maxTorchLevel] *)
Definition validLevel (level : binary) : bool :=
  IEEE.leb (Double.of_Z 1) level && IEEE.leb level maxTorchLevel.

Definition setLevel (hw : Hardware) (level : binary) : T NSError unit :=
  rethrow
    (when (negb (validLevel level))
       (throw (failed "Level must be between 1 and 10")) ;;
     setTorchMode hw true (Some (normalizedLevel level))).

Definition getMaxLevel (hw : Hardware) (dynamic : option bool) : option binary :=
  match device hw with
  | None => None
  | Some dev =>
      if negb (hasTorch dev) then None
      else
        match dynamic with
        | Some true =>
            let currentMax := maxAvailableTorchLevel hw in
            let effectiveMax := Float.min currentMax Float.one in
            Some (Double.of_float (Float.mul effectiveMax (Float.of_double maxTorchLevel)))
        | _ => Some maxTorchLevel
        end
  end.

(** [dispose]: an error of [setTorchMode] is printed, and skips the reset
    of [previousLevel]. *)
Definition dispose (hw : Hardware) : T NSError unit :=
  catch
    (s <- get ;;
     when (isTorchOn s) (setTorchMode hw false None) ;;
     modify (set_previousLevel None))
    (fun _ : TorchError => ret tt).

(** ** Runs *)

Inductive Call :=
| CallOn
| CallOff
| CallToggle
| CallSetLevel (level : binary)
| CallDispose.

Definition perform (hw : Hardware) (c : Call) : T NSError unit :=
  match c with
  | CallOn => on hw
  | CallOff => off hw
  | CallToggle => toggle hw
  | CallSetLevel level => setLevel hw level
  | CallDispose => dispose hw
  end.

(** The calls of a run are made one after the other, each against the
    hardware as it is at that time; a rejected promise does not stop
    the run. *)
Fixpoint run (cs : list (Hardware * Call)) (s : State) : State * list Event :=
  match cs with
  | [] => (s, [])
  | (hw, c) :: cs' =>
      let r := perform hw c s in
      let r' := run cs' (Eff.state r) in
      (fst r', Eff.trace r ++ snd r')
  end.

Definition reachable (s : State) : Prop := exists cs, fst (run cs init) = s.

(** The torch is off exactly when no level is on record. *)
Definition coupled (s : State) : Prop :=
  isTorchOn s = false <-> previousLevel s = None.

Definition isNotification (ev : Event) : bool :=
  match ev with
  | StateChanged _ | LevelChanged _ => true
  | _ => false
  end.

Definition isLevelChanged (ev : Event) : bool :=
  match ev with
  | LevelChanged _ => true
  | _ => false
  end.

(** The calls that drive the torch. *)
Definition isTorchCommand (ev : Event) : bool :=
  match ev with
  | SetTorchModeOn _ | TorchModeOff => true
  | _ => false
  end.

(** Whether the torch is lit after the hardware calls of a trace, each
    of them having succeeded. *)
Definition lit (before : bool) (t : list Event) : bool :=
  fold_left (fun b ev =>
               match ev with
               | SetTorchModeOn _ => true
               | TorchModeOff => false
               | _ => b
               end) t before.
End Ios.

(* ================================================================== *)
(** * android/src/main/java/com/margelo/nitro/nitrotorch/HybridTorch.kt *)
(* ================================================================== *)

Module Android.
Import Eff.
Local Open Scope eff_scope.

(** ** The platform, as the controller sees it during one call *)

Definition VERSION_CODES_M := 23.
Definition VERSION_CODES_TIRAMISU := 33.
Definition MIN_API_LEVEL := VERSION_CODES_M.
Definition LENS_FACING_BACK := 1.

Record CameraCharacteristics := {
  FLASH_INFO_AVAILABLE : option bool;
  LENS_FACING : option Z;
  FLASH_INFO_STRENGTH_MAXIMUM_LEVEL : option Z
}.

Record Camera := {
  id : string;
  characteristics : option CameraCharacteristics  (* None: CameraAccessException *)
}.

(** What the camera service throws. *)
Inductive Exception :=
| CameraAccessException (msg : string)
| IllegalArgumentException (msg : string).

Definition getMessage (e : Exception) : string :=
  match e with
  | CameraAccessException msg => msg
  | IllegalArgumentException msg => msg
  end.

Record CameraManager := {
  cameras : option (list Camera);           (* None: cameraIdList throws *)
  setTorchModeError : option Exception;
  turnOnTorchWithStrengthLevelError : option Exception;
  registerTorchCallbackError : option Exception;
  unregisterTorchCallbackError : option Exception
}.

Record Platform := {
  SDK_INT : Z;
  cameraManager : option CameraManager
}.

Inductive Event :=
| CameraIdList
| GetCameraCharacteristics (cameraId : string)
| SetTorchMode (cameraId : string) (enabled : bool)
| TurnOnTorchWithStrengthLevel (cameraId : string) (level : Z)
| UnregisterTorchCallback
| StateChanged (isOn : bool)              (* onStateChanged?.invoke(isOn) *)
| LevelChanged (level : option binary).   (* onLevelChanged?.invoke(level) *)

(** ** Exceptions *)

Inductive TorchException :=
| CameraServiceUnavailable
| ApiLevelTooLow
| NoFlashAvailable
| BrightnessControlNotSupported
| AccessFailed (cause : string).

Definition message (e : TorchException) : string :=
  match e with
  | CameraServiceUnavailable => "Camera service not available"
  | ApiLevelTooLow => "Android API 23 or higher is required"
  | NoFlashAvailable => "No camera with flash available"
  | BrightnessControlNotSupported => "Device does not support torch brightness control"
  | AccessFailed cause => "Failed to access torch: " ++ cause
  end.

(** [createTorchErrorJson(code, message)]: the JSON object with these
    two members. *)
Record TorchErrorJson := { code : string; json_message : string }.

Inductive Throwable :=
| Exc (e : Exception)
| TorchExc (e : TorchException)
| Error (json : TorchErrorJson).

(** ** The controller *)

Record State := {
  cameraId : option string;
  isTorchOn : bool;
  previousLevel : option binary;
(* whether [torchCallback] is registered with the camera service *)
torchCallbackRegistered : bool
}.

(** The controller as constructed: [init] registers [torchCallback], and
    logs the exception if that fails. *)
Definition init (p : Platform) : State :=
  {| cameraId := None; isTorchOn := false; previousLevel := None;
     torchCallbackRegistered :=
       match cameraManager p with
       | Some manager =>
           match registerTorchCallbackError manager with
           | None => true
           | Some _ => false
           end
       | None => false
       end |}.

Definition set_cameraId (c : option string) (s : State) : State :=
  {| cameraId := c; isTorchOn := isTorchOn s; previousLevel := previousLevel s;
     torchCallbackRegistered := torchCallbackRegistered s |}.
Definition set_isTorchOn (b : bool) (s : State) : State :=
  {| cameraId := cameraId s; isTorchOn := b; previousLevel := previousLevel s;
     torchCallbackRegistered := torchCallbackRegistered s |}.
Definition set_previousLevel (l : option binary) (s : State) : State :=
  {| cameraId := cameraId s; isTorchOn := isTorchOn s; previousLevel := l;
     torchCallbackRegistered := torchCallbackRegistered s |}.
Definition set_registered (b : bool) (s : State) : State :=
  {| cameraId := cameraId s; isTorchOn := isTorchOn s; previousLevel := previousLevel s;
     torchCallbackRegistered := b |}.

Definition T := @M State Event Throwable.

(** *** The camera service *)

Definition cameraIdList (manager : CameraManager) : T (list string) :=
  emit CameraIdList ;;
  match cameras manager with
  | Some cs => ret (map id cs)
  | None => throw (Exc (CameraAccessException "camera service"))
  end.

Definition getCameraCharacteristics (manager : CameraManager) (cid : string)
  : T CameraCharacteristics :=
  emit (GetCameraCharacteristics cid) ;;
  match cameras manager with
  | None => throw (Exc (CameraAccessException "camera service"))
  | Some cs =>
      match find (fun c => String.eqb (id c) cid) cs with
      | None => throw (Exc (IllegalArgumentException "unknown camera"))
      | Some c =>
          orThrow (characteristics c) (Exc (CameraAccessException "camera disconnected"))
      end
  end.

(** *** The hardware callbacks ([torchCallback]) *)

Definition onTorchModeChanged (cid : string) (enabled : bool) : T unit :=
  modify (set_isTorchOn enabled) ;;
  emit (StateChanged enabled) ;;
  when (negb enabled)
    (s <- get ;;
     when (match previousLevel s with Some _ => true | None => false end)
       (emit (LevelChanged None) ;; modify (set_previousLevel None))).

Definition onTorchStrengthLevelChanged (p : Platform) (cid : string) (newStrengthLevel : Z)
  : T unit :=
  when (VERSION_CODES_TIRAMISU <=? SDK_INT p)
    (let newLevel := Double.of_Z newStrengthLevel in
     s <- get ;;
     when (Double.opt_neq (previousLevel s) (Some newLevel))
       (emit (LevelChanged (Some newLevel)) ;; modify (set_previousLevel (Some newLevel)))).

(** *** [ensureCameraId] *)

Fixpoint firstOrNull (predicate : string -> T bool) (ids : list string)
  : T (option string) :=
  match ids with
  | [] => ret None
  | cid :: rest =>
      b <- predicate cid ;;
      if b then ret (Some cid) else firstOrNull predicate rest
  end.

Definition hasBackFlash (manager : CameraManager) (cid : string) : T bool :=
  ch <- getCameraCharacteristics manager cid ;;
  let hasFlash := match FLASH_INFO_AVAILABLE ch with Some b => b | None => false end in
  let facing := LENS_FACING ch in
  ret (hasFlash && match facing with Some f => f =? LENS_FACING_BACK | None => false end).

Definition ensureCameraId (p : Platform) : T unit :=
  s <- get ;;
  match cameraId s, cameraManager p with
  | Some _, _ => ret tt
  | None, None => ret tt
  | None, Some manager =>
      catch
        (_ <- cameraIdList manager ;;          (* logged: cameraIdList.size *)
         ids <- cameraIdList manager ;;
         found <- firstOrNull (hasBackFlash manager) ids ;;
         match found with
         | Some cid => modify (set_cameraId (Some cid))
         | None =>
             ids' <- cameraIdList manager ;;
             modify (set_cameraId (hd_error ids'))
         end)
        (fun e =>
           match e with
           | Exc (CameraAccessException _) => ret tt
           | _ => throw e
           end)
  end.

(** The camera the controller works with once [ensureCameraId] has run,
    and the reads of the camera service this costs. *)
Definition resolved (p : Platform) (s : State) : option string :=
  cameraId (Eff.state (ensureCameraId p s)).

Definition probes (p : Platform) (s : State) : list Event :=
  Eff.trace (ensureCameraId p s).

(** *** Torch control *)

Definition setTorchMode (p : Platform) (enable : bool) : T unit :=
  manager <- orThrow (cameraManager p) (TorchExc CameraServiceUnavailable) ;;
  when (SDK_INT p <? MIN_API_LEVEL) (throw (TorchExc ApiLevelTooLow)) ;;
  ensureCameraId p ;;
  s <- get ;;
  cid <- orThrow (cameraId s) (TorchExc NoFlashAvailable) ;;
  if Bool.eqb (isTorchOn s) enable then ret tt
  else
    emit (SetTorchMode cid enable) ;;
    failing (setTorchModeError manager) (fun e => TorchExc (AccessFailed (getMessage e))).

Definition codeOf (e : TorchException) : string :=
  match e with
  | ApiLevelTooLow => "ApiLevelTooLow"
  | CameraServiceUnavailable => "CameraServiceUnavailable"
  | NoFlashAvailable => "NoFlashAvailable"
  | BrightnessControlNotSupported => "BrightnessControlNotSupported"
  | AccessFailed _ => "AccessFailed"
  end.

Definition handleTorchException {A} (e : TorchException) : T A :=
  throw (Error {| code := codeOf e; json_message := message e |}).

(** [try { ... } catch (e: TorchException) { handleTorchException(e) }] *)
Definition handling {A} (m : T A) : T A :=
  catch m (fun e =>
             match e with
             | TorchExc te => handleTorchException te
             | _ => throw e
             end).

Definition on (p : Platform) : T unit := handling (setTorchMode p true).

Definition off (p : Platform) : T unit := handling (setTorchMode p false).

Definition toggle (p : Platform) : T unit :=
  handling (s <- get ;; setTorchMode p (negb (isTorchOn s))).

Definition string_of_Z (z : Z) : string := NilZero.string_of_int (Z.to_int z).

(** [characteristics.get(FLASH_INFO_STRENGTH_MAXIMUM_LEVEL) ?: 1] *)
Definition maximumLevel (ch : CameraCharacteristics) : Z :=
  match FLASH_INFO_STRENGTH_MAXIMUM_LEVEL ch with Some m => m | None => 1 end.

(** [level < 1 || level > maxLevel] *)
Definition invalidLevel (level : binary) (maxLevel : Z) : bool :=
  IEEE.ltb level (Double.of_Z 1) || IEEE.ltb (Double.of_Z maxLevel) level.

Definition setLevel (p : Platform) (level : binary) : T unit :=
  when (SDK_INT p <? VERSION_CODES_TIRAMISU) (handleTorchException ApiLevelTooLow) ;;
  manager <- match cameraManager p with
             | Some m => ret m
             | None => handleTorchException CameraServiceUnavailable
             end ;;
  ensureCameraId p ;;
  s <- get ;;
  cid <- match cameraId s with
         | Some c => ret c
         | None => handleTorchException NoFlashAvailable
         end ;;
  ch <- getCameraCharacteristics manager cid ;;
  let maxLevel := maximumLevel ch in
  when (maxLevel <=? 1) (handleTorchException BrightnessControlNotSupported) ;;
  when (invalidLevel level maxLevel)
    (throw (Exc (IllegalArgumentException
                   ("Level must be between 1 and " ++ string_of_Z maxLevel)))) ;;
  let levelInt := Double.toInt level in
  emit (TurnOnTorchWithStrengthLevel cid levelInt) ;;
  match turnOnTorchWithStrengthLevelError manager with
  | Some (CameraAccessException msg) => throw (TorchExc (AccessFailed msg))
  | Some e => throw (Exc e)
  | None => ret tt
  end.

Definition dispose (p : Platform) : T unit :=
  catch
    (s <- get ;;
     when (isTorchOn s && (MIN_API_LEVEL <=? SDK_INT p))
       (match cameraId s with
        | Some cid =>
            match cameraManager p with
            | Some manager =>
                emit (SetTorchMode cid false) ;;
                failing (setTorchModeError manager) Exc
            | None => ret tt
            end ;;
            modify (set_isTorchOn false)
        | None => ret tt
        end) ;;
     match cameraManager p with
     | Some manager =>
         emit UnregisterTorchCallback ;;
         match unregisterTorchCallbackError manager with
         | None => modify (set_registered false)
         | Some _ => ret tt                      (* caught and logged *)
         end
     | None => ret tt
     end ;;
     modify (set_cameraId None) ;;
     modify (set_previousLevel None))
    (fun _ => ret tt).

Definition getMaxLevel (p : Platform) (dynamic : option bool) : T (option binary) :=
  if SDK_INT p <? VERSION_CODES_TIRAMISU then ret None
  else
    ensureCameraId p ;;
    s <- get ;;
    match cameraId s, cameraManager p with
    | None, _ => ret None
    | Some _, None => ret None
    | Some cid, Some manager =>
        catch
          (ch <- getCameraCharacteristics manager cid ;;
           let maxLevel := maximumLevel ch in
           if maxLevel <=? 1 then ret None else ret (Some (Double.of_Z maxLevel)))
          (fun e => match e with Exc _ | TorchExc _ => ret None | Error _ => throw e end)
    end.

(** ** What the platform offers a call *)

(** The characteristics [getCameraCharacteristics] returns, when it
    returns. *)
Definition characteristicsOf (manager : CameraManager) (cid : string)
  : option CameraCharacteristics :=
  match cameras manager with
  | Some cs =>
      match find (fun c => String.eqb (id c) cid) cs with
      | Some c => characteristics c
      | None => None
      end
  | None => None
  end.

(** Basic control is at hand: a camera service, API 23, a camera. *)
Definition torchCamera (p : Platform) (s : State) : option (CameraManager * string) :=
  match cameraManager p, resolved p s with
  | Some manager, Some cid =>
      if MIN_API_LEVEL <=? SDK_INT p then Some (manager, cid) else None
  | _, _ => None
  end.

(** The strength of the torch can be read: a camera service, API 33, a
    camera whose characteristics are readable; with the maximum level
    they report. *)
Definition strengthCamera (p : Platform) (s : State)
  : option (CameraManager * string * Z) :=
  match cameraManager p, resolved p s with
  | Some manager, Some cid =>
      if VERSION_CODES_TIRAMISU <=? SDK_INT p then
        option_map (fun ch => (manager, cid, maximumLevel ch)) (characteristicsOf manager cid)
      else None
  | _, _ => None
  end.

(** ** Runs *)

Inductive Call :=
| CallOn
| CallOff
| CallToggle
| CallSetLevel (level : binary)
| CallDispose.

Definition perform (p : Platform) (c : Call) : T unit :=
  match c with
  | CallOn => on p
  | CallOff => off p
  | CallToggle => toggle p
  | CallSetLevel level => setLevel p level
  | CallDispose => dispose p
  end.

(** The notifications of the camera service. *)
Inductive Notification :=
| TorchModeChanged (cameraId : string) (enabled : bool)
| TorchStrengthLevelChanged (cameraId : string) (newStrengthLevel : Z).

Definition deliver (p : Platform) (n : Notification) : T unit :=
  s <- get ;;
  when (torchCallbackRegistered s)
    match n with
    | TorchModeChanged cid enabled => onTorchModeChanged cid enabled
    | TorchStrengthLevelChanged cid l => onTorchStrengthLevelChanged p cid l
    end.

Inductive Input :=
| Invoke (c : Call)
| Hardware (n : Notification).

Definition step (p : Platform) (i : Input) : T unit :=
  match i with
  | Invoke c => perform p c
  | Hardware n => deliver p n
  end.

(** The inputs of a run are handled one after the other, each against
    the platform as it is at that time. *)
Fixpoint run (inputs : list (Platform * Input)) (s : State) : State * list Event :=
  match inputs with
  | [] => (s, [])
  | (p, i) :: inputs' =>
      let r := step p i s in
      let r' := run inputs' (Eff.state r) in
      (fst r', Eff.trace r ++ snd r')
  end.

Definition reachable (s : State) : Prop :=
  exists p inputs, fst (run inputs (init p)) = s.

Definition isNotification (ev : Event) : bool :=
  match ev with
  | StateChanged _ | LevelChanged _ => true
  | _ => false
  end.

Definition isLevelChanged (ev : Event) : bool :=
  match ev with
  | LevelChanged _ => true
  | _ => false
  end.

(** The torch is off exactly when no level is on record. *)
Definition coupled (s : State) : Prop :=
  isTorchOn s = false <-> previousLevel s = None.

(** The calls that drive the torch. *)
Definition isTorchCommand (ev : Event) : bool :=
  match ev with
  | SetTorchMode _ _ | TurnOnTorchWithStrengthLevel _ _ => true
  | _ => false
  end.

(** An event that reads the camera service: neither a torch command nor
    a notification. *)
Definition readOnly (ev : Event) : Prop :=
  isTorchCommand ev = false /\ isNotification ev = false.

(** A computation that only reads: the state is untouched, and a throw,
    if any, is a [CameraAccessException]. *)
Definition reading {X} (s : State) (r : outcome Throwable X * State * list Event) : Prop :=
  Eff.state r = s /\ Forall readOnly (Eff.trace r) /\
  match Eff.result r with
  | Done _ => True
  | Thrown (Exc (CameraAccessException _)) => True
  | Thrown _ => False
  end.

(** A computation that neither reads nor writes the state. *)
Definition stateless {X} (m : T X) : Prop :=
  exists r t, forall s, m s = (r, s, t).

(** The traffic of [setLevel(L)]: the call, the strength notification
    that echoes it, the notification that the torch went on. *)
Definition isEcho (L : Z) (i : Input) : bool :=
  match i with
  | Hardware (TorchStrengthLevelChanged _ l) => l =? L
  | _ => false
  end.

Definition setLevelTraffic (L : Z) (i : Input) : Prop :=
  match i with
  | Invoke (CallSetLevel level) => level = Double.of_Z L
  | Hardware (TorchStrengthLevelChanged _ l) => l = L
  | Hardware (TorchModeChanged _ enabled) => enabled = true
  | _ => False
  end.

(** Whether the torch is lit after the hardware calls of a trace, each
    of them having succeeded. *)
Definition lit (before : bool) (t : list Event) : bool :=
  fold_left (fun b ev =>
               match ev with
               | SetTorchMode _ enabled => enabled
               | TurnOnTorchWithStrengthLevel _ _ => true
               | _ => b
               end) t before.
End Android.

(* ================================================================== *)
(** * src/utils.ts *)
(* ================================================================== *)

Module Js.

Local Open Scope string_scope.

(** ** Values *)

(** The values [JSON.parse] returns, and [undefined].  A number is
    carried by a decimal rendering: the canonical one for a thrown
    number, the text of the literal for a parsed one (the code below
    never renders nor compares a parsed number).  An object is a plain
    one: its prototype is [Object.prototype], its members are its own
    data properties, none of them a function; an array has its
    elements and nothing else of its own. *)
#[warnings="-register-all"] Inductive value :=
| Undefined
| Null
| Boolean (b : bool)
| Number (repr : string)
| Str (s : string)
| Array (elements : list value)
| Object (members : list (string * value)).

(** What a [catch] clause receives: an [Error] instance, with its
    [message], or any other value. *)
Inductive thrown :=
| ErrorInstance (message : string)
| NotError (v : value).

(** [String(v)]; [None] is the [TypeError] it throws when [v] cannot be
    converted.  An array joins its elements with commas, [null] and
    [undefined] among them rendered empty, the others converted in turn.
    An object is converted by the [toString] it finds: that of
    [Object.prototype], unless the object has a member of this name;
    such a member, being no function, is passed over, [valueOf] gives
    the object back, and the conversion throws. *)
Fixpoint toString (v : value) : option string :=
  match v with
  | Undefined => Some "undefined"
  | Null => Some "null"
  | Boolean true => Some "true"
  | Boolean false => Some "false"
  | Number repr => Some repr
  | Str s => Some s
  | Array elements =>
      let element v := match v with Undefined | Null => Some "" | _ => toString v end in
      (fix join (vs : list value) : option string :=
         match vs with
         | [] => Some ""
         | [v] => element v
         | v :: vs' =>
             match element v, join vs' with
             | Some first, Some rest => Some (first ++ "," ++ rest)
             | _, _ => None
             end
         end) elements
  | Object members =>
      if existsb (fun kv => String.eqb (fst kv) "toString") members then None
      else Some "[object Object]"
  end.

(** [v.key], for a key that no prototype defines; [None] is the
    [TypeError] of reading a property of [null] or [undefined].  Of two
    members with one key, an object keeps the later. *)
Definition lookup (key : string) (members : list (string * value)) : value :=
  fold_left (fun found kv => if String.eqb (fst kv) key then snd kv else found)
    members Undefined.

Definition property (v : value) (key : string) : option value :=
  match v with
  | Undefined | Null => None
  | Object members => Some (lookup key members)
  | _ => Some Undefined
  end.

(** ** [/\{[^}]*"type"[^}]*"message"[^}]*\}/] *)

Definition dquote : string := String (ascii_of_nat 34) EmptyString.
Definition quoted (s : string) : string := dquote ++ s ++ dquote.

Definition is_char (c : ascii) (n : nat) : bool := Nat.eqb (nat_of_ascii c) n.
Definition lbrace := 123%nat.
Definition rbrace := 125%nat.

(** The text before the first [}] of [s]. *)
Fixpoint before_rbrace (s : string) : option string :=
  match s with
  | EmptyString => None
  | String c r =>
      if is_char c rbrace then Some EmptyString
      else option_map (String c) (before_rbrace r)
  end.

(** What follows the first occurrence of [pat] in [s]. *)
Fixpoint after_first (pat s : string) : option string :=
  if String.prefix pat s then Some (substring (length pat) (length s - length pat) s)
  else
    match s with
    | EmptyString => None
    | String _ r => after_first pat r
    end.

(** Between a [{] and the first [}] after it the pattern wants
    ["type"] and then ["message"]. *)
Definition type_then_message (inner : string) : bool :=
  match after_first (quoted "type") inner with
  | Some r =>
      match after_first (quoted "message") r with
      | Some _ => true
      | None => false
      end
  | None => false
  end.

(** [message.match(...)]: the leftmost match, [jsonMatch[0]]. *)
Fixpoint jsonMatch (message : string) : option string :=
  match message with
  | EmptyString => None
  | String c r =>
      if is_char c lbrace then
        match before_rbrace r with
        | Some inner =>
            if type_then_message inner then Some (String c (inner ++ "}"))
            else jsonMatch r
        | None => None
        end
      else jsonMatch r
  end.

(** ** The classifier *)

Record TorchError := { message : value; code : value }.

(** [TorchExceptionType] *)
Definition AccessFailed := "AccessFailed".
Definition Unknown := "Unknown".

(** The text [parseTorchError] hands to [JSON.parse]: what the pattern
    matches in [error.message || 'Unknown error'], or else all of it. *)
Definition candidate (errorMessage : string) : string :=
  let message := if String.eqb errorMessage "" then "Unknown error" else errorMessage in
  match jsonMatch message with
  | Some matched => matched
  | None => message
  end.

Section Parse.
(** [JSON.parse]; [None] is its [SyntaxError]. *)
Variable JSON_parse : string -> option value.

(** [parseTorchError(error)], for an [Error] instance: its argument
    here is [error.message]. *)
Definition parseTorchError (errorMessage : string) : TorchError :=
  let caught := {| message := Str errorMessage; code := Str Unknown |} in
  let fields (parsed : option value) :=
    match parsed with
    | None => caught                                   (* SyntaxError *)
    | Some errorData =>
        match property errorData "message", property errorData "code" with
        | Some m, Some c => {| message := m; code := c |}
        | _, _ => caught                               (* TypeError *)
        end
    end in
  let message := if String.eqb errorMessage "" then "Unknown error" else errorMessage in
  match jsonMatch message with
  | Some matched => fields (JSON_parse matched)
  | None => fields (JSON_parse message)
  end.

(** [error ?? 'Unknown error'] *)
Definition orUnknownError (error : value) : value :=
  match error with
  | Undefined | Null => Str "Unknown error"
  | _ => error
  end.

(** [parseAndNormalizeError(error)]; [None] is the [TypeError] of
    [String(...)], which nothing here catches. *)
Definition parseAndNormalizeError (error : thrown) : option TorchError :=
  match error with
  | ErrorInstance errorMessage =>
      let parsed := parseTorchError errorMessage in
      Some {| message := message parsed; code := code parsed |}
  | NotError v =>
      match toString (orUnknownError v) with
      | Some text => Some {| message := Str text; code := Str AccessFailed |}
      | None => None
      end
  end.
End Parse.

(** ** A reference [JSON.parse]

    The JSON grammar of ECMA-404, read by recursive descent; [None] is the
    [SyntaxError].  An escape [\uXXXX] is kept in UTF-8. *)

Definition code_of (c : ascii) : nat := nat_of_ascii c.

Definition is_ws (c : ascii) : bool :=
  let n := code_of c in
  Nat.eqb n 32 || Nat.eqb n 9 || Nat.eqb n 10 || Nat.eqb n 13.

Fixpoint skip_ws (s : string) : string :=
  match s with
  | String c r => if is_ws c then skip_ws r else s
  | EmptyString => s
  end.

Definition is_digit (c : ascii) : bool :=
  Nat.leb 48 (code_of c) && Nat.leb (code_of c) 57.

Fixpoint span_digits (s : string) : string * string :=
  match s with
  | String c r =>
      if is_digit c then let '(d, r') := span_digits r in (String c d, r')
      else (EmptyString, s)
  | EmptyString => (EmptyString, EmptyString)
  end.

(** What follows [pat] at the head of [s]. *)
Fixpoint strip_prefix (pat s : string) : option string :=
  match pat, s with
  | EmptyString, _ => Some s
  | String a pat', String b s' => if Ascii.eqb a b then strip_prefix pat' s' else None
  | String _ _, EmptyString => None
  end.

(** A number literal and what follows it: an optional minus, an integer
    part without a leading zero (or the digit zero alone), an optional
    fraction, an optional exponent. *)
Definition scan_number (s : string) : option (string * string) :=
  let '(sign, s1) := match strip_prefix "-" s with
                     | Some r => ("-", r)
                     | None => ("", s)
                     end in
  let '(int, s2) := span_digits s1 in
  let int_ok := match int with
                | EmptyString => false
                | String c EmptyString => true
                | String c _ => negb (Nat.eqb (code_of c) 48)
                end in
  if negb int_ok then None
  else
    let frac := match strip_prefix "." s2 with
                | Some r =>
                    let '(d, r') := span_digits r in
                    if String.eqb d "" then None else Some ("." ++ d, r')
                | None => Some ("", s2)
                end in
    match frac with
    | None => None
    | Some (f, s3) =>
        let marker := match strip_prefix "e" s3, strip_prefix "E" s3 with
                      | Some r, _ => Some ("e", r)
                      | None, Some r => Some ("E", r)
                      | None, None => None
                      end in
        match marker with
        | None => Some (sign ++ int ++ f, s3)
        | Some (e, s4) =>
            let '(esign, s5) := match strip_prefix "+" s4, strip_prefix "-" s4 with
                                | Some r, _ => ("+", r)
                                | None, Some r => ("-", r)
                                | None, None => ("", s4)
                                end in
            let '(d, s6) := span_digits s5 in
            if String.eqb d "" then None
            else Some (sign ++ int ++ f ++ e ++ esign ++ d, s6)
        end
    end.

Definition hex_digit (c : ascii) : option nat :=
  let n := code_of c in
  if Nat.leb 48 n && Nat.leb n 57 then Some (n - 48)%nat
  else if Nat.leb 65 n && Nat.leb n 70 then Some (n - 55)%nat
  else if Nat.leb 97 n && Nat.leb n 102 then Some (n - 87)%nat
  else None.

Definition hex4 (a b c d : ascii) : option nat :=
  match hex_digit a, hex_digit b, hex_digit c, hex_digit d with
  | Some x, Some y, Some z, Some w => Some (4096 * x + 256 * y + 16 * z + w)%nat
  | _, _, _, _ => None
  end.

Definition utf8 (n : nat) : string :=
  let byte k := String (ascii_of_nat k) EmptyString in
  if Nat.ltb n 128 then byte n
  else if Nat.ltb n 2048 then byte (192 + n / 64)%nat ++ byte (128 + n mod 64)%nat
  else byte (224 + n / 4096)%nat ++ byte (128 + (n / 64) mod 64)%nat
       ++ byte (128 + n mod 64)%nat.

Definition unescape (c : ascii) : option ascii :=
  let n := code_of c in
  if Nat.eqb n 34 || Nat.eqb n 92 || Nat.eqb n 47 then Some c   (* quote \ / *)
  else if Nat.eqb n 98 then Some (ascii_of_nat 8)               (* b *)
  else if Nat.eqb n 102 then Some (ascii_of_nat 12)             (* f *)
  else if Nat.eqb n 110 then Some (ascii_of_nat 10)             (* n *)
  else if Nat.eqb n 114 then Some (ascii_of_nat 13)             (* r *)
  else if Nat.eqb n 116 then Some (ascii_of_nat 9)              (* t *)
  else None.

(** The characters of a string literal, after its opening quote, and what
    follows its closing quote. *)
Fixpoint scan_string (s : string) : option (string * string) :=
  match s with
  | EmptyString => None
  | String c r =>
      if Nat.eqb (code_of c) 34 then Some (EmptyString, r)
      else if Nat.eqb (code_of c) 92 then
        match r with
        | EmptyString => None
        | String e r' =>
            if Nat.eqb (code_of e) 117 then                      (* u *)
              match r' with
              | String h1 (String h2 (String h3 (String h4 r''))) =>
                  match hex4 h1 h2 h3 h4, scan_string r'' with
                  | Some n, Some (chars, rest) => Some (utf8 n ++ chars, rest)
                  | _, _ => None
                  end
              | _ => None
              end
            else
              match unescape e, scan_string r' with
              | Some c', Some (chars, rest) => Some (String c' chars, rest)
              | _, _ => None
              end
        end
      else if Nat.ltb (code_of c) 32 then None
      else
        match scan_string r with
        | Some (chars, rest) => Some (String c chars, rest)
        | None => None
        end
  end.

Fixpoint parse_value (fuel : nat) (s : string) : option (value * string) :=
  match fuel with
  | O => None
  | S fuel' =>
      match skip_ws s with
      | EmptyString => None
      | String c r as text =>
          if Nat.eqb (code_of c) 123 then                        (* object *)
            match strip_prefix "}" (skip_ws r) with
            | Some rest => Some (Object [], rest)
            | None => option_map (fun '(ms, rest) => (Object ms, rest)) (parse_members fuel' r)
            end
          else if Nat.eqb (code_of c) 91 then                    (* array *)
            match strip_prefix "]" (skip_ws r) with
            | Some rest => Some (Array [], rest)
            | None => option_map (fun '(vs, rest) => (Array vs, rest)) (parse_elements fuel' r)
            end
          else if Nat.eqb (code_of c) 34 then
            option_map (fun '(chars, rest) => (Str chars, rest)) (scan_string r)
          else
            match strip_prefix "true" text, strip_prefix "false" text,
                  strip_prefix "null" text with
            | Some rest, _, _ => Some (Boolean true, rest)
            | _, Some rest, _ => Some (Boolean false, rest)
            | _, _, Some rest => Some (Null, rest)
            | None, None, None =>
                option_map (fun '(lit, rest) => (Number lit, rest)) (scan_number text)
            end
      end
  end

with parse_elements (fuel : nat) (s : string) : option (list value * string) :=
  match fuel with
  | O => None
  | S fuel' =>
      match parse_value fuel' s with
      | None => None
      | Some (v, r) =>
          match strip_prefix "," (skip_ws r), strip_prefix "]" (skip_ws r) with
          | Some r', _ =>
              option_map (fun '(vs, rest) => (v :: vs, rest)) (parse_elements fuel' r')
          | None, Some rest => Some ([v], rest)
          | None, None => None
          end
      end
  end

with parse_members (fuel : nat) (s : string) : option (list (string * value) * string) :=
  match fuel with
  | O => None
  | S fuel' =>
      match strip_prefix dquote (skip_ws s) with
      | None => None
      | Some r0 =>
          match scan_string r0 with
          | None => None
          | Some (key, r1) =>
              match strip_prefix ":" (skip_ws r1) with
              | None => None
              | Some r2 =>
                  match parse_value fuel' r2 with
                  | None => None
                  | Some (v, r3) =>
                      match strip_prefix "," (skip_ws r3), strip_prefix "}" (skip_ws r3) with
                      | Some r4, _ =>
                          option_map (fun '(ms, rest) => ((key, v) :: ms, rest))
                            (parse_members fuel' r4)
                      | None, Some rest => Some ([(key, v)], rest)
                      | None, None => None
                      end
                  end
              end
          end
      end
  end.

Definition JSON_parse (text : string) : option value :=
  match parse_value (2 * length text + 2) text with
  | Some (v, rest) => if String.eqb (skip_ws rest) "" then Some v else None
  | None => None
  end.

End Js.

(* ================================================================== *)
(** * The level scale *)
(* ================================================================== *)

Module Scale.

(** The dynamic maximum in the words of the specification:
    [round(min(thermalCeiling, 1.0) * maxLevel)]. *)
Definition roundedCeiling (thermalCeiling : binary) (maxLevel : Z) : binary :=
  Double.round
    (Double.of_float (Float.mul (Float.min thermalCeiling Float.one) (Float.of_Z maxLevel))).

End Scale.

(* ================================================================== *)
(** * Sample devices *)
(* ================================================================== *)

Module Sample.

(** An iPhone whose torch works, at a given thermal ceiling. *)
Definition iphone (maxAvailableTorchLevel : binary) : Ios.Hardware :=
  {| Ios.device := Some {| Ios.hasTorch := true |};
     Ios.maxAvailableTorchLevel := maxAvailableTorchLevel;
     Ios.lockError := None;
     Ios.torchOnError := None |}.

(** The iOS controller with the torch on at level [L]. *)
Definition glowing (L : Z) : Ios.State :=
  {| Ios.isTorchOn := true; Ios.currentLevel := Double.of_Z L;
     Ios.previousLevel := Some (Double.of_Z L) |}.

Definition half : binary := Float.div (Float.of_Z 1) (Float.of_Z 2).
Definition quarter : binary := Float.div (Float.of_Z 1) (Float.of_Z 4).

(** An Android 14 phone: a front camera without flash, a back camera
    whose flash has five strength levels. *)
Definition front : Android.Camera :=
  {| Android.id := "1";
     Android.characteristics :=
       Some {| Android.FLASH_INFO_AVAILABLE := Some false;
               Android.LENS_FACING := Some 0;
               Android.FLASH_INFO_STRENGTH_MAXIMUM_LEVEL := None |} |}.

Definition back (maximumLevel : option Z) : Android.Camera :=
  {| Android.id := "0";
     Android.characteristics :=
       Some {| Android.FLASH_INFO_AVAILABLE := Some true;
               Android.LENS_FACING := Some Android.LENS_FACING_BACK;
               Android.FLASH_INFO_STRENGTH_MAXIMUM_LEVEL := maximumLevel |} |}.

Definition service (maximumLevel : option Z) : Android.CameraManager :=
  {| Android.cameras := Some [front; back maximumLevel];
     Android.setTorchModeError := None;
     Android.turnOnTorchWithStrengthLevelError := None;
     Android.registerTorchCallbackError := None;
     Android.unregisterTorchCallbackError := None |}.

Definition phone (maximumLevel : option Z) : Android.Platform :=
  {| Android.SDK_INT := 34; Android.cameraManager := Some (service maximumLevel) |}.

Definition pixel : Android.Platform := phone (Some 5).

(** A camera whose characteristics cannot be read, and a phone that
    lists it between the front camera and the back camera. *)
Definition broken : Android.Camera :=
  {| Android.id := "2"; Android.characteristics := None |}.

Definition shadowedService : Android.CameraManager :=
  {| Android.cameras := Some [front; broken; back (Some 5)];
     Android.setTorchModeError := None;
     Android.turnOnTorchWithStrengthLevelError := None;
     Android.registerTorchCallbackError := None;
     Android.unregisterTorchCallbackError := None |}.

Definition shadowed : Android.Platform :=
  {| Android.SDK_INT := 34; Android.cameraManager := Some shadowedService |}.

(** A phone on which [registerTorchCallback] throws. *)
Definition unheardService : Android.CameraManager :=
  {| Android.cameras := Some [front; back (Some 5)];
     Android.setTorchModeError := None;
     Android.turnOnTorchWithStrengthLevelError := None;
     Android.registerTorchCallbackError :=
       Some (Android.IllegalArgumentException "callback");
     Android.unregisterTorchCallbackError := None |}.

Definition unheard : Android.Platform :=
  {| Android.SDK_INT := 34; Android.cameraManager := Some unheardService |}.

(** A phone whose camera service is not to be had. *)
Definition serviceless : Android.Platform :=
  {| Android.SDK_INT := 34; Android.cameraManager := None |}.

End Sample.

(* ================================================================== *)
(** * What a listener hears *)
(* ================================================================== *)

(** The payloads of the calls made through [onStateChanged] and
    [onLevelChanged], in order, and what it means for them not to repeat. *)

Module Heard.

Definition Ios_states (t : list Ios.Event) : list bool :=
  flat_map (fun ev => match ev with Ios.StateChanged b => [b] | _ => [] end) t.

Definition Ios_levels (t : list Ios.Event) : list (option binary) :=
  flat_map (fun ev => match ev with Ios.LevelChanged l => [l] | _ => [] end) t.

Definition Android_states (t : list Android.Event) : list bool :=
  flat_map (fun ev => match ev with Android.StateChanged b => [b] | _ => [] end) t.

Definition Android_levels (t : list Android.Event) : list (option binary) :=
  flat_map (fun ev => match ev with Android.LevelChanged l => [l] | _ => [] end) t.

(** Each state differs from the one before it, [before] being the state
    before the first. *)
Fixpoint alternates (before : bool) (states : list bool) : bool :=
  match states with
  | [] => true
  | b :: rest => negb (Bool.eqb before b) && alternates b rest
  end.

(** Each level differs from the one before it, as [differs] compares
    them. *)
Fixpoint changes (differs : option binary -> option binary -> bool)
         (before : option binary) (levels : list (option binary)) : bool :=
  match levels with
  | [] => true
  | l :: rest => differs before l && changes differs l rest
  end.

(** The comparison of [setTorchMode] on iOS: the level on record is
    rounded first. *)
Definition Ios_differs (before l : option binary) : bool :=
  Double.opt_neq (option_map Double.round before) l.

(** What was heard between [s] and [s'] keeps the listener right: the
    state heard last is [isTorchOn], the level heard last is
    [previousLevel], and neither was heard twice in a row. *)
Definition Ios_faithful (s : Ios.State) (t : list Ios.Event) (s' : Ios.State) : Prop :=
  alternates (Ios.isTorchOn s) (Ios_states t) = true /\
  last (Ios_states t) (Ios.isTorchOn s) = Ios.isTorchOn s' /\
  changes Ios_differs (Ios.previousLevel s) (Ios_levels t) = true /\
  last (Ios_levels t) (Ios.previousLevel s) = Ios.previousLevel s'.

(** On Android the state can be heard twice in a row; the rest holds. *)
Definition Android_faithful (s : Android.State) (t : list Android.Event) (s' : Android.State)
  : Prop :=
  last (Android_states t) (Android.isTorchOn s) = Android.isTorchOn s' /\
  changes Double.opt_neq (Android.previousLevel s) (Android_levels t) = true /\
  last (Android_levels t) (Android.previousLevel s) = Android.previousLevel s'.

(** An Android run in which [dispose] is not called. *)
Definition undisposed (inputs : list (Android.Platform * Android.Input)) : Prop :=
  Forall (fun pi => snd pi <> Android.Invoke Android.CallDispose) inputs.

(** The Android controller's record of the torch is the same in both
    states; the camera it has chosen may differ. *)
Definition Android_view (s s' : Android.State) : Prop :=
  Android.isTorchOn s' = Android.isTorchOn s /\
  Android.previousLevel s' = Android.previousLevel s /\
  Android.torchCallbackRegistered s' = Android.torchCallbackRegistered s.

(** A computation that calls through neither callback slot, and takes
    every state to one that [kept] relates to it. *)
Definition Android_silent {X} (kept : Android.State -> Android.State -> Prop)
           (m : Android.T X) : Prop :=
  forall s, kept s (Eff.state (m s)) /\
            filter Android.isNotification (Eff.trace (m s)) = [].

(** No constraint on the state. *)
Definition any (s s' : Android.State) : Prop := True.

(** A camera that has been chosen stays chosen. *)
Definition Android_settled (s s' : Android.State) : Prop :=
  forall cid, Android.cameraId s = Some cid -> Android.cameraId s' = Some cid.

End Heard.

(* ================================================================== *)
(** * The hardware at hand *)
(* ================================================================== *)

Module At.

(** iOS: there is a device, and it has a torch. *)
Definition torchDevice (hw : Ios.Hardware) : bool :=
  match Ios.device hw with
  | Some dev => Ios.hasTorch dev
  | None => false
  end.

(** Android: the body of the predicate of [ensureCameraId], on the
    characteristics of one camera. *)
Definition isBackFlash (ch : Android.CameraCharacteristics) : bool :=
  match Android.FLASH_INFO_AVAILABLE ch with Some b => b | None => false end
  && match Android.LENS_FACING ch with
     | Some f => f =? Android.LENS_FACING_BACK
     | None => false
     end.

(** Android: the first camera that faces back and has a flash, or else
    the first camera. *)
Definition preferred (cs : list Android.Camera) : option string :=
  match find (fun c => match Android.characteristics c with
                       | Some ch => isBackFlash ch
                       | None => false
                       end) cs with
  | Some c => Some (Android.id c)
  | None => hd_error (map Android.id cs)
  end.

(** Android: the cameras have distinct ids, and the characteristics of
    each can be read. *)
Definition readable (cs : list Android.Camera) : Prop :=
  NoDup (map Android.id cs) /\
  Forall (fun c => Android.characteristics c <> None) cs.

(** Android: a camera that does not stop the search of [ensureCameraId]:
    its characteristics can be read, and it is not a back camera with a
    flash. *)
Definition passedOver (c : Android.Camera) : Prop :=
  exists ch, Android.characteristics c = Some ch /\ isBackFlash ch = false.

(** Android: what [handleTorchException] throws for an exception. *)
Definition structured (e : Android.TorchException) : Android.Throwable :=
  Android.Error {| Android.code := Android.codeOf e;
                   Android.json_message := Android.message e |}.

End At.

(* ================================================================== *)
(** * Errors on the wire *)
(* ================================================================== *)

Module Wire.
Local Open Scope string_scope.

(** The text [{"code":"<code>","message":"<message>"}], the two strings
    put in as they are: what [toJSON] of the iOS controller returns where
    [JSONSerialization] gives nothing. *)
Definition opening : string := "{" ++ Js.quoted "code" ++ ":" ++ Js.dquote.
Definition middle : string := Js.dquote ++ "," ++ Js.quoted "message" ++ ":" ++ Js.dquote.
Definition closing : string := Js.dquote ++ "}".

Definition object (code message : string) : string :=
  opening ++ code ++ middle ++ message ++ closing.

Definition Ios_fallback (e : Ios.TorchError) : string :=
  object (Ios.code e) (Ios.message e).

(** A character that stands for itself in a JSON string, and is no
    brace: not a control character, a quote or a backslash. *)
Definition plainChar (c : ascii) : bool :=
  let n := nat_of_ascii c in
  Nat.leb 32 n && negb (Nat.eqb n 34) && negb (Nat.eqb n 92)
  && negb (Nat.eqb n 123) && negb (Nat.eqb n 125).

Fixpoint plain (s : string) : bool :=
  match s with
  | EmptyString => true
  | String c r => plainChar c && plain r
  end.

(** Without a brace. *)
Fixpoint braceless (s : string) : bool :=
  match s with
  | EmptyString => true
  | String c r =>
      negb (Js.is_char c Js.lbrace) && negb (Js.is_char c Js.rbrace) && braceless r
  end.

(** [s] holds [inner] between a [{] and the first [}] after it. *)
Definition braced (inner s : string) : Prop :=
  exists before after,
    s = before ++ "{" ++ inner ++ "}" ++ after /\
    Js.before_rbrace (inner ++ "}") = Some inner.

End Wire.

(* ================================================================== *)
(** * The arithmetic, by example *)
(* ================================================================== *)

(** The literal [0.1] of [clampedLevel] is one tenth, correctly rounded
    to binary32. *)
Example Float_tenth_is_one_tenth :
  Float.tenth = Float.div (Float.of_Z 1) (Float.of_Z 10).
Proof. vm_compute. reflexivity. Qed.

(** Halfway cases round away from zero. *)
Example round_half_away :
  Double.round (Double.div (Double.of_Z 5) (Double.of_Z 2)) = Double.of_Z 3 /\
  Double.round (Double.div (Double.of_Z (-5)) (Double.of_Z 2)) = Double.of_Z (-3) /\
  Double.round (Double.div (Double.of_Z 9) (Double.of_Z 4)) = Double.of_Z 2.
Proof. vm_compute. repeat split; reflexivity. Qed.

(** Level 7 on iOS: seven tenths is not a binary32 value, so the level
    kept is a little under 7, and is rounded when it is notified. *)
Example level_seven_is_kept_inexact :
  Ios.levelOfNormalized (Ios.normalizedLevel (Double.of_Z 7)) <> Double.of_Z 7 /\
  Double.round (Ios.levelOfNormalized (Ios.normalizedLevel (Double.of_Z 7))) = Double.of_Z 7.
Proof. vm_compute. split; [discriminate | reflexivity]. Qed.

(** [Double.toInt()] truncates and saturates. *)
Example toInt_examples :
  Double.toInt (Double.div (Double.of_Z 7) (Double.of_Z 2)) = 3 /\
  Double.toInt (Double.div (Double.of_Z (-7)) (Double.of_Z 2)) = -3 /\
  Double.toInt S754_nan = 0 /\
  Double.toInt (Double.of_Z (2 ^ 40)) = Double.Int_MAX_VALUE.
Proof. vm_compute. repeat split; reflexivity. Qed.

(* ================================================================== *)
(** * Integers as binary64 values *)
(* ================================================================== *)

(** An integer below [2^52] converts exactly: its digits, shifted to fill
    the 53 bits of the mantissa. *)

Lemma digits2_pos_bounds (p : positive) :
  2 ^ (Zpos (digits2_pos p) - 1) <= Zpos p < 2 ^ Zpos (digits2_pos p).
Proof.
  induction p as [p IH | p IH | ]; cbn [digits2_pos].
  - rewrite Pos2Z.inj_succ. replace (Z.succ (Zpos (digits2_pos p)) - 1) with (Z.succ (Zpos (digits2_pos p) - 1)) by lia.
    rewrite !Z.pow_succ_r by lia. lia.
  - rewrite Pos2Z.inj_succ. replace (Z.succ (Zpos (digits2_pos p)) - 1) with (Z.succ (Zpos (digits2_pos p) - 1)) by lia.
    rewrite !Z.pow_succ_r by lia. lia.
  - cbn. lia.
Qed.

Lemma iter_xO_digits (k p : positive) :
  digits2_pos (Pos.iter xO p k) = (digits2_pos p + k)%positive.
Proof.
  induction k as [ | k IH] using Pos.peano_ind.
  - cbn. lia.
  - rewrite Pos.iter_succ. cbn [digits2_pos]. rewrite IH. lia.
Qed.

Lemma iter_xO_value (k p : positive) :
  Zpos (Pos.iter xO p k) = Zpos p * 2 ^ Zpos k.
Proof.
  induction k as [ | k IH] using Pos.peano_ind.
  - cbn. lia.
  - rewrite Pos.iter_succ, Pos2Z.inj_xO, IH, Pos2Z.inj_succ, Z.pow_succ_r by lia. lia.
Qed.

Lemma binary_round_aux_canonical (s : bool) (m : positive) (e : Z) :
  Zpos (digits2_pos m) = 53 -> -1074 <= e <= 971 ->
  binary_round_aux 53 1024 s (Zpos m) e loc_Exact = S754_finite s m e.
Proof.
  intros Hd He.
  assert (Hf : fexp 53 1024 (Zdigits2 (Zpos m) + e) - e = 0).
  { unfold fexp, emin. cbn [Zdigits2]. rewrite Hd. lia. }
  unfold binary_round_aux, shr_fexp. rewrite Hf. cbn [shr shr_record_of_loc shr_m loc_of_shr_record round_nearest_even].
  rewrite Hf. cbn [shr shr_record_of_loc shr_m].
  replace (e <=? 1024 - 53) with true by (symmetry; apply Z.leb_le; lia).
  reflexivity.
Qed.

Lemma digits_small (p : positive) : Zpos p < 2 ^ 52 -> Zpos (digits2_pos p) <= 52.
Proof.
  intros H. destruct (digits2_pos_bounds p) as [Hl _].
  destruct (Z_le_gt_dec (Zpos (digits2_pos p)) 52) as [ | Hgt]; [assumption | exfalso].
  assert (2 ^ 52 <= 2 ^ (Zpos (digits2_pos p) - 1)) by (apply Z.pow_le_mono_r; lia).
  lia.
Qed.

Lemma binary_round_small (s : bool) (p : positive) :
  Zpos p < 2 ^ 52 ->
  binary_round 53 1024 s p 0 = S754_finite s (Pos.iter xO p (Double.shift p)) (Zneg (Double.shift p)).
Proof.
  intros H. pose proof (digits_small p H) as Hd.
  unfold binary_round, shl_align.
  assert (Hf : fexp 53 1024 (Zpos (digits2_pos p) + 0) - 0 = Zneg (Double.shift p)).
  { unfold fexp, emin, Double.shift. rewrite <- Pos2Z.opp_pos, Pos2Z.inj_sub by lia. lia. }
  rewrite Hf.
  replace (fexp 53 1024 (Zpos (digits2_pos p) + 0)) with (Zneg (Double.shift p)) by lia.
  apply binary_round_aux_canonical.
  - rewrite iter_xO_digits. unfold Double.shift. lia.
  - unfold Double.shift. lia.
Qed.

Lemma of_Z_pos (p : positive) :
  Zpos p < 2 ^ 52 ->
  Double.of_Z (Zpos p) = S754_finite false (Pos.iter xO p (Double.shift p)) (Zneg (Double.shift p)).
Proof. apply binary_round_small. Qed.

Lemma toInt_of_Z (z : Z) : 0 < z <= Double.Int_MAX_VALUE -> Double.toInt (Double.of_Z z) = z.
Proof.
  intros [Hpos Hmax]. destruct z as [ | p | p]; try lia.
  unfold Double.Int_MAX_VALUE in Hmax.
  rewrite of_Z_pos by lia.
  unfold Double.toInt, IEEE.truncate. cbn [cond_Zopp].
  rewrite iter_xO_value, Z.pow_pos_fold, Z.div_mul by (apply Z.pow_nonzero; lia).
  unfold Double.Int_MIN_VALUE, Double.Int_MAX_VALUE. lia.
Qed.

Lemma compare_of_Z (a b : Z) :
  0 < a < 2 ^ 52 -> 0 < b < 2 ^ 52 ->
  SFcompare (Double.of_Z a) (Double.of_Z b) = Some (a ?= b).
Proof.
  intros Ha Hb. destruct a as [ | p | p]; try lia. destruct b as [ | q | q]; try lia.
  rewrite !of_Z_pos by lia. cbn [SFcompare].
  pose proof (digits_small p ltac:(lia)) as Hdp. pose proof (digits_small q ltac:(lia)) as Hdq.
  pose proof (digits2_pos_bounds p) as Bp. pose proof (digits2_pos_bounds q) as Bq.
  f_equal.
  destruct (Z.compare_spec (Zneg (Double.shift p)) (Zneg (Double.shift q))) as [He | He | He].
  - assert (Double.shift p = Double.shift q) as Hs by lia. rewrite Hs.
    change (Pos.compare_cont Eq (Pos.iter xO p (Double.shift q)) (Pos.iter xO q (Double.shift q))) with (Zpos (Pos.iter xO p (Double.shift q)) ?= Zpos (Pos.iter xO q (Double.shift q))).
    rewrite !iter_xO_value.
    assert (0 < 2 ^ Zpos (Double.shift q)) by (apply Z.pow_pos_nonneg; lia).
    destruct (Z.compare_spec (Zpos p) (Zpos q));
      [apply Z.compare_eq_iff | apply Z.compare_lt_iff | apply Z.compare_gt_iff]; nia.
  - symmetry. apply Z.compare_lt_iff. unfold Double.shift in He.
    assert (Zpos (digits2_pos p) < Zpos (digits2_pos q)) as Hlt by lia.
    assert (2 ^ Zpos (digits2_pos p) <= 2 ^ (Zpos (digits2_pos q) - 1)) by (apply Z.pow_le_mono_r; lia).
    lia.
  - symmetry. apply Z.compare_gt_iff. unfold Double.shift in He.
    assert (Zpos (digits2_pos q) < Zpos (digits2_pos p)) as Hlt by lia.
    assert (2 ^ Zpos (digits2_pos q) <= 2 ^ (Zpos (digits2_pos p) - 1)) by (apply Z.pow_le_mono_r; lia).
    lia.
Qed.

Lemma ltb_of_Z (a b : Z) :
  0 < a < 2 ^ 52 -> 0 < b < 2 ^ 52 ->
  IEEE.ltb (Double.of_Z a) (Double.of_Z b) = (a <? b).
Proof.
  intros Ha Hb. unfold IEEE.ltb, SFltb. rewrite compare_of_Z by assumption.
  unfold Z.ltb. destruct (a ?= b); reflexivity.
Qed.

Lemma eqb_of_Z (L : Z) : 0 < L < 2 ^ 52 -> IEEE.eqb (Double.of_Z L) (Double.of_Z L) = true.
Proof.
  intros HL. unfold IEEE.eqb, SFeqb. rewrite compare_of_Z by assumption.
  rewrite Z.compare_refl. reflexivity.
Qed.

Lemma invalidLevel_of_Z (L maxLevel : Z) :
  0 < L < 2 ^ 52 -> 0 < maxLevel < 2 ^ 52 ->
  Android.invalidLevel (Double.of_Z L) maxLevel = (L <? 1) || (maxLevel <? L).
Proof.
  intros HL HM. unfold Android.invalidLevel.
  rewrite !ltb_of_Z by lia. reflexivity.
Qed.

(* ================================================================== *)
(** * The iOS controller, call by call *)
(* ================================================================== *)

Ltac eff :=
  cbv [Eff.bind Eff.ret Eff.throw Eff.catch Eff.get Eff.modify Eff.emit Eff.when
       Eff.orThrow Eff.failing Eff.result Eff.state Eff.trace].

Lemma Eff_bind_get {St Ev Err X} (k : St -> @Eff.M St Ev Err X) (s : St) :
  Eff.bind Eff.get k s = k s s.
Proof.
  unfold Eff.bind, Eff.get. destruct (k s s) as [[r s2] t2]. reflexivity.
Qed.

Lemma Ios_torchReady_inv (hw : Ios.Hardware) :
  Ios.torchReady hw = true ->
  exists dev, Ios.device hw = Some dev /\ Ios.hasTorch dev = true /\ Ios.lockError hw = None.
Proof.
  unfold Ios.torchReady. destruct (Ios.device hw) as [dev | ]; [ | discriminate].
  destruct (Ios.lockError hw); [discriminate | ]. intros H. exists dev. auto.
Qed.

Lemma Ios_usable_inv (hw : Ios.Hardware) :
  Ios.usable hw = true -> Ios.torchReady hw = true /\ Ios.torchOnError hw = None.
Proof.
  unfold Ios.usable. intros H. apply andb_prop in H. destruct H as [H1 H2].
  split; [assumption | ]. destruct (Ios.torchOnError hw); [discriminate | reflexivity].
Qed.

(** What a successful power-off does. *)
Lemma Ios_setTorchMode_off (hw : Ios.Hardware) (level : option binary) (s : Ios.State) :
  Ios.torchReady hw = true ->
  Ios.setTorchMode hw false level s =
    (Done tt,
     {| Ios.isTorchOn := false; Ios.currentLevel := Ios.currentLevel s;
        Ios.previousLevel := None |},
     [Ios.LockForConfiguration; Ios.TorchModeOff; Ios.UnlockForConfiguration]
       ++ (if Ios.isTorchOn s then [Ios.StateChanged false] else [])
       ++ (match Ios.previousLevel s with
           | Some _ => [Ios.LevelChanged None]
           | None => []
           end)).
Proof.
  intros H. destruct (Ios_torchReady_inv hw H) as (dev & Hd & Ht & Hl).
  unfold Ios.setTorchMode. rewrite Hd, Hl. eff. rewrite Ht.
  destruct s as [on cur prev]. destruct on, prev; reflexivity.
Qed.

Lemma Ios_setTorchMode_level (hw : Ios.Hardware) (l : binary) (s : Ios.State) :
  Ios.usable hw = true ->
  let newLevel := Double.round (Ios.levelOfNormalized l) in
  let changed := Double.opt_neq (option_map Double.round (Ios.previousLevel s)) (Some newLevel) in
  Ios.setTorchMode hw true (Some l) s =
    (Done tt,
     {| Ios.isTorchOn := true; Ios.currentLevel := Ios.levelOfNormalized l;
        Ios.previousLevel := if changed then Some newLevel else Ios.previousLevel s |},
     [Ios.LockForConfiguration;
      Ios.SetTorchModeOn (Ios.clampedLevel (Ios.maxAvailableTorchLevel hw) l);
      Ios.UnlockForConfiguration]
       ++ (if Ios.isTorchOn s then [] else [Ios.StateChanged true])
       ++ (if changed then [Ios.LevelChanged (Some newLevel)] else [])).
Proof.
  intros H. destruct (Ios_usable_inv hw H) as [Hr Ho].
  destruct (Ios_torchReady_inv hw Hr) as (dev & Hd & Ht & Hl).
  unfold Ios.setTorchMode. rewrite Hd, Hl, Ho. eff. rewrite Ht.
  destruct s as [on cur prev]. cbn [Ios.isTorchOn Ios.currentLevel Ios.previousLevel Ios.set_isTorchOn Ios.set_currentLevel Ios.set_previousLevel negb Bool.eqb option_map].
  destruct on.
  all: cbn [Ios.isTorchOn Ios.currentLevel Ios.previousLevel Ios.set_isTorchOn Ios.set_currentLevel Ios.set_previousLevel negb Bool.eqb app].
  all: destruct (Double.opt_neq (option_map Double.round prev) (Some (Double.round (Ios.levelOfNormalized l)))); reflexivity.
Qed.

(** What a successful power-on does, with a level or without. *)
Lemma Ios_setTorchMode_on (hw : Ios.Hardware) (level : option binary) (s : Ios.State) :
  Ios.usable hw = true ->
  let torchLevel := match level with
                    | Some l => l
                    | None => Ios.normalizedLevel (Ios.currentLevel s)
                    end in
  let current := match level with
                 | Some l => Ios.levelOfNormalized l
                 | None => Ios.currentLevel s
                 end in
  let newLevel := Double.round current in
  let changed := Double.opt_neq (option_map Double.round (Ios.previousLevel s)) (Some newLevel) in
  Ios.setTorchMode hw true level s =
    (Done tt,
     {| Ios.isTorchOn := true; Ios.currentLevel := current;
        Ios.previousLevel := if changed then Some newLevel else Ios.previousLevel s |},
     [Ios.LockForConfiguration;
      Ios.SetTorchModeOn (Ios.clampedLevel (Ios.maxAvailableTorchLevel hw) torchLevel);
      Ios.UnlockForConfiguration]
       ++ (if Ios.isTorchOn s then [] else [Ios.StateChanged true])
       ++ (if changed then [Ios.LevelChanged (Some newLevel)] else [])).
Proof.
  intros H. destruct level as [l | ]; [exact (Ios_setTorchMode_level hw l s H) | ].
  destruct (Ios_usable_inv hw H) as [Hr Ho].
  destruct (Ios_torchReady_inv hw Hr) as (dev & Hd & Ht & Hl).
  unfold Ios.setTorchMode. rewrite Hd, Hl, Ho. eff. rewrite Ht.
  destruct s as [on cur prev].
  cbn [Ios.isTorchOn Ios.currentLevel Ios.previousLevel Ios.set_isTorchOn
       Ios.set_currentLevel Ios.set_previousLevel negb Bool.eqb option_map].
  destruct on;
    cbn [Ios.isTorchOn Ios.currentLevel Ios.previousLevel Ios.set_isTorchOn
         Ios.set_currentLevel Ios.set_previousLevel negb Bool.eqb app];
    destruct (Double.opt_neq (option_map Double.round prev) (Some (Double.round cur)));
    reflexivity.
Qed.

(** A call that fails leaves the state as it was. *)
Lemma Ios_setTorchMode_fails (hw : Ios.Hardware) (enable : bool) (level : option binary)
      (s : Ios.State) :
  (if enable then Ios.usable hw else Ios.torchReady hw) = false ->
  exists e t, Ios.setTorchMode hw enable level s = (Thrown e, s, t).
Proof.
  unfold Ios.usable, Ios.torchReady, Ios.setTorchMode.
  destruct hw as [[[[ | ]] | ] maxA [le | ] [te | ]]; destruct enable; cbn;
    intros H; try discriminate; eexists _, _; reflexivity.
Qed.

(** [setTorchMode] either completes or leaves the state as it was. *)
Lemma Ios_setTorchMode_cases (hw : Ios.Hardware) (enable : bool) (level : option binary)
      (s : Ios.State) :
  (exists e t, Ios.setTorchMode hw enable level s = (Thrown e, s, t)) \/
  (exists s' t, Ios.setTorchMode hw enable level s = (Done tt, s', t) /\
                Ios.isTorchOn s' = enable /\
                (enable = false -> Ios.previousLevel s' = None) /\
                (enable = true -> Ios.previousLevel s' <> None)).
Proof.
  destruct (if enable then Ios.usable hw else Ios.torchReady hw) eqn:H.
  - right. destruct enable.
    + rewrite (Ios_setTorchMode_on hw level s H). cbn zeta.
      eexists _, _. split; [reflexivity | ]. cbn. repeat split; try discriminate.
      intros _.
      match goal with |- context [Double.opt_neq ?a ?b] => destruct (Double.opt_neq a b) eqn:Hc end;
        [discriminate | ].
      destruct (Ios.previousLevel s); [discriminate | cbn in Hc; discriminate].
    + rewrite (Ios_setTorchMode_off hw level s H).
      eexists _, _. split; [reflexivity | ]. cbn. repeat split; discriminate.
  - left. apply Ios_setTorchMode_fails, H.
Qed.

Lemma Ios_rethrow_same {X} (m : Ios.T Ios.TorchError X) (s : Ios.State) :
  Eff.state (Ios.rethrow m s) = Eff.state (m s) /\
  Eff.trace (Ios.rethrow m s) = Eff.trace (m s).
Proof.
  unfold Ios.rethrow, Eff.catch. destruct (m s) as [[[x | e] s1] t1]; cbn;
    rewrite ?app_nil_r; auto.
Qed.

Lemma Ios_setLevel_rejects (hw : Ios.Hardware) (level : binary) (s : Ios.State) :
  Ios.validLevel level = false ->
  Ios.setLevel hw level s =
    (Thrown {| Ios.err_code := "AccessFailed";
               Ios.err_message := "Failed: Level must be between 1 and 10" |},
     s, []).
Proof.
  intros H. unfold Ios.setLevel, Ios.rethrow. rewrite H. reflexivity.
Qed.

Lemma Ios_setLevel_accepts (hw : Ios.Hardware) (level : binary) (s : Ios.State) :
  Ios.validLevel level = true ->
  Ios.setLevel hw level s =
    Ios.rethrow (Ios.setTorchMode hw true (Some (Ios.normalizedLevel level))) s.
Proof.
  intros H. unfold Ios.setLevel, Ios.rethrow. rewrite H. eff. cbn [negb].
  destruct (Ios.setTorchMode hw true (Some (Ios.normalizedLevel level)) s) as [[[[] | e] s1] t1];
    reflexivity.
Qed.

(** The ten levels of iOS: each is accepted, is not changed by the clamp
    at a ceiling of 1.0, and comes back from its normalised value. *)
Lemma Ios_ten_levels (L : Z) :
  1 <= L <= 10 ->
  Ios.validLevel (Double.of_Z L) = true /\
  Ios.clampedLevel Float.one (Ios.normalizedLevel (Double.of_Z L))
    = Ios.normalizedLevel (Double.of_Z L) /\
  Double.round (Ios.levelOfNormalized (Ios.normalizedLevel (Double.of_Z L)))
    = Double.of_Z L /\
  Double.round (Double.of_Z L) = Double.of_Z L.
Proof.
  intros HL.
  assert (L = 1 \/ L = 2 \/ L = 3 \/ L = 4 \/ L = 5 \/
          L = 6 \/ L = 7 \/ L = 8 \/ L = 9 \/ L = 10) as Hcases by lia.
  repeat (destruct Hcases as [-> | Hcases]); [ .. | subst L];
    vm_compute; repeat split; reflexivity.
Qed.

(* ================================================================== *)
(** * The Android controller, call by call *)
(* ================================================================== *)

Lemma Android_find_listed (cs : list Android.Camera) (cid : string) :
  In cid (map Android.id cs) -> find (fun c => String.eqb (Android.id c) cid) cs <> None.
Proof.
  induction cs as [ | c cs IH]; cbn; [tauto | ].
  intros [H | H].
  - rewrite H, String.eqb_refl. discriminate.
  - destruct (String.eqb (Android.id c) cid); [discriminate | auto].
Qed.

Lemma Android_hasBackFlash_reading (manager : Android.CameraManager) (cs : list Android.Camera) (cid : string) (s : Android.State) :
  Android.cameras manager = Some cs -> In cid (map Android.id cs) ->
  Android.reading s (Android.hasBackFlash manager cid s).
Proof.
  intros Hc Hin. unfold Android.hasBackFlash, Android.getCameraCharacteristics. rewrite Hc.
  pose proof (Android_find_listed cs cid Hin) as Hf.
  destruct (find (fun c => String.eqb (Android.id c) cid) cs) as [c | ]; [ | congruence].
  eff. destruct (Android.characteristics c); cbn;
    (split; [reflexivity | split; [repeat constructor | exact I]]).
Qed.

Lemma Android_firstOrNull_reading (manager : Android.CameraManager) (cs : list Android.Camera) (ids : list string) (s : Android.State) :
  Android.cameras manager = Some cs -> incl ids (map Android.id cs) ->
  Android.reading s (Android.firstOrNull (Android.hasBackFlash manager) ids s).
Proof.
  intros Hc. induction ids as [ | cid ids IH]; intros Hin.
  - cbn. eff. repeat split; constructor.
  - cbn [Android.firstOrNull]. unfold Eff.bind at 1.
    pose proof (Android_hasBackFlash_reading manager cs cid s Hc (Hin cid (or_introl eq_refl))) as Hh.
    destruct (Android.hasBackFlash manager cid s) as [[[b | e] s1] t1]; unfold Android.reading in Hh; cbn in Hh;
      destruct Hh as (-> & Ht & Hr).
    + destruct b.
      * eff. cbn. rewrite app_nil_r. repeat split; assumption.
      * assert (incl ids (map Android.id cs)) as Hin' by (intros x Hx; apply Hin; right; exact Hx).
        specialize (IH Hin').
        destruct (Android.firstOrNull (Android.hasBackFlash manager) ids s) as [[r2 s2] t2].
        unfold Android.reading in IH |- *; cbn in IH |- *. destruct IH as (-> & Ht2 & Hr2).
        repeat split; [apply Forall_app; split; assumption | exact Hr2].
    + unfold Android.reading; cbn. repeat split; assumption.
Qed.

Lemma Android_ensureCameraId_spec (p : Android.Platform) (s : Android.State) :
  Android.ensureCameraId p s = (Done tt, Android.set_cameraId (Android.resolved p s) s, Android.probes p s) /\
  Forall Android.readOnly (Android.probes p s) /\
  (forall cid, Android.cameraId s = Some cid -> Android.resolved p s = Some cid /\ Android.probes p s = []).
Proof.
  unfold Android.resolved, Android.probes.
  assert (Hmain : exists c t, Android.ensureCameraId p s = (Done tt, Android.set_cameraId c s, t) /\ Forall Android.readOnly t
                  /\ (forall cid, Android.cameraId s = Some cid -> c = Some cid /\ t = [])).
  { unfold Android.ensureCameraId. unfold Eff.bind at 1, Eff.get at 1.
    destruct s as [cid0 on prev reg]. cbn [Android.cameraId].
    destruct cid0 as [cid0 | ].
    { exists (Some cid0), []. eff. repeat split; try constructor; congruence. }
    destruct (Android.cameraManager p) as [manager | ].
    2:{ exists None, []. eff. repeat split; try constructor; congruence. }
    unfold Eff.catch, Android.cameraIdList.
    destruct (Android.cameras manager) as [cs | ] eqn:Hc.
    2:{ exists None, [Android.CameraIdList]. eff. cbn. repeat split; repeat constructor; congruence. }
    set (s0 := {| Android.cameraId := None; Android.isTorchOn := on; Android.previousLevel := prev; Android.torchCallbackRegistered := reg |}).
    pose proof (Android_firstOrNull_reading manager cs (map Android.id cs) s0 Hc (incl_refl _)) as Hf.
    eff. cbn [app].
    fold s0.
    destruct (Android.firstOrNull (Android.hasBackFlash manager) (map Android.id cs) s0) as [[[found | e] s1] t1];
      unfold Android.reading in Hf; cbn in Hf; destruct Hf as (-> & Ht & Hr).
    - destruct found as [cid | ].
      + exists (Some cid), (Android.CameraIdList :: Android.CameraIdList :: t1 ++ []). cbn.
        repeat split; try congruence. repeat constructor. rewrite app_nil_r. exact Ht.
      + exists (hd_error (map Android.id cs)), (Android.CameraIdList :: Android.CameraIdList :: t1 ++ [Android.CameraIdList]). cbn.
        repeat split; try congruence. repeat constructor. apply Forall_app. split; [exact Ht | repeat constructor].
    - destruct e as [[msg | msg] | te | j]; try contradiction.
      exists None, (Android.CameraIdList :: Android.CameraIdList :: t1 ++ []). cbn.
      repeat split; try congruence. repeat constructor. rewrite app_nil_r. exact Ht. }
  destruct Hmain as (c & t & He & Ht & Hc). rewrite He. cbn. auto.
Qed.

Lemma Android_reads_filtered (t : list Android.Event) :
  Forall Android.readOnly t ->
  filter Android.isTorchCommand t = [] /\ filter Android.isNotification t = [].
Proof.
  induction 1 as [ | ev t [Hc Hn] _ [IH1 IH2]]; cbn; [auto | ].
  rewrite Hc, Hn. auto.
Qed.

Lemma Android_probes_filtered (p : Android.Platform) (s : Android.State) :
  filter Android.isTorchCommand (Android.probes p s) = [] /\
  filter Android.isNotification (Android.probes p s) = [].
Proof.
  apply Android_reads_filtered. apply (Android_ensureCameraId_spec p s).
Qed.

Lemma Android_probes_level_free (p : Android.Platform) (s : Android.State) :
  filter Android.isLevelChanged (Android.probes p s) = [].
Proof.
  destruct (Android_ensureCameraId_spec p s) as (_ & Hro & _).
  induction Hro as [ | ev t0 [_ Hev] _ IH]; [reflexivity | ].
  cbn. destruct ev; try discriminate; exact IH.
Qed.

Lemma Android_stateless_bind {X Y} (m : Android.T X) (k : X -> Android.T Y) :
  Android.stateless m -> (forall x, Android.stateless (k x)) ->
  Android.stateless (Eff.bind m k).
Proof.
  intros (r & t & Hm) Hk. unfold Eff.bind. destruct r as [x | e].
  - destruct (Hk x) as (r2 & t2 & Hk2). exists r2, (t ++ t2). intros s.
    rewrite Hm, Hk2. reflexivity.
  - exists (Thrown e), t. intros s. rewrite Hm. reflexivity.
Qed.

Lemma Android_getCameraCharacteristics_stateless (manager : Android.CameraManager)
      (cid : string) :
  Android.stateless (Android.getCameraCharacteristics manager cid).
Proof.
  unfold Android.getCameraCharacteristics. apply Android_stateless_bind.
  - eexists _, _. intros s. reflexivity.
  - intros _. destruct (Android.cameras manager) as [cs | ].
    + destruct (find (fun c => String.eqb (Android.id c) cid) cs) as [c | ].
      * destruct (Android.characteristics c); eexists _, _; intros s; reflexivity.
      * eexists _, _; intros s; reflexivity.
    + eexists _, _; intros s; reflexivity.
Qed.

Lemma Android_hasBackFlash_stateless (manager : Android.CameraManager) (cid : string) :
  Android.stateless (Android.hasBackFlash manager cid).
Proof.
  unfold Android.hasBackFlash. apply Android_stateless_bind.
  - apply Android_getCameraCharacteristics_stateless.
  - intros ch. eexists _, _. intros s. reflexivity.
Qed.

Lemma Android_firstOrNull_stateless (manager : Android.CameraManager) (ids : list string) :
  Android.stateless (Android.firstOrNull (Android.hasBackFlash manager) ids).
Proof.
  induction ids as [ | cid ids IH]; cbn [Android.firstOrNull].
  - eexists _, _. intros s. reflexivity.
  - apply Android_stateless_bind; [apply Android_hasBackFlash_stateless | ].
    intros [ | ]; [eexists _, _; intros s; reflexivity | exact IH].
Qed.

Lemma Android_cameraIdList_stateless (manager : Android.CameraManager) :
  Android.stateless (Android.cameraIdList manager).
Proof.
  unfold Android.cameraIdList. apply Android_stateless_bind.
  - eexists _, _. intros s. reflexivity.
  - intros _. destruct (Android.cameras manager); eexists _, _; intros s; reflexivity.
Qed.

(** The camera [ensureCameraId] settles on depends on the state through
    [cameraId] alone. *)
Lemma Android_resolved_cameraId (p : Android.Platform) (s s' : Android.State) :
  Android.cameraId s = Android.cameraId s' ->
  Android.resolved p s = Android.resolved p s' /\ Android.probes p s = Android.probes p s'.
Proof.
  intros Hid. unfold Android.resolved, Android.probes, Android.ensureCameraId.
  rewrite !Eff_bind_get, <- Hid.
  destruct (Android.cameraId s) as [c | ] eqn:Hc.
  { cbn. rewrite Hc, <- Hid. split; reflexivity. }
  destruct (Android.cameraManager p) as [manager | ].
  2:{ cbn. rewrite Hc, <- Hid. split; reflexivity. }
  unfold Eff.catch.
  destruct (Android_cameraIdList_stateless manager) as (r1 & t1 & H1).
  destruct (Android_firstOrNull_stateless manager
              (match Android.cameras manager with Some cs => map Android.id cs | None => [] end))
    as (r2 & t2 & H2).
  unfold Eff.bind. rewrite !H1.
  destruct r1 as [ids | e1].
  2:{ destruct e1 as [[msg | msg] | te | j]; cbn; rewrite ?Hc, <- ?Hid; split; reflexivity. }
  assert (Hids : ids = match Android.cameras manager with
                       | Some cs => map Android.id cs
                       | None => []
                       end).
  { specialize (H1 s). unfold Android.cameraIdList, Eff.bind, Eff.emit in H1.
    destruct (Android.cameras manager); cbn in H1; congruence. }
  rewrite Hids, !H2.
  destruct r2 as [[found | ] | e2].
  - cbn. split; reflexivity.
  - cbv beta iota. unfold Eff.bind. rewrite !H1. cbn. split; reflexivity.
  - destruct e2 as [[msg | msg] | te | j]; cbn; rewrite ?Hc, <- ?Hid; split; reflexivity.
Qed.

(** [handling] changes the exception, not the state nor the trace. *)
Lemma Android_handling_same {X} (m : Android.T X) (s : Android.State) :
  Eff.state (Android.handling m s) = Eff.state (m s) /\
  Eff.trace (Android.handling m s) = Eff.trace (m s) /\
  (forall x, Eff.result (m s) = Done x -> Eff.result (Android.handling m s) = Done x).
Proof.
  unfold Android.handling, Eff.catch.
  destruct (m s) as [[[x | e] s1] t1]; cbn.
  - repeat split; auto.
  - destruct e; cbn; rewrite app_nil_r; repeat split; intros; discriminate.
Qed.

Lemma Android_setTorchMode_spec (p : Android.Platform) (manager : Android.CameraManager)
      (cid : string) (enable : bool) (s : Android.State) :
  Android.torchCamera p s = Some (manager, cid) ->
  Android.setTorchMode p enable s =
    (if Bool.eqb (Android.isTorchOn s) enable then Done tt
     else match Android.setTorchModeError manager with
          | None => Done tt
          | Some e => Thrown (Android.TorchExc (Android.AccessFailed (Android.getMessage e)))
          end,
     Android.set_cameraId (Some cid) s,
     Android.probes p s
       ++ (if Bool.eqb (Android.isTorchOn s) enable then []
           else [Android.SetTorchMode cid enable])).
Proof.
  unfold Android.torchCamera. intros Hcam.
  destruct (Android.cameraManager p) as [m | ] eqn:Hm; [ | discriminate].
  destruct (Android.resolved p s) as [c | ] eqn:Hres; [ | discriminate].
  destruct (Android.MIN_API_LEVEL <=? Android.SDK_INT p) eqn:Hsdk; [ | discriminate].
  injection Hcam as -> ->.
  destruct (Android_ensureCameraId_spec p s) as (He & _ & _).
  unfold Android.setTorchMode. rewrite Hm.
  replace (Android.SDK_INT p <? Android.MIN_API_LEVEL) with false
    by (symmetry; apply Z.ltb_ge; apply Z.leb_le; exact Hsdk).
  unfold Eff.bind at 1. unfold Eff.orThrow, Eff.ret at 1.
  unfold Eff.bind at 1. unfold Eff.when, Eff.ret at 1.
  unfold Eff.bind at 1. rewrite He, Hres.
  eff. cbn [Android.cameraId Android.set_cameraId Android.isTorchOn app].
  destruct (Bool.eqb (Android.isTorchOn s) enable).
  - rewrite !app_nil_r. reflexivity.
  - destruct (Android.setTorchModeError manager); cbn; rewrite ?app_nil_r; reflexivity.
Qed.

Lemma Android_off_spec (p : Android.Platform) (manager : Android.CameraManager)
      (cid : string) (s : Android.State) :
  Android.torchCamera p s = Some (manager, cid) ->
  Eff.state (Android.off p s) = Android.set_cameraId (Some cid) s /\
  Eff.trace (Android.off p s) =
    Android.probes p s ++ (if Android.isTorchOn s then [Android.SetTorchMode cid false] else []).
Proof.
  intros Hcam. unfold Android.off.
  destruct (Android_handling_same (Android.setTorchMode p false) s) as (Hs & Ht & _).
  rewrite Hs, Ht, (Android_setTorchMode_spec p manager cid false s Hcam). cbn.
  destruct (Android.isTorchOn s); auto.
Qed.

Lemma Android_toggle_spec (p : Android.Platform) (manager : Android.CameraManager)
      (cid : string) (s : Android.State) :
  Android.torchCamera p s = Some (manager, cid) ->
  Eff.state (Android.toggle p s) = Android.set_cameraId (Some cid) s /\
  Eff.trace (Android.toggle p s) =
    Android.probes p s ++ [Android.SetTorchMode cid (negb (Android.isTorchOn s))].
Proof.
  intros Hcam. unfold Android.toggle.
  destruct (Android_handling_same
              (Eff.bind Eff.get (fun s0 => Android.setTorchMode p (negb (Android.isTorchOn s0)))) s)
    as (Hs & Ht & _).
  rewrite Hs, Ht, Eff_bind_get.
  rewrite (Android_setTorchMode_spec p manager cid _ s Hcam).
  replace (Bool.eqb (Android.isTorchOn s) (negb (Android.isTorchOn s))) with false
    by (destruct (Android.isTorchOn s); reflexivity).
  destruct (Android.setTorchModeError manager); cbn; auto.
Qed.

Lemma Android_torchCamera_stable (p : Android.Platform) (s s' : Android.State)
      (manager : Android.CameraManager) (cid : string) :
  Android.torchCamera p s = Some (manager, cid) ->
  Android.cameraId s' = Some cid ->
  Android.torchCamera p s' = Some (manager, cid) /\ Android.probes p s' = [].
Proof.
  unfold Android.torchCamera. intros Hcam Hid.
  destruct (Android.cameraManager p) as [m | ]; [ | discriminate].
  destruct (Android.resolved p s) as [c | ]; [ | discriminate].
  destruct (Android.MIN_API_LEVEL <=? Android.SDK_INT p); [ | discriminate].
  injection Hcam as -> ->.
  destruct (Android_ensureCameraId_spec p s') as (_ & _ & Hkeep).
  destruct (Hkeep cid Hid) as [-> ->]. auto.
Qed.

Lemma Android_deliver_off (p : Android.Platform) (cid : string) (s : Android.State) :
  Android.torchCallbackRegistered s = true ->
  Android.deliver p (Android.TorchModeChanged cid false) s =
    (Done tt,
     Android.set_previousLevel None (Android.set_isTorchOn false s),
     Android.StateChanged false
       :: match Android.previousLevel s with
          | Some _ => [Android.LevelChanged None]
          | None => []
          end).
Proof.
  intros Hreg. unfold Android.deliver, Android.onTorchModeChanged. eff. rewrite Hreg.
  destruct s as [c on prev reg]. destruct prev; reflexivity.
Qed.

Lemma Android_deliver_on (p : Android.Platform) (cid : string) (s : Android.State) :
  Android.torchCallbackRegistered s = true ->
  Android.deliver p (Android.TorchModeChanged cid true) s =
    (Done tt, Android.set_isTorchOn true s, [Android.StateChanged true]).
Proof.
  intros Hreg. unfold Android.deliver, Android.onTorchModeChanged. eff. rewrite Hreg.
  reflexivity.
Qed.

Lemma Android_deliver_strength (p : Android.Platform) (cid : string) (n : Z) (s : Android.State) :
  Android.torchCallbackRegistered s = true ->
  Android.VERSION_CODES_TIRAMISU <= Android.SDK_INT p ->
  let newLevel := Double.of_Z n in
  let changed := Double.opt_neq (Android.previousLevel s) (Some newLevel) in
  Android.deliver p (Android.TorchStrengthLevelChanged cid n) s =
    (Done tt,
     (if changed then Android.set_previousLevel (Some newLevel) s else s),
     (if changed then [Android.LevelChanged (Some newLevel)] else [])).
Proof.
  intros Hreg Hsdk. unfold Android.deliver, Android.onTorchStrengthLevelChanged. eff.
  rewrite Hreg.
  replace (Android.VERSION_CODES_TIRAMISU <=? Android.SDK_INT p) with true
    by (symmetry; apply Z.leb_le; exact Hsdk).
  cbn zeta.
  destruct (Double.opt_neq (Android.previousLevel s) (Some (Double.of_Z n))); reflexivity.
Qed.

Lemma Android_strengthCamera_inv (p : Android.Platform) (s : Android.State)
      (manager : Android.CameraManager) (cid : string) (maxLevel : Z) :
  Android.strengthCamera p s = Some (manager, cid, maxLevel) ->
  Android.cameraManager p = Some manager /\
  Android.resolved p s = Some cid /\
  Android.VERSION_CODES_TIRAMISU <= Android.SDK_INT p /\
  exists ch, Android.characteristicsOf manager cid = Some ch /\
             Android.maximumLevel ch = maxLevel.
Proof.
  unfold Android.strengthCamera.
  destruct (Android.cameraManager p) as [m | ]; [ | discriminate].
  destruct (Android.resolved p s) as [c | ]; [ | discriminate].
  destruct (Android.VERSION_CODES_TIRAMISU <=? Android.SDK_INT p) eqn:Hsdk; [ | discriminate].
  destruct (Android.characteristicsOf m c) as [ch | ] eqn:Hch; [ | discriminate].
  cbn. intros H. injection H as -> -> <-.
  repeat split; auto. { apply Z.leb_le; exact Hsdk. } exists ch. auto.
Qed.

Lemma Android_strengthCamera_stable (p : Android.Platform) (s s' : Android.State)
      (manager : Android.CameraManager) (cid : string) (maxLevel : Z) :
  Android.strengthCamera p s = Some (manager, cid, maxLevel) ->
  Android.cameraId s' = Some cid ->
  Android.strengthCamera p s' = Some (manager, cid, maxLevel) /\ Android.probes p s' = [].
Proof.
  intros Hcam Hid.
  destruct (Android_strengthCamera_inv p s manager cid maxLevel Hcam)
    as (Hm & _ & Hsdk & ch & Hch & Hmax).
  destruct (Android_ensureCameraId_spec p s') as (_ & _ & Hkeep).
  destruct (Hkeep cid Hid) as [Hres Hpr]. split; [ | exact Hpr].
  unfold Android.strengthCamera. rewrite Hm, Hres, Hch.
  replace (Android.VERSION_CODES_TIRAMISU <=? Android.SDK_INT p) with true
    by (symmetry; apply Z.leb_le; exact Hsdk).
  cbn. rewrite Hmax. reflexivity.
Qed.

Lemma Android_strengthCamera_kept (p : Android.Platform) (s s' : Android.State)
      (manager : Android.CameraManager) (cid : string) (maxLevel : Z) :
  Android.strengthCamera p s = Some (manager, cid, maxLevel) ->
  Android.cameraId s' = Android.cameraId s \/ Android.cameraId s' = Some cid ->
  Android.strengthCamera p s' = Some (manager, cid, maxLevel).
Proof.
  intros Hcam [Hid | Hid].
  - unfold Android.strengthCamera in *.
    rewrite (proj1 (Android_resolved_cameraId p s' s Hid)). exact Hcam.
  - apply (Android_strengthCamera_stable p s s' manager cid maxLevel Hcam Hid).
Qed.

Lemma Android_getCameraCharacteristics_spec (manager : Android.CameraManager) (cid : string)
      (ch : Android.CameraCharacteristics) (s : Android.State) :
  Android.characteristicsOf manager cid = Some ch ->
  Android.getCameraCharacteristics manager cid s =
    (Done ch, s, [Android.GetCameraCharacteristics cid]).
Proof.
  unfold Android.characteristicsOf, Android.getCameraCharacteristics. eff.
  destruct (Android.cameras manager) as [cs | ]; [ | discriminate].
  destruct (find (fun c => String.eqb (Android.id c) cid) cs) as [c | ]; [ | discriminate].
  intros ->. reflexivity.
Qed.

(** What [setLevel] does once the strength of the torch can be read. *)
Lemma Android_setLevel_spec (p : Android.Platform) (manager : Android.CameraManager)
      (cid : string) (maxLevel : Z) (level : binary) (s : Android.State) :
  Android.strengthCamera p s = Some (manager, cid, maxLevel) ->
  Android.setLevel p level s =
    (if maxLevel <=? 1 then
       Thrown (Android.Error
                 {| Android.code := "BrightnessControlNotSupported";
                    Android.json_message := "Device does not support torch brightness control" |})
     else if Android.invalidLevel level maxLevel then
       Thrown (Android.Exc (Android.IllegalArgumentException
                 ("Level must be between 1 and " ++ Android.string_of_Z maxLevel)))
     else
       match Android.turnOnTorchWithStrengthLevelError manager with
       | Some (Android.CameraAccessException msg) =>
           Thrown (Android.TorchExc (Android.AccessFailed msg))
       | Some e => Thrown (Android.Exc e)
       | None => Done tt
       end,
     Android.set_cameraId (Some cid) s,
     Android.probes p s ++ Android.GetCameraCharacteristics cid
       :: (if (maxLevel <=? 1) || Android.invalidLevel level maxLevel then []
           else [Android.TurnOnTorchWithStrengthLevel cid (Double.toInt level)])).
Proof.
  intros Hcam.
  destruct (Android_strengthCamera_inv p s manager cid maxLevel Hcam)
    as (Hm & Hres & Hsdk & ch & Hch & Hmax).
  destruct (Android_ensureCameraId_spec p s) as (He & _ & _).
  unfold Android.setLevel. rewrite Hm.
  replace (Android.SDK_INT p <? Android.VERSION_CODES_TIRAMISU) with false
    by (symmetry; apply Z.ltb_ge; exact Hsdk).
  unfold Eff.bind at 1. unfold Eff.when, Eff.ret at 1.
  unfold Eff.bind at 1. unfold Eff.ret at 1.
  unfold Eff.bind at 1. rewrite He, Hres.
  unfold Eff.bind at 1. unfold Eff.get at 1.
  cbn [Android.cameraId Android.set_cameraId].
  unfold Eff.bind at 1. unfold Eff.ret at 1.
  unfold Eff.bind at 1.
  rewrite (Android_getCameraCharacteristics_spec manager cid ch _ Hch), Hmax.
  eff. cbn [app].
  destruct (maxLevel <=? 1); cbn [orb].
  - unfold Android.handleTorchException. eff. cbn. rewrite ?app_nil_r. reflexivity.
  - destruct (Android.invalidLevel level maxLevel).
    + cbn. rewrite ?app_nil_r. reflexivity.
    + destruct (Android.turnOnTorchWithStrengthLevelError manager) as [[msg | msg] | ];
        cbn; rewrite ?app_nil_r; reflexivity.
Qed.

Lemma Android_getMaxLevel_spec (p : Android.Platform) (manager : Android.CameraManager)
      (cid : string) (maxLevel : Z) (dynamic : option bool) (s : Android.State) :
  Android.strengthCamera p s = Some (manager, cid, maxLevel) ->
  Eff.result (Android.getMaxLevel p dynamic s) =
    Done (if maxLevel <=? 1 then None else Some (Double.of_Z maxLevel)).
Proof.
  intros Hcam.
  destruct (Android_strengthCamera_inv p s manager cid maxLevel Hcam)
    as (Hm & Hres & Hsdk & ch & Hch & Hmax).
  destruct (Android_ensureCameraId_spec p s) as (He & _ & _).
  unfold Android.getMaxLevel.
  replace (Android.SDK_INT p <? Android.VERSION_CODES_TIRAMISU) with false
    by (symmetry; apply Z.ltb_ge; exact Hsdk).
  unfold Eff.bind at 1. rewrite He, Hres.
  unfold Eff.bind at 1. unfold Eff.get at 1.
  cbn [Android.cameraId Android.set_cameraId]. rewrite Hm.
  unfold Eff.catch, Eff.bind.
  rewrite (Android_getCameraCharacteristics_spec manager cid ch _ Hch), Hmax.
  destruct (maxLevel <=? 1); reflexivity.
Qed.

Lemma Android_getMaxLevel_none (p : Android.Platform) (dynamic : option bool)
      (s : Android.State) :
  Android.SDK_INT p < Android.VERSION_CODES_TIRAMISU \/ Android.resolved p s = None ->
  Eff.result (Android.getMaxLevel p dynamic s) = Done None.
Proof.
  intros H. unfold Android.getMaxLevel.
  destruct (Android.SDK_INT p <? Android.VERSION_CODES_TIRAMISU) eqn:Hsdk; [reflexivity | ].
  destruct H as [H | Hres]; [apply Z.ltb_ge in Hsdk; lia | ].
  destruct (Android_ensureCameraId_spec p s) as (He & _ & _).
  unfold Eff.bind at 1. rewrite He, Hres.
  unfold Eff.bind at 1. unfold Eff.get at 1. reflexivity.
Qed.

Lemma Android_lit_commands (t : list Android.Event) (before : bool) :
  Android.lit before t = Android.lit before (filter Android.isTorchCommand t).
Proof.
  unfold Android.lit. revert before.
  induction t as [ | ev t IH]; intros before; [reflexivity | ].
  destruct ev; cbn; apply IH.
Qed.

(* ================================================================== *)
(** * A level, set and reported back *)
(* ================================================================== *)

(** One step of the traffic of [setLevel(L)]: the level is notified by an
    echo that finds another level on record, and by nothing else. *)
Lemma Android_traffic_step (p : Android.Platform) (manager : Android.CameraManager)
      (cid : string) (maxLevel L : Z) (i : Android.Input) (s : Android.State) :
  Android.strengthCamera p s = Some (manager, cid, maxLevel) ->
  Android.torchCallbackRegistered s = true ->
  Android.setLevelTraffic L i ->
  let r := Android.step p i s in
  let fires := Android.isEcho L i
               && Double.opt_neq (Android.previousLevel s) (Some (Double.of_Z L)) in
  Android.strengthCamera p (Eff.state r) = Some (manager, cid, maxLevel) /\
  Android.torchCallbackRegistered (Eff.state r) = true /\
  Android.previousLevel (Eff.state r) =
    (if fires then Some (Double.of_Z L) else Android.previousLevel s) /\
  filter Android.isLevelChanged (Eff.trace r) =
    (if fires then [Android.LevelChanged (Some (Double.of_Z L))] else []).
Proof.
  intros Hcam Hreg Hi r fires. subst r fires.
  destruct (Android_strengthCamera_inv p s manager cid maxLevel Hcam) as (_ & _ & Hsdk & _).
  destruct i as [[ | | | level | ] | [c enabled | c l]]; cbn in Hi; try contradiction.
  - subst level. cbn [Android.step Android.perform Android.isEcho andb].
    rewrite (Android_setLevel_spec p manager cid maxLevel _ s Hcam).
    cbn [Eff.state Eff.trace fst snd].
    split; [apply (Android_strengthCamera_kept p s _ manager cid maxLevel Hcam); right; reflexivity | ].
    split; [destruct s; exact Hreg | ].
    split; [destruct s; reflexivity | ].
    rewrite filter_app, Android_probes_level_free.
    destruct ((maxLevel <=? 1) || Android.invalidLevel (Double.of_Z L) maxLevel); reflexivity.
  - subst enabled. cbn [Android.step Android.isEcho andb].
    rewrite Android_deliver_on by exact Hreg. cbn [Eff.state Eff.trace fst snd].
    split; [apply (Android_strengthCamera_kept p s _ manager cid maxLevel Hcam); left;
            destruct s; reflexivity | ].
    split; [destruct s; exact Hreg | ].
    split; [destruct s; reflexivity | reflexivity].
  - subst l. cbn [Android.step Android.isEcho]. rewrite Z.eqb_refl. cbn [andb].
    rewrite Android_deliver_strength by assumption. cbn zeta.
    destruct (Double.opt_neq (Android.previousLevel s) (Some (Double.of_Z L)));
      cbn [Eff.state Eff.trace fst snd].
    + split; [apply (Android_strengthCamera_kept p s _ manager cid maxLevel Hcam); left;
              destruct s; reflexivity | ].
      split; [destruct s; exact Hreg | ].
      split; [destruct s; reflexivity | reflexivity].
    + auto.
Qed.

Lemma Android_traffic_quiet (p : Android.Platform) (manager : Android.CameraManager)
      (cid : string) (maxLevel L : Z) (inputs : list Android.Input) (s : Android.State) :
  Android.strengthCamera p s = Some (manager, cid, maxLevel) ->
  Android.torchCallbackRegistered s = true ->
  Double.opt_neq (Android.previousLevel s) (Some (Double.of_Z L)) = false ->
  Forall (Android.setLevelTraffic L) inputs ->
  filter Android.isLevelChanged (snd (Android.run (map (pair p) inputs) s)) = [].
Proof.
  intros Hcam Hreg Hsame Hall. revert s Hcam Hreg Hsame.
  induction Hall as [ | i inputs Hi _ IH]; intros s Hcam Hreg Hsame; [reflexivity | ].
  cbn [map Android.run snd].
  destruct (Android_traffic_step p manager cid maxLevel L i s Hcam Hreg Hi)
    as (Hcam' & Hreg' & Hprev' & Ht).
  rewrite Hsame, andb_false_r in Hprev', Ht.
  rewrite filter_app, Ht, IH; [reflexivity | assumption | assumption | ].
  rewrite Hprev'. exact Hsame.
Qed.

Lemma Android_traffic_once (p : Android.Platform) (manager : Android.CameraManager)
      (cid : string) (maxLevel L : Z) (inputs : list Android.Input) (s : Android.State) :
  0 < L < 2 ^ 52 ->
  Android.strengthCamera p s = Some (manager, cid, maxLevel) ->
  Android.torchCallbackRegistered s = true ->
  Double.opt_neq (Android.previousLevel s) (Some (Double.of_Z L)) = true ->
  Forall (Android.setLevelTraffic L) inputs ->
  filter Android.isLevelChanged (snd (Android.run (map (pair p) inputs) s)) =
    (if existsb (Android.isEcho L) inputs
     then [Android.LevelChanged (Some (Double.of_Z L))]
     else []).
Proof.
  intros HL Hcam Hreg Hother Hall. revert s Hcam Hreg Hother.
  induction Hall as [ | i inputs Hi Hall IH]; intros s Hcam Hreg Hother; [reflexivity | ].
  cbn [map Android.run snd existsb].
  destruct (Android_traffic_step p manager cid maxLevel L i s Hcam Hreg Hi)
    as (Hcam' & Hreg' & Hprev' & Ht).
  rewrite Hother, andb_true_r in Hprev', Ht.
  rewrite filter_app, Ht.
  destruct (Android.isEcho L i); cbn [orb].
  - rewrite (Android_traffic_quiet p manager cid maxLevel L inputs _ Hcam' Hreg');
      [reflexivity | | exact Hall].
    rewrite Hprev'. cbn. rewrite eqb_of_Z by exact HL. reflexivity.
  - rewrite IH; [reflexivity | assumption | assumption | ].
    rewrite Hprev'. exact Hother.
Qed.

(** Two calls of [setLevel(L)] in a row on Android, nothing coming from
    the camera service in between: each asks the camera service for the
    strength. *)
Lemma Android_setLevel_twice_commands (p : Android.Platform) (manager : Android.CameraManager)
      (cid : string) (maxLevel L : Z) (s : Android.State) :
  Android.strengthCamera p s = Some (manager, cid, maxLevel) ->
  1 < maxLevel <= Double.Int_MAX_VALUE ->
  1 <= L <= maxLevel ->
  filter Android.isTorchCommand
    (snd (Android.run
            (map (pair p) [Android.Invoke (Android.CallSetLevel (Double.of_Z L));
                           Android.Invoke (Android.CallSetLevel (Double.of_Z L))]) s)) =
    [Android.TurnOnTorchWithStrengthLevel cid L; Android.TurnOnTorchWithStrengthLevel cid L].
Proof.
  intros Hcam Hmax HL. unfold Double.Int_MAX_VALUE in Hmax.
  assert (Hv : Android.invalidLevel (Double.of_Z L) maxLevel = false).
  { rewrite invalidLevel_of_Z by lia. apply orb_false_iff. lia. }
  assert (H1 : (maxLevel <=? 1) = false) by (apply Z.leb_gt; lia).
  assert (Hi : Double.toInt (Double.of_Z L) = L)
    by (apply toInt_of_Z; unfold Double.Int_MAX_VALUE; lia).
  cbn [map Android.run Android.step Android.perform fst snd].
  rewrite (Android_setLevel_spec p manager cid maxLevel _ s Hcam), H1, Hv, Hi.
  cbn [Eff.state Eff.trace fst snd orb].
  assert (Hcam' : Android.strengthCamera p (Android.set_cameraId (Some cid) s)
                  = Some (manager, cid, maxLevel))
    by (apply (Android_strengthCamera_kept p s _ manager cid maxLevel Hcam); right; reflexivity).
  rewrite (Android_setLevel_spec p manager cid maxLevel _ _ Hcam'), H1, Hv, Hi.
  cbn [Eff.state Eff.trace fst snd orb].
  rewrite !filter_app, !(proj1 (Android_probes_filtered p _)). reflexivity.
Qed.

Lemma Android_traffic_heard (p : Android.Platform) (manager : Android.CameraManager)
      (cid : string) (maxLevel L : Z) (inputs : list Android.Input) (s : Android.State) :
  0 < L < 2 ^ 52 ->
  Android.strengthCamera p s = Some (manager, cid, maxLevel) ->
  Android.torchCallbackRegistered s = true ->
  Forall (Android.setLevelTraffic L) inputs ->
  filter Android.isLevelChanged (snd (Android.run (map (pair p) inputs) s)) =
    (if existsb (Android.isEcho L) inputs
        && Double.opt_neq (Android.previousLevel s) (Some (Double.of_Z L))
     then [Android.LevelChanged (Some (Double.of_Z L))]
     else []).
Proof.
  intros HL Hcam Hreg Hall.
  destruct (Double.opt_neq (Android.previousLevel s) (Some (Double.of_Z L))) eqn:Hch.
  - rewrite andb_true_r. apply (Android_traffic_once p manager cid maxLevel L); assumption.
  - rewrite andb_false_r. apply (Android_traffic_quiet p manager cid maxLevel L); assumption.
Qed.

(** The round trip through the Android controller: [setLevel(L)] hands
    the camera service the strength [L], and once the service has echoed
    it the level on record is [L]. *)
Lemma Android_setLevel_round_trip (p : Android.Platform) (manager : Android.CameraManager)
      (cid : string) (maxLevel L : Z) (s : Android.State) :
  Android.strengthCamera p s = Some (manager, cid, maxLevel) ->
  Android.turnOnTorchWithStrengthLevelError manager = None ->
  Android.torchCallbackRegistered s = true ->
  1 < maxLevel <= Double.Int_MAX_VALUE ->
  1 <= L <= maxLevel ->
  Eff.result (Android.setLevel p (Double.of_Z L) s) = Done tt /\
  let r := Android.run
             [(p, Android.Invoke (Android.CallSetLevel (Double.of_Z L)));
              (p, Android.Hardware (Android.TorchStrengthLevelChanged cid L))] s in
  filter Android.isTorchCommand (snd r) = [Android.TurnOnTorchWithStrengthLevel cid L] /\
  Double.opt_neq (Android.previousLevel (fst r)) (Some (Double.of_Z L)) = false.
Proof.
  intros Hcam Herr Hreg Hmax HL. unfold Double.Int_MAX_VALUE in Hmax.
  assert (Hv : Android.invalidLevel (Double.of_Z L) maxLevel = false).
  { rewrite invalidLevel_of_Z by lia. apply orb_false_iff. lia. }
  assert (H1 : (maxLevel <=? 1) = false) by (apply Z.leb_gt; lia).
  assert (Hi : Double.toInt (Double.of_Z L) = L)
    by (apply toInt_of_Z; unfold Double.Int_MAX_VALUE; lia).
  destruct (Android_strengthCamera_inv p s manager cid maxLevel Hcam) as (_ & _ & Hsdk & _).
  rewrite (Android_setLevel_spec p manager cid maxLevel _ s Hcam), H1, Hv, Herr, Hi.
  split; [reflexivity | ].
  cbn [Android.run Android.step Android.perform fst snd orb].
  rewrite (Android_setLevel_spec p manager cid maxLevel _ s Hcam), H1, Hv, Herr, Hi.
  cbn [Eff.state Eff.trace fst snd orb].
  rewrite Android_deliver_strength by (try exact Hsdk; destruct s; exact Hreg).
  cbn zeta. destruct (Android_probes_filtered p s) as [Hc _].
  destruct (Double.opt_neq (Android.previousLevel (Android.set_cameraId (Some cid) s))
              (Some (Double.of_Z L))) eqn:Hch; cbn [Eff.state Eff.trace fst snd].
  - rewrite !filter_app, Hc. split; [reflexivity | ].
    cbn. rewrite eqb_of_Z by lia. reflexivity.
  - rewrite !filter_app, Hc. split; [reflexivity | exact Hch].
Qed.

(** At a maximum of 1 there is no round trip on Android: [setLevel(1)],
    the one level from 1 to the maximum, is rejected with
    [BrightnessControlNotSupported], and the camera service is asked for
    nothing. *)
Lemma level_one_of_one_is_refused :
  let p := Sample.phone (Some 1) in
  let r := Android.setLevel p (Double.of_Z 1) (Android.init p) in
  Android.strengthCamera p (Android.init p) = Some (Sample.service (Some 1), "0"%string, 1) /\
  Eff.result r = Thrown (At.structured Android.BrightnessControlNotSupported) /\
  filter Android.isTorchCommand (Eff.trace r) = [].
Proof. vm_compute. repeat split. Qed.

(** C1, as the code has it.  The round trip goes through [setLevel] and
    the path that reports the level.  On iOS the maximum is the constant
    10: for every integer level [L] from 1 to 10, [setLevel(L)] on a
    device that can be used hands the device the intensity
    [Float(L / 10)], clamped by the thermal ceiling and unchanged under
    a ceiling of 1.0; converting back, [round(Double(intensity) * 10)],
    gives [L], which is the level on record afterwards and the only
    level the call notifies.  On Android, for every maximum above 1 that
    the camera reports and every integer level [L] from 1 to it,
    [setLevel(L)] asks the camera service for the strength [L], and once
    the service has echoed it the level on record is [L] and no other
    level was notified. *)
Theorem level_round_trip :
  (forall (hw : Ios.Hardware) (s : Ios.State) (L : Z),
      Ios.usable hw = true ->
      1 <= L <= 10 ->
      let r := Ios.setLevel hw (Double.of_Z L) s in
      let intensity := Ios.normalizedLevel (Double.of_Z L) in
      Eff.result r = Done tt /\
      filter Ios.isTorchCommand (Eff.trace r) =
        [Ios.SetTorchModeOn (Ios.clampedLevel (Ios.maxAvailableTorchLevel hw) intensity)] /\
      Ios.clampedLevel Float.one intensity = intensity /\
      Ios.currentLevel (Eff.state r) = Ios.levelOfNormalized intensity /\
      Double.round (Ios.currentLevel (Eff.state r)) = Double.of_Z L /\
      Double.opt_neq (option_map Double.round (Ios.previousLevel (Eff.state r)))
        (Some (Double.of_Z L)) = false /\
      (forall l, In (Ios.LevelChanged l) (Eff.trace r) -> l = Some (Double.of_Z L))) /\
  (forall (p : Android.Platform) (manager : Android.CameraManager) (cid : string)
          (maxLevel L : Z) (s : Android.State),
      Android.strengthCamera p s = Some (manager, cid, maxLevel) ->
      Android.turnOnTorchWithStrengthLevelError manager = None ->
      Android.torchCallbackRegistered s = true ->
      1 < maxLevel <= Double.Int_MAX_VALUE ->
      1 <= L <= maxLevel ->
      Eff.result (Android.setLevel p (Double.of_Z L) s) = Done tt /\
      let r := Android.run
                 [(p, Android.Invoke (Android.CallSetLevel (Double.of_Z L)));
                  (p, Android.Hardware (Android.TorchStrengthLevelChanged cid L))] s in
      filter Android.isTorchCommand (snd r) = [Android.TurnOnTorchWithStrengthLevel cid L] /\
      Double.opt_neq (Android.previousLevel (fst r)) (Some (Double.of_Z L)) = false /\
      (forall l, In (Android.LevelChanged l) (snd r) -> l = Some (Double.of_Z L))).
Proof.
  split.
  - intros hw s L H HL r intensity. subst r intensity.
    destruct (Ios_ten_levels L HL) as (Hv & Hc & Hr & Hfix).
    rewrite (Ios_setLevel_accepts hw _ s Hv). unfold Ios.rethrow, Eff.catch.
    rewrite (Ios_setTorchMode_level hw _ s H). cbn zeta. rewrite Hr.
    cbn [Eff.result Eff.state Eff.trace fst snd Ios.previousLevel Ios.currentLevel].
    split; [reflexivity | ]. split.
    { destruct (Ios.isTorchOn s), (Double.opt_neq _ _); reflexivity. }
    split; [exact Hc | ]. split; [reflexivity | ]. split; [exact Hr | ]. split.
    + destruct (Double.opt_neq (option_map Double.round (Ios.previousLevel s))
                  (Some (Double.of_Z L))) eqn:Hch; [ | exact Hch].
      cbn [option_map]. rewrite Hfix. cbn. rewrite eqb_of_Z by lia. reflexivity.
    + intros l Hin.
      destruct (Ios.isTorchOn s), (Double.opt_neq _ _); cbn in Hin;
        repeat (destruct Hin as [Hin | Hin]; [try discriminate | ]);
        try contradiction; injection Hin as <-; reflexivity.
  - intros p manager cid maxLevel L s Hcam Herr Hreg Hmax HL.
    destruct (Android_setLevel_round_trip p manager cid maxLevel L s Hcam Herr Hreg Hmax HL)
      as (Hres & Hcmd & Hprev).
    split; [exact Hres | ]. cbn zeta. split; [exact Hcmd | ]. split; [exact Hprev | ].
    intros l Hin.
    assert (Hlc : In (Android.LevelChanged l)
                    (filter Android.isLevelChanged
                       (snd (Android.run
                               (map (pair p)
                                  [Android.Invoke (Android.CallSetLevel (Double.of_Z L));
                                   Android.Hardware (Android.TorchStrengthLevelChanged cid L)])
                               s))))
      by (apply filter_In; split; [exact Hin | reflexivity]).
    assert (Hall : Forall (Android.setLevelTraffic L)
                     [Android.Invoke (Android.CallSetLevel (Double.of_Z L));
                      Android.Hardware (Android.TorchStrengthLevelChanged cid L)])
      by (repeat constructor).
    unfold Double.Int_MAX_VALUE in Hmax.
    destruct (Double.opt_neq (Android.previousLevel s) (Some (Double.of_Z L))) eqn:Hch.
    + rewrite (Android_traffic_once p manager cid maxLevel L _ s ltac:(lia) Hcam Hreg Hch Hall)
        in Hlc.
      cbn [existsb Android.isEcho orb] in Hlc. rewrite Z.eqb_refl in Hlc.
      destruct Hlc as [Hlc | []]. injection Hlc as <-. reflexivity.
    + rewrite (Android_traffic_quiet p manager cid maxLevel L _ s Hcam Hreg Hch Hall) in Hlc.
      destruct Hlc.
Qed.

Lemma level_round_trip_witness :
  let r := Android.run
             [(Sample.pixel, Android.Invoke (Android.CallSetLevel (Double.of_Z 3)));
              (Sample.pixel, Android.Hardware (Android.TorchStrengthLevelChanged "0" 3))]
             (Android.init Sample.pixel) in
  filter Android.isTorchCommand (snd r) = [Android.TurnOnTorchWithStrengthLevel "0" 3] /\
  Double.opt_neq (Android.previousLevel (fst r)) (Some (Double.of_Z 3)) = false.
Proof.
  refine (let H := proj2 (proj2 level_round_trip Sample.pixel (Sample.service (Some 5))
                            "0"%string 5 3 (Android.init Sample.pixel)
                            eq_refl eq_refl eq_refl _ _) in
          conj (proj1 H) (proj1 (proj2 H)));
    unfold Double.Int_MAX_VALUE; lia.
Defined.

(* ================================================================== *)
(** * Turning the torch off *)
(* ================================================================== *)

(** The Android controller returns early when it believes the torch is
    off already: from the initial state [off()] completes without a call
    to [setTorchMode]. *)
Lemma defensive_off_android_short_circuit :
  let r := Android.off Sample.pixel (Android.init Sample.pixel) in
  Eff.result r = Done tt /\ filter Android.isTorchCommand (Eff.trace r) = [].
Proof. vm_compute. auto. Qed.

(** C2, as the code has it.  On iOS every [off()] on a device whose torch
    can be locked sets the torch mode to off, whatever [isTorchOn] says,
    and calls [onStateChanged(false)] exactly when [isTorchOn] was true.
    On Android [off()] calls [setTorchMode(id, false)] only when
    [isTorchOn] is true, and raises no notification itself: those come
    from the hardware callback. *)
Theorem defensive_off :
  (forall (hw : Ios.Hardware) (s : Ios.State),
      Ios.torchReady hw = true ->
      let r := Ios.off hw s in
      Eff.result r = Done tt /\
      In Ios.TorchModeOff (Eff.trace r) /\
      (In (Ios.StateChanged false) (Eff.trace r) <-> Ios.isTorchOn s = true) /\
      ~ In (Ios.StateChanged true) (Eff.trace r)) /\
  (forall (p : Android.Platform) (manager : Android.CameraManager) (cid : string)
          (s : Android.State),
      Android.torchCamera p s = Some (manager, cid) ->
      let r := Android.off p s in
      filter Android.isTorchCommand (Eff.trace r) =
        (if Android.isTorchOn s then [Android.SetTorchMode cid false] else []) /\
      filter Android.isNotification (Eff.trace r) = []).
Proof.
  split.
  - intros hw s H r. subst r. unfold Ios.off, Ios.rethrow, Eff.catch.
    rewrite (Ios_setTorchMode_off hw None s H). cbn.
    destruct (Ios.isTorchOn s), (Ios.previousLevel s); cbn;
      repeat split; auto; try (intros; discriminate); try tauto;
      intuition (discriminate || congruence).
  - intros p manager cid s H r. subst r.
    destruct (Android_off_spec p manager cid s H) as [_ Ht]. rewrite Ht.
    destruct (Android_probes_filtered p s) as [Hc Hn].
    rewrite !filter_app, Hc, Hn. destruct (Android.isTorchOn s); auto.
Qed.

Lemma defensive_off_witness :
  Ios.torchReady (Sample.iphone Float.one) = true /\
  In Ios.TorchModeOff (Eff.trace (Ios.off (Sample.iphone Float.one) Ios.init)).
Proof.
  split; [reflexivity | ].
  exact (proj1 (proj2 (proj1 defensive_off (Sample.iphone Float.one) Ios.init eq_refl))).
Defined.

(** C3.  Off clears the level, in order: with the torch on and a level
    [L] notified last, a successful [off()] calls [onStateChanged(false)]
    and then [onLevelChanged(nil)], once each.  On iOS the call does it;
    on Android the hardware callback that answers the call. *)
Theorem off_clears_level :
  (forall (hw : Ios.Hardware) (s : Ios.State) (L : binary),
      Ios.torchReady hw = true ->
      Ios.isTorchOn s = true ->
      Ios.previousLevel s = Some L ->
      let r := Ios.off hw s in
      Eff.result r = Done tt /\
      filter Ios.isNotification (Eff.trace r) =
        [Ios.StateChanged false; Ios.LevelChanged None]) /\
  (forall (p : Android.Platform) (manager : Android.CameraManager) (cid : string)
          (s : Android.State) (L : binary),
      Android.torchCamera p s = Some (manager, cid) ->
      Android.setTorchModeError manager = None ->
      Android.torchCallbackRegistered s = true ->
      Android.isTorchOn s = true ->
      Android.previousLevel s = Some L ->
      Eff.result (Android.off p s) = Done tt /\
      let t := snd (Android.run [(p, Android.Invoke Android.CallOff);
                                 (p, Android.Hardware (Android.TorchModeChanged cid false))] s) in
      filter Android.isTorchCommand t = [Android.SetTorchMode cid false] /\
      filter Android.isNotification t =
        [Android.StateChanged false; Android.LevelChanged None]).
Proof.
  split.
  - intros hw s L H Hon Hprev r. subst r. unfold Ios.off, Ios.rethrow, Eff.catch.
    rewrite (Ios_setTorchMode_off hw None s H), Hon, Hprev. cbn. auto.
  - intros p manager cid s L Hcam Herr Hreg Hon Hprev. split.
    + apply (Android_handling_same (Android.setTorchMode p false) s).
      rewrite (Android_setTorchMode_spec p manager cid false s Hcam), Hon, Herr. reflexivity.
    + cbn [Android.run Android.step Android.perform fst snd].
      destruct (Android_off_spec p manager cid s Hcam) as [Hs Ht].
      rewrite Hs, Ht, Hon, Android_deliver_off by (destruct s; exact Hreg).
      destruct (Android_probes_filtered p s) as [Hc Hn].
      cbn [Eff.trace Eff.state fst snd]. rewrite app_nil_r.
      rewrite !filter_app, Hc, Hn.
      destruct s as [c on prev reg]; cbn in Hprev |- *. rewrite Hprev. cbn. auto.
Qed.

Lemma off_clears_level_witness :
  filter Ios.isNotification
    (Eff.trace (Ios.off (Sample.iphone Float.one) (Sample.glowing 7))) =
    [Ios.StateChanged false; Ios.LevelChanged None].
Proof.
  exact (proj2 (proj1 off_clears_level (Sample.iphone Float.one) (Sample.glowing 7)
                  (Double.of_Z 7) eq_refl eq_refl eq_refl)).
Defined.

(* ================================================================== *)
(** * Setting a level *)
(* ================================================================== *)

(** Where [setLevel(5)] twice in a row notifies nothing at all: on
    Android with nothing coming from the camera service, though both
    calls succeed and reach it; on iOS where 5 is the level notified
    last. *)
Lemma set_level_twice_may_notify_nothing :
  (let five := (Sample.pixel, Android.Invoke (Android.CallSetLevel (Double.of_Z 5))) in
   let r1 := Android.setLevel Sample.pixel (Double.of_Z 5) (Android.init Sample.pixel) in
   let r2 := Android.setLevel Sample.pixel (Double.of_Z 5) (Eff.state r1) in
   let t := snd (Android.run [five; five] (Android.init Sample.pixel)) in
   Eff.result r1 = Done tt /\ Eff.result r2 = Done tt /\
   filter Android.isTorchCommand t =
     [Android.TurnOnTorchWithStrengthLevel "0" 5;
      Android.TurnOnTorchWithStrengthLevel "0" 5] /\
   filter Android.isLevelChanged t = []) /\
  (let r1 := Ios.setLevel (Sample.iphone Float.one) (Double.of_Z 5) (Sample.glowing 5) in
   let r2 := Ios.setLevel (Sample.iphone Float.one) (Double.of_Z 5) (Eff.state r1) in
   Eff.result r1 = Done tt /\ Eff.result r2 = Done tt /\
   filter Ios.isLevelChanged (Eff.trace r1 ++ Eff.trace r2) = []).
Proof. vm_compute. repeat split. Qed.

(** C4, as the code has it.  On iOS [setLevel(5)] twice in a row: the
    second call never calls [onLevelChanged]; the first calls it, with
    5, exactly when 5 is not the level notified last.  On Android the
    calls notify nothing themselves: two calls in a row, with nothing
    from the camera service, ask it for the strength twice and call
    [onLevelChanged] not at all.  The level is notified when the camera
    service echoes the strength, and then once: whether each call is
    echoed in turn or both calls come before the echoes, the first echo
    calls [onLevelChanged] with 5, unless 5 is the level on record
    already, and nothing else calls it. *)
Theorem set_level_twice_notifies_once :
  (forall (hw1 hw2 : Ios.Hardware) (s : Ios.State),
      Ios.usable hw1 = true ->
      Ios.usable hw2 = true ->
      let r1 := Ios.setLevel hw1 (Double.of_Z 5) s in
      let r2 := Ios.setLevel hw2 (Double.of_Z 5) (Eff.state r1) in
      filter Ios.isLevelChanged (Eff.trace r1) =
        (if Double.opt_neq (option_map Double.round (Ios.previousLevel s))
              (Some (Double.of_Z 5))
         then [Ios.LevelChanged (Some (Double.of_Z 5))]
         else []) /\
      filter Ios.isLevelChanged (Eff.trace r2) = []) /\
  (forall (p : Android.Platform) (manager : Android.CameraManager) (cid : string)
          (maxLevel : Z) (s : Android.State),
      Android.strengthCamera p s = Some (manager, cid, maxLevel) ->
      Android.torchCallbackRegistered s = true ->
      5 <= maxLevel <= Double.Int_MAX_VALUE ->
      let five := Android.Invoke (Android.CallSetLevel (Double.of_Z 5)) in
      let echo := Android.Hardware (Android.TorchStrengthLevelChanged cid 5) in
      let trace inputs := snd (Android.run (map (pair p) inputs) s) in
      let once := if Double.opt_neq (Android.previousLevel s) (Some (Double.of_Z 5))
                  then [Android.LevelChanged (Some (Double.of_Z 5))]
                  else [] in
      filter Android.isTorchCommand (trace [five; five]) =
        [Android.TurnOnTorchWithStrengthLevel cid 5;
         Android.TurnOnTorchWithStrengthLevel cid 5] /\
      filter Android.isLevelChanged (trace [five; five]) = [] /\
      filter Android.isLevelChanged (trace [five; echo]) = once /\
      filter Android.isLevelChanged (trace [five; echo; five; echo]) = once /\
      filter Android.isLevelChanged (trace [five; five; echo; echo]) = once).
Proof.
  split.
  - intros hw1 hw2 s H1 H2 r1 r2. subst r1 r2.
    destruct (Ios_ten_levels 5 ltac:(lia)) as (Hv & _ & Hr & Hfix).
    rewrite !Ios_setLevel_accepts by exact Hv.
    unfold Ios.rethrow, Eff.catch.
    rewrite (Ios_setTorchMode_level hw1 _ s H1). cbn zeta. rewrite Hr.
    cbn [Eff.state Eff.trace fst snd].
    rewrite (Ios_setTorchMode_level hw2 _ _ H2). cbn zeta. rewrite Hr.
    cbn [Ios.previousLevel Ios.isTorchOn option_map Eff.trace snd].
    destruct (Double.opt_neq (option_map Double.round (Ios.previousLevel s))
                (Some (Double.of_Z 5))) eqn:Hne.
    + cbn [option_map]. rewrite Hfix. cbn [Double.opt_neq]. rewrite eqb_of_Z by lia.
      cbn [negb]. split; [destruct (Ios.isTorchOn s); reflexivity | reflexivity].
    + rewrite Hne. split; [destruct (Ios.isTorchOn s); reflexivity | reflexivity].
  - intros p manager cid maxLevel s Hcam Hreg Hmax five echo trace once.
    subst five echo trace once. cbv beta.
    split; [apply (Android_setLevel_twice_commands p manager cid maxLevel 5 s Hcam); lia | ].
    repeat split;
      (rewrite (Android_traffic_heard p manager cid maxLevel 5 _ s ltac:(lia) Hcam Hreg);
       [reflexivity | repeat constructor]).
Qed.

Lemma set_level_twice_notifies_once_witness :
  let five := Android.Invoke (Android.CallSetLevel (Double.of_Z 5)) in
  let echo := Android.Hardware (Android.TorchStrengthLevelChanged "0" 5) in
  filter Android.isLevelChanged
    (snd (Android.run (map (pair Sample.pixel) [five; echo; five; echo])
            (Android.init Sample.pixel))) = [Android.LevelChanged (Some (Double.of_Z 5))].
Proof.
  refine (proj1 (proj2 (proj2 (proj2
            (proj2 set_level_twice_notifies_once Sample.pixel (Sample.service (Some 5))
               "0"%string 5 (Android.init Sample.pixel) eq_refl eq_refl _))))).
  unfold Double.Int_MAX_VALUE. lia.
Defined.

(** On the sample phone: two calls, each echoed, drive the torch twice and
    notify the level once. *)
Lemma android_set_level_twice :
  let five := Android.Invoke (Android.CallSetLevel (Double.of_Z 5)) in
  let echo := Android.Hardware (Android.TorchStrengthLevelChanged "0" 5) in
  let t := snd (Android.run (map (pair Sample.pixel) [five; echo; five; echo])
                  (Android.init Sample.pixel)) in
  filter Android.isTorchCommand t =
    [Android.TurnOnTorchWithStrengthLevel "0" 5;
     Android.TurnOnTorchWithStrengthLevel "0" 5] /\
  filter Android.isLevelChanged t = [Android.LevelChanged (Some (Double.of_Z 5))].
Proof. vm_compute. split; reflexivity. Qed.

(** The same when both calls are made before the first echo arrives. *)
Lemma android_set_level_twice_then_echoes :
  let five := Android.Invoke (Android.CallSetLevel (Double.of_Z 5)) in
  let echo := Android.Hardware (Android.TorchStrengthLevelChanged "0" 5) in
  let t := snd (Android.run (map (pair Sample.pixel) [five; five; echo; echo])
                  (Android.init Sample.pixel)) in
  filter Android.isLevelChanged t = [Android.LevelChanged (Some (Double.of_Z 5))].
Proof. vm_compute. reflexivity. Qed.

(** On iOS a level out of range is answered with the error kind
    [AccessFailed]; no error of the code is called [InvalidArgument]. *)
Lemma out_of_range_is_not_InvalidArgument :
  exists e,
    Eff.result (Ios.setLevel (Sample.iphone Float.one) (Double.of_Z 0) Ios.init) = Thrown e /\
    Ios.err_code e <> "InvalidArgument"%string.
Proof.
  eexists. split; [vm_compute; reflexivity | ]. cbn. discriminate.
Qed.

(** C5, as the code has it.  [setLevel(0)] and [setLevel(maxLevel + 1)]
    are rejected before any call that drives the torch.  On iOS the error
    is [AccessFailed], and nothing at all is asked of the device.  On
    Android, where the maximum is read from the camera first, the error
    is an [IllegalArgumentException], raised after that read. *)
Theorem out_of_range_rejected :
  (forall (hw : Ios.Hardware) (s : Ios.State) (L : Z),
      L = 0 \/ L = 11 ->
      Ios.setLevel hw (Double.of_Z L) s =
        (Thrown {| Ios.err_code := "AccessFailed";
                   Ios.err_message := "Failed: Level must be between 1 and 10" |},
         s, [])) /\
  (forall (p : Android.Platform) (manager : Android.CameraManager) (cid : string)
          (maxLevel L : Z) (s : Android.State),
      Android.strengthCamera p s = Some (manager, cid, maxLevel) ->
      1 < maxLevel <= Double.Int_MAX_VALUE ->
      L = 0 \/ L = maxLevel + 1 ->
      let r := Android.setLevel p (Double.of_Z L) s in
      Eff.result r =
        Thrown (Android.Exc (Android.IllegalArgumentException
                  ("Level must be between 1 and " ++ Android.string_of_Z maxLevel))) /\
      Eff.trace r = Android.probes p s ++ [Android.GetCameraCharacteristics cid] /\
      filter Android.isTorchCommand (Eff.trace r) = []).
Proof.
  split.
  - intros hw s L [-> | ->]; apply Ios_setLevel_rejects; vm_compute; reflexivity.
  - intros p manager cid maxLevel L s Hcam Hmax HL r. subst r.
    unfold Double.Int_MAX_VALUE in Hmax.
    assert (Hv : Android.invalidLevel (Double.of_Z L) maxLevel = true).
    { destruct HL as [-> | ->].
      - unfold Android.invalidLevel.
        replace (IEEE.ltb (Double.of_Z 0) (Double.of_Z 1)) with true by (vm_compute; reflexivity).
        reflexivity.
      - rewrite invalidLevel_of_Z by lia. apply orb_true_iff. right. apply Z.ltb_lt. lia. }
    assert (H1 : (maxLevel <=? 1) = false) by (apply Z.leb_gt; lia).
    rewrite (Android_setLevel_spec p manager cid maxLevel _ s Hcam), H1, Hv.
    cbn [orb Eff.result Eff.trace fst snd]. repeat split.
    rewrite filter_app. destruct (Android_probes_filtered p s) as [Hc _]. rewrite Hc. reflexivity.
Qed.

Lemma out_of_range_rejected_witness :
  Ios.setLevel (Sample.iphone Float.one) (Double.of_Z 11) Ios.init =
    (Thrown {| Ios.err_code := "AccessFailed";
               Ios.err_message := "Failed: Level must be between 1 and 10" |},
     Ios.init, []).
Proof.
  apply (proj1 out_of_range_rejected (Sample.iphone Float.one) Ios.init 11). right. reflexivity.
Defined.

(** C6.  The brightness gate: when the maximum level the camera reports
    (1 when it reports none) is at most 1, [setLevel] fails with
    [BrightnessControlNotSupported], whatever the level, and calls nothing
    that drives the torch.  (Only Android reads a maximum from the
    hardware; on iOS it is the constant 10.) *)
Theorem brightness_gate (p : Android.Platform) (manager : Android.CameraManager)
        (cid : string) (maxLevel : Z) (level : binary) (s : Android.State) :
  Android.strengthCamera p s = Some (manager, cid, maxLevel) ->
  maxLevel <= 1 ->
  let r := Android.setLevel p level s in
  Eff.result r =
    Thrown (Android.Error
              {| Android.code := "BrightnessControlNotSupported";
                 Android.json_message := "Device does not support torch brightness control" |}) /\
  filter Android.isTorchCommand (Eff.trace r) = [].
Proof.
  intros Hcam Hmax r. subst r.
  assert (H1 : (maxLevel <=? 1) = true) by (apply Z.leb_le; exact Hmax).
  rewrite (Android_setLevel_spec p manager cid maxLevel level s Hcam), H1.
  cbn [orb Eff.result Eff.trace fst snd]. split; [reflexivity | ].
  rewrite filter_app. destruct (Android_probes_filtered p s) as [Hc _]. rewrite Hc. reflexivity.
Qed.

Lemma brightness_gate_witness :
  let p := Sample.phone (Some 1) in
  Android.strengthCamera p (Android.init p) = Some (Sample.service (Some 1), "0"%string, 1) /\
  Eff.result (Android.setLevel p (Double.of_Z 1) (Android.init p)) =
    Thrown (Android.Error
              {| Android.code := "BrightnessControlNotSupported";
                 Android.json_message := "Device does not support torch brightness control" |}).
Proof.
  split; [reflexivity | ].
  apply (brightness_gate (Sample.phone (Some 1)) (Sample.service (Some 1)) "0" 1
           (Double.of_Z 1) (Android.init (Sample.phone (Some 1)))); [reflexivity | lia].
Defined.

(* ================================================================== *)
(** * The maximum level *)
(* ================================================================== *)

(** At a thermal ceiling of one quarter the dynamic maximum is 2.5: the
    product is returned as it is, not rounded to a level. *)
Lemma getMaxLevel_is_not_rounded :
  exists x,
    Ios.getMaxLevel (Sample.iphone Sample.quarter) (Some true) = Some x /\
    x <> Scale.roundedCeiling Sample.quarter 10.
Proof.
  eexists. split; [vm_compute; reflexivity | ]. vm_compute. discriminate.
Qed.

(** C7, as the code has it.  On iOS [getMaxLevel(true)] is the product of
    [min(maxAvailableTorchLevel, 1.0)] and 10, computed in single
    precision and not rounded (5 at a ceiling of one half);
    [getMaxLevel(false)] and [getMaxLevel()] are 10; without a device or
    without a torch the answer is [nil].  On Android [dynamic] is ignored:
    the answer is the maximum the camera reports when that exceeds 1, and
    [null] when it does not, below API 33, or without a camera. *)
Theorem getMaxLevel_contract :
  (forall (hw : Ios.Hardware) (dev : Ios.Device),
      Ios.device hw = Some dev -> Ios.hasTorch dev = true ->
      Ios.getMaxLevel hw (Some true) =
        Some (Double.of_float
                (Float.mul (Float.min (Ios.maxAvailableTorchLevel hw) Float.one)
                           (Float.of_double Ios.maxTorchLevel))) /\
      Ios.getMaxLevel hw (Some false) = Some (Double.of_Z 10) /\
      Ios.getMaxLevel hw None = Some (Double.of_Z 10)) /\
  Ios.getMaxLevel (Sample.iphone Sample.half) (Some true) = Some (Double.of_Z 5) /\
  (forall (hw : Ios.Hardware) (dynamic : option bool),
      Ios.device hw = None \/ Ios.device hw = Some {| Ios.hasTorch := false |} ->
      Ios.getMaxLevel hw dynamic = None) /\
  (forall (p : Android.Platform) (manager : Android.CameraManager) (cid : string)
          (maxLevel : Z) (dynamic : option bool) (s : Android.State),
      Android.strengthCamera p s = Some (manager, cid, maxLevel) ->
      Eff.result (Android.getMaxLevel p dynamic s) =
        Done (if maxLevel <=? 1 then None else Some (Double.of_Z maxLevel))) /\
  (forall (p : Android.Platform) (dynamic : option bool) (s : Android.State),
      Android.SDK_INT p < Android.VERSION_CODES_TIRAMISU \/ Android.resolved p s = None ->
      Eff.result (Android.getMaxLevel p dynamic s) = Done None).
Proof.
  split; [ | split; [ | split; [ | split]]].
  - intros hw dev Hd Ht. unfold Ios.getMaxLevel. rewrite Hd, Ht. cbn. auto.
  - vm_compute. reflexivity.
  - intros hw dynamic [H | H]; unfold Ios.getMaxLevel; rewrite H; reflexivity.
  - exact Android_getMaxLevel_spec.
  - exact Android_getMaxLevel_none.
Qed.

Lemma getMaxLevel_contract_witness :
  Eff.result (Android.getMaxLevel Sample.pixel None (Android.init Sample.pixel)) =
    Done (Some (Double.of_Z 5)).
Proof.
  exact (proj1 (proj2 (proj2 (proj2 getMaxLevel_contract)))
           Sample.pixel (Sample.service (Some 5)) "0"%string 5 None
           (Android.init Sample.pixel) eq_refl).
Defined.

(* ================================================================== *)
(** * The error classifier *)
(* ================================================================== *)

(** The payload of [handleTorchException] is classified by its code. *)
Example structured_error_keeps_its_code :
  let payload :=
    ("{" ++ Js.quoted "code" ++ ":" ++ Js.quoted "NoFlashAvailable" ++ ","
         ++ Js.quoted "message" ++ ":" ++ Js.quoted "No camera with flash available" ++ "}")%string in
  Js.parseAndNormalizeError Js.JSON_parse (Js.ErrorInstance payload) =
    Some {| Js.message := Js.Str "No camera with flash available";
            Js.code := Js.Str "NoFlashAvailable" |}.
Proof. vm_compute. reflexivity. Qed.

(** A message that is JSON but no object comes out with neither code nor
    message. *)
Example json_number_has_no_code :
  Js.parseAndNormalizeError Js.JSON_parse (Js.ErrorInstance "123") =
    Some {| Js.message := Js.Undefined; Js.code := Js.Undefined |}.
Proof. vm_compute. reflexivity. Qed.

(** [String(value)] on what can be thrown: an array is joined, a plain
    object renders as [[object Object]], and an object with a member
    [toString] cannot be converted, alone or within an array. *)
Example String_of_thrown_values :
  Js.toString (Js.Array [Js.Number "1"; Js.Null; Js.Array [Js.Str "a"; Js.Boolean true]])
    = Some "1,,a,true"%string /\
  Js.toString (Js.Object [("code"%string, Js.Str "AccessFailed")])
    = Some "[object Object]"%string /\
  Js.toString (Js.Object [("toString"%string, Js.Str "x")]) = None /\
  Js.toString (Js.Array [Js.Str "a"; Js.Object [("toString"%string, Js.Null)]]) = None.
Proof. vm_compute. repeat split. Qed.

(** A thrown string is no [Error]: it is classified [AccessFailed], though
    it is not JSON.  A thrown object with a member [toString] is not
    classified at all: [parseAndNormalizeError] throws. *)
Lemma thrown_string_is_AccessFailed :
  Js.JSON_parse "boom" = None /\
  Js.parseAndNormalizeError Js.JSON_parse (Js.NotError (Js.Str "boom")) =
    Some {| Js.message := Js.Str "boom"; Js.code := Js.Str "AccessFailed" |} /\
  Js.Str "AccessFailed" <> Js.Str Js.Unknown /\
  Js.parseAndNormalizeError Js.JSON_parse
    (Js.NotError (Js.Object [("toString"%string, Js.Str "x")])) = None.
Proof.
  repeat split; try (vm_compute; reflexivity). vm_compute. discriminate.
Qed.

(** C8, as the code has it.  An [Error] whose text is not JSON (the text
    being what the pattern matches in its message, or else the message),
    or is the JSON [null], is classified [Unknown], with its message.  A
    thrown value that is not an [Error] is never classified [Unknown]:
    where [String(value ?? 'Unknown error')] gives a text, the value is
    classified [AccessFailed] with that text for its message; where the
    conversion throws, [parseAndNormalizeError] throws with it and
    classifies nothing. *)
Theorem unparsable_errors_classified (JSON_parse : string -> option Js.value)
        (error : Js.thrown) :
  match error with
  | Js.ErrorInstance errorMessage =>
      JSON_parse (Js.candidate errorMessage) = None \/
      JSON_parse (Js.candidate errorMessage) = Some Js.Null ->
      Js.parseAndNormalizeError JSON_parse error =
        Some {| Js.message := Js.Str errorMessage; Js.code := Js.Str Js.Unknown |}
  | Js.NotError v =>
      match Js.toString (Js.orUnknownError v) with
      | Some text =>
          Js.parseAndNormalizeError JSON_parse error =
            Some {| Js.message := Js.Str text; Js.code := Js.Str Js.AccessFailed |}
      | None => Js.parseAndNormalizeError JSON_parse error = None
      end
  end.
Proof.
  destruct error as [errorMessage | v].
  - unfold Js.candidate, Js.parseAndNormalizeError, Js.parseTorchError.
    destruct (Js.jsonMatch (if String.eqb errorMessage "" then "Unknown error"%string
                            else errorMessage));
      intros [-> | ->]; reflexivity.
  - unfold Js.parseAndNormalizeError.
    destruct (Js.toString (Js.orUnknownError v)); reflexivity.
Qed.

Lemma unparsable_errors_classified_witness :
  Js.parseAndNormalizeError Js.JSON_parse (Js.ErrorInstance "Level must be between 1 and 5") =
    Some {| Js.message := Js.Str "Level must be between 1 and 5";
            Js.code := Js.Str Js.Unknown |}.
Proof.
  apply (unparsable_errors_classified Js.JSON_parse
           (Js.ErrorInstance "Level must be between 1 and 5")).
  left. vm_compute. reflexivity.
Defined.

(* ================================================================== *)
(** * State and level *)
(* ================================================================== *)

Lemma Ios_setTorchMode_coupled (hw : Ios.Hardware) (enable : bool) (level : option binary)
      (s : Ios.State) :
  Ios.coupled s -> Ios.coupled (Eff.state (Ios.setTorchMode hw enable level s)).
Proof.
  intros Hs.
  destruct (Ios_setTorchMode_cases hw enable level s)
    as [(e & t & ->) | (s' & t & -> & Hon & Hoff & Hlit)]; [exact Hs | ].
  cbn. unfold Ios.coupled. rewrite Hon. destruct enable.
  - split; [discriminate | ]. intros H. exfalso. exact (Hlit eq_refl H).
  - split; auto.
Qed.

Lemma Ios_perform_coupled (hw : Ios.Hardware) (c : Ios.Call) (s : Ios.State) :
  Ios.coupled s -> Ios.coupled (Eff.state (Ios.perform hw c s)).
Proof.
  intros Hs. destruct c as [ | | | level | ]; cbn [Ios.perform].
  - unfold Ios.on. rewrite (proj1 (Ios_rethrow_same _ s)). apply Ios_setTorchMode_coupled, Hs.
  - unfold Ios.off. rewrite (proj1 (Ios_rethrow_same _ s)). apply Ios_setTorchMode_coupled, Hs.
  - unfold Ios.toggle. rewrite (proj1 (Ios_rethrow_same _ s)).
    unfold Eff.bind at 1. unfold Eff.get at 1.
    pose proof (Ios_setTorchMode_coupled hw (negb (Ios.isTorchOn s)) None s Hs) as H.
    destruct (Ios.setTorchMode hw (negb (Ios.isTorchOn s)) None s) as [[r s1] t1].
    cbn in H |- *. exact H.
  - destruct (Ios.validLevel level) eqn:Hv.
    + rewrite (Ios_setLevel_accepts hw level s Hv), (proj1 (Ios_rethrow_same _ s)).
      apply Ios_setTorchMode_coupled, Hs.
    + rewrite (Ios_setLevel_rejects hw level s Hv). exact Hs.
  - unfold Ios.dispose, Eff.catch. unfold Eff.bind at 1. unfold Eff.get at 1.
    destruct (Ios.isTorchOn s) eqn:Hon; cbn [Eff.when].
    + unfold Eff.bind at 1.
      destruct (Ios_setTorchMode_cases hw false None s)
        as [(e & t & ->) | (s' & t & -> & Hon' & Hoff & _)].
      * cbn. exact Hs.
      * eff. cbn. destruct s'; cbn in *. unfold Ios.coupled. cbn. tauto.
    + eff. cbn. unfold Ios.coupled. cbn. rewrite Hon. tauto.
Qed.

Lemma Ios_run_coupled (cs : list (Ios.Hardware * Ios.Call)) (s : Ios.State) :
  Ios.coupled s -> Ios.coupled (fst (Ios.run cs s)).
Proof.
  revert s. induction cs as [ | [hw c] cs IH]; intros s Hs; cbn [Ios.run fst].
  - exact Hs.
  - apply IH, Ios_perform_coupled, Hs.
Qed.

(** On Android a torch that is on need not have a level on record: after
    [on()] and the callback that answers it, [isTorchOn] is true and
    [previousLevel] is [null]. *)
Lemma android_on_without_level :
  exists s,
    Android.reachable s /\ Android.isTorchOn s = true /\ Android.previousLevel s = None /\
    ~ Android.coupled s.
Proof.
  exists (fst (Android.run
                 [(Sample.pixel, Android.Invoke Android.CallOn);
                  (Sample.pixel, Android.Hardware (Android.TorchModeChanged "0" true))]
                 (Android.init Sample.pixel))).
  split; [eexists _, _; reflexivity | ].
  split; [vm_compute; reflexivity | ].
  split; [vm_compute; reflexivity | ].
  unfold Android.coupled. intros [_ H]. specialize (H eq_refl). vm_compute in H. discriminate.
Qed.

(** C9, as the code has it.  On iOS, in every state a sequence of calls
    reaches, [isTorchOn] is false exactly when [previousLevel] is [nil].
    On Android the two are brought together at power-off only: once the
    callback [onTorchModeChanged(id, false)] has run, [isTorchOn] is false
    and [previousLevel] is [null]. *)
Theorem state_level_coupling :
  (forall s : Ios.State, Ios.reachable s -> Ios.coupled s) /\
  (forall (p : Android.Platform) (cid : string) (s : Android.State),
      Android.torchCallbackRegistered s = true ->
      let s' := Eff.state (Android.deliver p (Android.TorchModeChanged cid false) s) in
      Android.isTorchOn s' = false /\ Android.previousLevel s' = None).
Proof.
  split.
  - intros s [cs <-]. apply Ios_run_coupled. unfold Ios.coupled. cbn. tauto.
  - intros p cid s Hreg s'. subst s'. rewrite Android_deliver_off by exact Hreg.
    cbn. auto.
Qed.

Lemma state_level_coupling_witness :
  Ios.coupled (fst (Ios.run [(Sample.iphone Float.one, Ios.CallSetLevel (Double.of_Z 7));
                             (Sample.iphone Float.one, Ios.CallOff)] Ios.init)).
Proof.
  apply (proj1 state_level_coupling). eexists. reflexivity.
Defined.

(* ================================================================== *)
(** * Two toggles *)
(* ================================================================== *)

(** On Android two toggles that run one after the other, before the
    hardware has answered the first, both ask for the torch to be on. *)
Lemma android_toggles_both_turn_on :
  let r := Android.run [(Sample.pixel, Android.Invoke Android.CallToggle);
                        (Sample.pixel, Android.Invoke Android.CallToggle)]
             (Android.init Sample.pixel) in
  filter Android.isTorchCommand (snd r) =
    [Android.SetTorchMode "0" true; Android.SetTorchMode "0" true] /\
  Android.lit false (snd r) = true.
Proof. vm_compute. auto. Qed.

(** C10, as the code has it, for calls that run one after the other.  On
    iOS two [toggle()] calls from off turn the torch on and then off.  On
    Android they do so when the callback [onTorchModeChanged(id, true)]
    that answers the first is delivered before the second starts. *)
Theorem two_toggles :
  (forall (hw1 hw2 : Ios.Hardware) (s : Ios.State),
      Ios.usable hw1 = true ->
      Ios.torchReady hw2 = true ->
      Ios.isTorchOn s = false ->
      let r := Ios.run [(hw1, Ios.CallToggle); (hw2, Ios.CallToggle)] s in
      Ios.isTorchOn (fst r) = false /\
      filter Ios.isTorchCommand (snd r) =
        [Ios.SetTorchModeOn
           (Ios.clampedLevel (Ios.maxAvailableTorchLevel hw1)
              (Ios.normalizedLevel (Ios.currentLevel s)));
         Ios.TorchModeOff] /\
      Ios.lit false (snd r) = false) /\
  (forall (p : Android.Platform) (manager : Android.CameraManager) (cid : string)
          (s : Android.State),
      Android.torchCamera p s = Some (manager, cid) ->
      Android.torchCallbackRegistered s = true ->
      Android.isTorchOn s = false ->
      let r := Android.run [(p, Android.Invoke Android.CallToggle);
                            (p, Android.Hardware (Android.TorchModeChanged cid true));
                            (p, Android.Invoke Android.CallToggle);
                            (p, Android.Hardware (Android.TorchModeChanged cid false))] s in
      Android.isTorchOn (fst r) = false /\
      filter Android.isTorchCommand (snd r) =
        [Android.SetTorchMode cid true; Android.SetTorchMode cid false] /\
      Android.lit false (snd r) = false).
Proof.
  split.
  - intros hw1 hw2 s H1 H2 Hoff r. subst r.
    cbn [Ios.run Ios.perform fst snd]. unfold Ios.toggle.
    rewrite !(proj1 (Ios_rethrow_same _ _)), !(proj2 (Ios_rethrow_same _ _)).
    rewrite !Eff_bind_get, Hoff. cbn [negb].
    rewrite (Ios_setTorchMode_on hw1 None s H1). cbn zeta.
    cbn [Eff.state Eff.trace fst snd Ios.isTorchOn negb].
    rewrite ?Eff_bind_get. cbn [Ios.isTorchOn negb].
    rewrite (Ios_setTorchMode_off hw2 None _ H2).
    cbn [Eff.state Eff.trace fst snd Ios.isTorchOn]. rewrite Hoff.
    match goal with |- context [Double.opt_neq ?a ?b] => destruct (Double.opt_neq a b) end;
      destruct (Ios.previousLevel s); cbn; auto.
  - intros p manager cid s Hcam Hreg Hoff r. subst r.
    cbn [Android.run Android.step Android.perform fst snd].
    destruct (Android_toggle_spec p manager cid s Hcam) as [Hs1 Ht1].
    rewrite Hs1, Ht1, Hoff. cbn [negb].
    rewrite Android_deliver_on by (destruct s; exact Hreg).
    cbn [Eff.state Eff.trace fst snd].
    set (s2 := Android.set_isTorchOn true (Android.set_cameraId (Some cid) s)).
    destruct (Android_torchCamera_stable p s s2 manager cid Hcam eq_refl) as [Hcam2 Hpr2].
    destruct (Android_toggle_spec p manager cid s2 Hcam2) as [Hs2 Ht2].
    rewrite Hs2, Ht2, Hpr2. cbn [Android.isTorchOn s2 Android.set_isTorchOn negb app].
    rewrite Android_deliver_off by (destruct s; exact Hreg).
    cbn [Eff.state Eff.trace fst snd].
    split; [reflexivity | ].
    destruct (Android_probes_filtered p s) as [Hc _].
    split.
    + rewrite !filter_app, Hc. cbn. destruct (Android.previousLevel s); reflexivity.
    + rewrite Android_lit_commands, !filter_app, Hc. cbn.
      destruct (Android.previousLevel s); reflexivity.
Qed.

Lemma two_toggles_witness :
  let r := Ios.run [(Sample.iphone Float.one, Ios.CallToggle);
                    (Sample.iphone Float.one, Ios.CallToggle)] Ios.init in
  Ios.isTorchOn (fst r) = false /\ Ios.lit false (snd r) = false.
Proof.
  destruct (proj1 two_toggles (Sample.iphone Float.one) (Sample.iphone Float.one) Ios.init
              eq_refl eq_refl eq_refl) as (H1 & _ & H3).
  split; [exact H1 | exact H3].
Defined.

(* ================================================================== *)
(** * iOS: rejected calls *)
(* ================================================================== *)

(** A [setTorchMode] that fails: the state is as it was, nothing was
    notified, and the error says whether a torch was there at all. *)
Lemma Ios_setTorchMode_rejects (hw : Ios.Hardware) (enable : bool) (level : option binary)
      (s : Ios.State) :
  (if enable then Ios.usable hw else Ios.torchReady hw) = false ->
  exists e t,
    Ios.setTorchMode hw enable level s = (Thrown e, s, t) /\
    filter Ios.isNotification t = [] /\
    Ios.code e = (if At.torchDevice hw then "AccessFailed" else "NoFlashAvailable")%string /\
    (At.torchDevice hw = false -> t = []).
Proof.
  unfold Ios.usable, Ios.torchReady, Ios.setTorchMode, At.torchDevice.
  destruct hw as [[[[ | ]] | ] maxA [le | ] [te | ]]; destruct enable; cbn;
    intros H; try discriminate; eexists _, _;
    (split; [reflexivity | ]); cbn; repeat split; intros; try reflexivity; discriminate.
Qed.

(** The outcome of [setTorchMode], whatever the hardware does. *)
Lemma Ios_setTorchMode_outcome (hw : Ios.Hardware) (enable : bool) (level : option binary)
      (s : Ios.State) :
  let r := Ios.setTorchMode hw enable level s in
  (Eff.result r = Done tt /\
   (if enable then Ios.usable hw else Ios.torchReady hw) = true) \/
  (exists e, Eff.result r = Thrown e /\ Eff.state r = s /\
             filter Ios.isNotification (Eff.trace r) = [] /\
             Ios.code e = (if At.torchDevice hw then "AccessFailed"
                           else "NoFlashAvailable")%string).
Proof.
  cbn zeta. destruct (if enable then Ios.usable hw else Ios.torchReady hw) eqn:H.
  - left. split; [ | reflexivity]. destruct enable.
    + rewrite (Ios_setTorchMode_on hw level s H). reflexivity.
    + rewrite (Ios_setTorchMode_off hw level s H). reflexivity.
  - right. destruct (Ios_setTorchMode_rejects hw enable level s H) as (e & t & -> & Hn & Hc & _).
    exists e. auto.
Qed.

Lemma Ios_rethrow_result {X} (m : Ios.T Ios.TorchError X) (s : Ios.State) (e : Ios.NSError) :
  Eff.result (Ios.rethrow m s) = Thrown e ->
  exists te, Eff.result (m s) = Thrown te /\ e = Ios.toJSON te.
Proof.
  unfold Ios.rethrow, Eff.catch. destruct (m s) as [[[x | te] s1] t1]; cbn.
  - discriminate.
  - intros H. injection H as <-. exists te. auto.
Qed.

(** [dispose] never rejects. *)
Lemma Ios_dispose_done (hw : Ios.Hardware) (s : Ios.State) :
  Eff.result (Ios.dispose hw s) = Done tt.
Proof.
  unfold Ios.dispose, Eff.catch. rewrite Eff_bind_get.
  destruct (Ios.isTorchOn s); cbn [Eff.when].
  - unfold Eff.bind.
    destruct (Ios.setTorchMode hw false None s) as [[[[] | e] s1] t1]; reflexivity.
  - reflexivity.
Qed.

(** X1.  On iOS a call that is rejected has changed nothing and notified
    nothing: the controller's state is what it was before the call, and
    neither [onStateChanged] nor [onLevelChanged] has been called. *)
Theorem ios_rejection_changes_nothing (hw : Ios.Hardware) (c : Ios.Call) (s : Ios.State)
        (e : Ios.NSError) :
  Eff.result (Ios.perform hw c s) = Thrown e ->
  Eff.state (Ios.perform hw c s) = s /\
  filter Ios.isNotification (Eff.trace (Ios.perform hw c s)) = [].
Proof.
  assert (Hcore : forall enable level,
             Eff.result (Ios.rethrow (Ios.setTorchMode hw enable level) s) = Thrown e ->
             Eff.state (Ios.rethrow (Ios.setTorchMode hw enable level) s) = s /\
             filter Ios.isNotification
               (Eff.trace (Ios.rethrow (Ios.setTorchMode hw enable level) s)) = []).
  { intros enable level H. destruct (Ios_rethrow_result _ s e H) as (te & Hte & _).
    rewrite (proj1 (Ios_rethrow_same _ s)), (proj2 (Ios_rethrow_same _ s)).
    destruct (Ios_setTorchMode_outcome hw enable level s) as [[Hd _] | (e' & _ & Hs & Hn & _)].
    - rewrite Hd in Hte. discriminate.
    - auto. }
  destruct c as [ | | | level | ]; cbn [Ios.perform].
  - apply Hcore.
  - apply Hcore.
  - unfold Ios.toggle.
    replace (Ios.rethrow (Eff.bind Eff.get (fun s0 => Ios.setTorchMode hw (negb (Ios.isTorchOn s0)) None)) s)
      with (Ios.rethrow (Ios.setTorchMode hw (negb (Ios.isTorchOn s)) None) s)
      by (unfold Ios.rethrow, Eff.catch; rewrite Eff_bind_get; reflexivity).
    apply Hcore.
  - destruct (Ios.validLevel level) eqn:Hv.
    + rewrite (Ios_setLevel_accepts hw level s Hv). apply Hcore.
    + rewrite (Ios_setLevel_rejects hw level s Hv). auto.
  - rewrite Ios_dispose_done. discriminate.
Qed.

Lemma ios_rejection_changes_nothing_witness :
  Eff.state (Ios.perform (Sample.iphone Float.one) (Ios.CallSetLevel (Double.of_Z 11))
               (Sample.glowing 7)) = Sample.glowing 7.
Proof.
  apply (ios_rejection_changes_nothing (Sample.iphone Float.one)
           (Ios.CallSetLevel (Double.of_Z 11)) (Sample.glowing 7)
           {| Ios.err_code := "AccessFailed";
              Ios.err_message := "Failed: Level must be between 1 and 10" |}).
  reflexivity.
Defined.



(* ================================================================== *)
(** * iOS: what a listener hears *)
(* ================================================================== *)

Lemma last_cons_default {X} (x d : X) (l : list X) : last (x :: l) d = last l x.
Proof.
  revert x d. induction l as [ | y l IH]; intros x d; [reflexivity | ].
  change (last (x :: y :: l) d) with (last (y :: l) d). rewrite !IH. reflexivity.
Qed.

Lemma Heard_alternates_app (before : bool) (l1 l2 : list bool) :
  Heard.alternates before (l1 ++ l2) =
    Heard.alternates before l1 && Heard.alternates (last l1 before) l2.
Proof.
  revert before. induction l1 as [ | b l1 IH]; intros before; [reflexivity | ].
  cbn [app Heard.alternates]. rewrite IH, andb_assoc, last_cons_default. reflexivity.
Qed.

Lemma last_app_default {X} (d : X) (l1 l2 : list X) :
  last (l1 ++ l2) d = last l2 (last l1 d).
Proof.
  revert d. induction l1 as [ | x l1 IH]; intros d; [reflexivity | ].
  cbn [app]. rewrite !last_cons_default. apply IH.
Qed.

Lemma Heard_changes_app differs (before : option binary) (l1 l2 : list (option binary)) :
  Heard.changes differs before (l1 ++ l2) =
    Heard.changes differs before l1 && Heard.changes differs (last l1 before) l2.
Proof.
  revert before. induction l1 as [ | b l1 IH]; intros before; [reflexivity | ].
  cbn [app Heard.changes]. rewrite IH, andb_assoc, last_cons_default. reflexivity.
Qed.

Lemma Ios_faithful_refl (s : Ios.State) : Heard.Ios_faithful s [] s.
Proof. repeat split. Qed.

Lemma Ios_faithful_trans (s1 s2 s3 : Ios.State) (t1 t2 : list Ios.Event) :
  Heard.Ios_faithful s1 t1 s2 -> Heard.Ios_faithful s2 t2 s3 ->
  Heard.Ios_faithful s1 (t1 ++ t2) s3.
Proof.
  intros (A1 & B1 & C1 & D1) (A2 & B2 & C2 & D2). unfold Heard.Ios_faithful.
  unfold Heard.Ios_states, Heard.Ios_levels in *. rewrite !flat_map_app.
  rewrite Heard_alternates_app, Heard_changes_app, !last_app_default.
  rewrite B1, D1, A1, A2, C1, C2, B2, D2. repeat split.
Qed.

Lemma Ios_setTorchMode_faithful (hw : Ios.Hardware) (enable : bool) (level : option binary)
      (s : Ios.State) :
  let r := Ios.setTorchMode hw enable level s in
  Heard.Ios_faithful s (Eff.trace r) (Eff.state r).
Proof.
  cbn zeta. destruct (if enable then Ios.usable hw else Ios.torchReady hw) eqn:H.
  - destruct enable.
    + rewrite (Ios_setTorchMode_on hw level s H). cbn zeta.
      cbn [Eff.trace Eff.state fst snd]. unfold Heard.Ios_faithful.
      match goal with |- context [Double.opt_neq ?a ?b] =>
        destruct (Double.opt_neq a b) eqn:Hc end;
        destruct (Ios.isTorchOn s); cbn; unfold Heard.Ios_differs; rewrite ?Hc; repeat split.
    + rewrite (Ios_setTorchMode_off hw level s H).
      cbn [Eff.trace Eff.state fst snd]. unfold Heard.Ios_faithful.
      destruct (Ios.isTorchOn s), (Ios.previousLevel s); cbn; repeat split.
  - destruct (Ios_setTorchMode_rejects hw enable level s H) as (e & t & -> & Hn & _).
    cbn [Eff.trace Eff.state fst snd]. unfold Heard.Ios_faithful.
    assert (Hs : Heard.Ios_states t = [] /\ Heard.Ios_levels t = []).
    { clear -Hn. induction t as [ | ev t IH]; [auto | ].
      destruct ev; cbn in Hn |- *; try discriminate; auto. }
    destruct Hs as [-> ->]. repeat split.
Qed.

Lemma Ios_perform_faithful (hw : Ios.Hardware) (c : Ios.Call) (s : Ios.State) :
  Ios.coupled s ->
  let r := Ios.perform hw c s in
  Heard.Ios_faithful s (Eff.trace r) (Eff.state r).
Proof.
  intros Hcoupled. cbn zeta.
  assert (Hcore : forall enable level,
             Heard.Ios_faithful s
               (Eff.trace (Ios.rethrow (Ios.setTorchMode hw enable level) s))
               (Eff.state (Ios.rethrow (Ios.setTorchMode hw enable level) s))).
  { intros enable level.
    rewrite (proj1 (Ios_rethrow_same _ s)), (proj2 (Ios_rethrow_same _ s)).
    apply Ios_setTorchMode_faithful. }
  destruct c as [ | | | level | ]; cbn [Ios.perform].
  - apply Hcore.
  - apply Hcore.
  - unfold Ios.toggle.
    replace (Ios.rethrow (Eff.bind Eff.get (fun s0 => Ios.setTorchMode hw (negb (Ios.isTorchOn s0)) None)) s)
      with (Ios.rethrow (Ios.setTorchMode hw (negb (Ios.isTorchOn s)) None) s)
      by (unfold Ios.rethrow, Eff.catch; rewrite Eff_bind_get; reflexivity).
    apply Hcore.
  - destruct (Ios.validLevel level) eqn:Hv.
    + rewrite (Ios_setLevel_accepts hw level s Hv). apply Hcore.
    + rewrite (Ios_setLevel_rejects hw level s Hv). apply Ios_faithful_refl.
  - unfold Ios.dispose, Eff.catch. rewrite Eff_bind_get.
    destruct (Ios.isTorchOn s) eqn:Hon; cbn [Eff.when].
    + pose proof (Ios_setTorchMode_faithful hw false None s) as Hf. cbn zeta in Hf.
      unfold Eff.bind.
      destruct (Ios_setTorchMode_cases hw false None s)
        as [(e & t & He) | (s' & t & He & Hon' & Hoff & _)]; rewrite He in Hf |- *;
        cbn [Eff.trace Eff.state fst snd] in Hf; eff; cbn [Eff.trace Eff.state fst snd];
        rewrite ?app_nil_r.
      * exact Hf.
      * destruct Hf as (A & B & C & D).
        unfold Heard.Ios_faithful. cbn [Ios.isTorchOn Ios.previousLevel Ios.set_previousLevel].
        rewrite A, B, C, D, (Hoff eq_refl). repeat split.
    + eff. cbn [Eff.trace Eff.state fst snd app]. unfold Heard.Ios_faithful. cbn.
      rewrite (proj1 Hcoupled Hon). repeat split.
Qed.

(** X3.  On iOS the listener is kept right from construction on, whatever is
    called on whatever hardware: the state heard last is [isTorchOn], the
    level heard last is [previousLevel], no state is heard twice in a row,
    and no level is heard that equals the rounded level heard before it. *)
Theorem ios_listener_is_kept_right (cs : list (Ios.Hardware * Ios.Call)) :
  Heard.Ios_faithful Ios.init (snd (Ios.run cs Ios.init)) (fst (Ios.run cs Ios.init)).
Proof.
  assert (Hgen : forall s, Ios.coupled s ->
                           Heard.Ios_faithful s (snd (Ios.run cs s)) (fst (Ios.run cs s))).
  { induction cs as [ | [hw c] cs IH]; intros s Hs; cbn [Ios.run fst snd].
    - apply Ios_faithful_refl.
    - eapply Ios_faithful_trans.
      + apply Ios_perform_faithful, Hs.
      + apply IH, Ios_perform_coupled, Hs. }
  apply Hgen. unfold Ios.coupled. cbn. tauto.
Qed.

(* ================================================================== *)
(** * iOS: the intensity handed to the device *)
(* ================================================================== *)

(** [SFcompare] orders sign, then exponent, then mantissa. *)

Lemma SFcompare_Lt_Gt (a b : binary) :
  SFcompare a b = Some Lt -> SFcompare b a = Some Gt.
Proof.
  destruct a as [sa | sa | | sa ma ea], b as [sb | sb | | sb mb eb];
    try destruct sa; try destruct sb; cbn; try discriminate; try reflexivity;
    change (Pos.compare_cont Eq ma mb) with (Pos.compare ma mb);
    change (Pos.compare_cont Eq mb ma) with (Pos.compare mb ma);
    destruct (Z.compare_spec ea eb); destruct (Pos.compare_spec ma mb);
    cbn; try discriminate; intros _;
    destruct (Z.compare_spec eb ea); try lia;
    destruct (Pos.compare_spec mb ma); try lia; reflexivity.
Qed.

Lemma SFcompare_Lt_trans (a b c : binary) :
  SFcompare a b = Some Lt -> SFcompare b c = Some Lt -> SFcompare a c = Some Lt.
Proof.
  destruct a as [sa | sa | | sa ma ea], b as [sb | sb | | sb mb eb],
           c as [sc | sc | | sc mc ec];
    try destruct sa; try destruct sb; try destruct sc; cbn;
    try discriminate; try reflexivity;
    change (Pos.compare_cont Eq ma mb) with (Pos.compare ma mb);
    change (Pos.compare_cont Eq mb mc) with (Pos.compare mb mc);
    change (Pos.compare_cont Eq ma mc) with (Pos.compare ma mc);
    destruct (Z.compare_spec ea eb); destruct (Pos.compare_spec ma mb);
    cbn; try discriminate; intros _;
    destruct (Z.compare_spec eb ec); destruct (Pos.compare_spec mb mc);
    cbn; try discriminate; intros _;
    destruct (Z.compare_spec ea ec); try lia;
    destruct (Pos.compare_spec ma mc); try lia; reflexivity.
Qed.

Lemma ltb_trans (a b c : binary) :
  IEEE.ltb a b = true -> IEEE.ltb b c = true -> IEEE.ltb a c = true.
Proof.
  unfold IEEE.ltb, SFltb. intros Hab Hbc.
  destruct (SFcompare a b) as [[ | | ] | ] eqn:Eab; try discriminate.
  destruct (SFcompare b c) as [[ | | ] | ] eqn:Ebc; try discriminate.
  rewrite (SFcompare_Lt_trans a b c Eab Ebc). reflexivity.
Qed.

Lemma ltb_leb (a b : binary) : IEEE.ltb a b = true -> IEEE.leb a b = true.
Proof.
  unfold IEEE.ltb, IEEE.leb, SFltb, SFleb.
  destruct (SFcompare a b) as [[ | | ] | ]; try discriminate; reflexivity.
Qed.

Lemma ltb_not_leb (a b : binary) : IEEE.ltb a b = true -> IEEE.leb b a = false.
Proof.
  unfold IEEE.ltb, IEEE.leb, SFltb, SFleb. intros H.
  destruct (SFcompare a b) as [[ | | ] | ] eqn:E; try discriminate.
  rewrite (SFcompare_Lt_Gt a b E). reflexivity.
Qed.

Lemma ltb_irrefl_of (a b : binary) : IEEE.ltb a b = true -> IEEE.ltb b a = false.
Proof.
  unfold IEEE.ltb, SFltb. intros H.
  destruct (SFcompare a b) as [[ | | ] | ] eqn:E; try discriminate.
  rewrite (SFcompare_Lt_Gt a b E). reflexivity.
Qed.

Lemma leb_refl (a : binary) : a <> S754_nan -> IEEE.leb a a = true.
Proof.
  unfold IEEE.leb, SFleb. destruct a as [sa | sa | | sa ma ea]; try destruct sa; cbn;
    intros H; try reflexivity; try congruence;
    change (Pos.compare_cont Eq ma ma) with (Pos.compare ma ma);
    rewrite Z.compare_refl, Pos.compare_refl; reflexivity.
Qed.

(** The clamp keeps the intensity between 0.1 and 1.0, whatever the
    ceiling and the level are, a NaN included. *)
Lemma Ios_clampedLevel_bounds (ceiling torchLevel : binary) :
  IEEE.leb Float.tenth (Ios.clampedLevel ceiling torchLevel) = true /\
  IEEE.ltb Float.one (Ios.clampedLevel ceiling torchLevel) = false.
Proof.
  unfold Ios.clampedLevel, Float.max, Float.min.
  set (maxAvailable := if IEEE.ltb Float.one ceiling then Float.one else ceiling).
  assert (Hmax : IEEE.ltb Float.one maxAvailable = false).
  { subst maxAvailable. destruct (IEEE.ltb Float.one ceiling) eqn:H; [reflexivity | exact H]. }
  set (z := if IEEE.ltb torchLevel maxAvailable then torchLevel else maxAvailable).
  assert (Hz : IEEE.ltb Float.one z = false).
  { subst z. destruct (IEEE.ltb torchLevel maxAvailable) eqn:H; [ | exact Hmax].
    destruct (IEEE.ltb Float.one torchLevel) eqn:H1; [ | reflexivity].
    rewrite (ltb_trans _ _ _ H1 H) in Hmax. discriminate. }
  destruct (IEEE.leb Float.tenth z) eqn:Hl.
  - split; [exact Hl | exact Hz].
  - split; reflexivity.
Qed.

(** X4.  Where the thermal ceiling [maxAvailableTorchLevel] is 0.1 or more,
    the intensity [setTorchMode] hands to the device does not exceed it,
    whatever level was asked for. *)
Theorem ios_intensity_respects_ceiling (ceiling torchLevel : binary) :
  ceiling <> S754_nan ->
  IEEE.leb Float.tenth ceiling = true ->
  IEEE.leb (Ios.clampedLevel ceiling torchLevel) ceiling = true.
Proof.
  intros Hnan Hfloor. unfold Ios.clampedLevel, Float.max, Float.min.
  set (maxAvailable := if IEEE.ltb Float.one ceiling then Float.one else ceiling).
  assert (Hmax : IEEE.leb maxAvailable ceiling = true).
  { subst maxAvailable. destruct (IEEE.ltb Float.one ceiling) eqn:H.
    - apply ltb_leb, H.
    - apply leb_refl, Hnan. }
  set (z := if IEEE.ltb torchLevel maxAvailable then torchLevel else maxAvailable).
  destruct (IEEE.leb Float.tenth z) eqn:Hl; [ | exact Hfloor].
  subst z. destruct (IEEE.ltb torchLevel maxAvailable) eqn:H; [ | exact Hmax].
  subst maxAvailable. destruct (IEEE.ltb Float.one ceiling) eqn:H1.
  - apply ltb_leb. apply (ltb_trans _ _ _ H H1).
  - apply ltb_leb, H.
Qed.

Lemma ios_intensity_respects_ceiling_witness :
  IEEE.leb (Ios.clampedLevel Sample.half (Ios.normalizedLevel (Double.of_Z 10))) Sample.half
    = true.
Proof.
  apply (ios_intensity_respects_ceiling Sample.half (Ios.normalizedLevel (Double.of_Z 10))).
  - vm_compute. discriminate.
  - vm_compute. reflexivity.
Defined.

(** X5.  Where the thermal ceiling is under 0.1 the floor wins: the device
    is asked for the intensity 0.1 whatever level was asked for, which is
    more than [maxAvailableTorchLevel] allows. *)
Theorem ios_floor_beats_ceiling (ceiling torchLevel : binary) :
  IEEE.ltb ceiling Float.tenth = true ->
  Ios.clampedLevel ceiling torchLevel = Float.tenth /\
  IEEE.ltb ceiling (Ios.clampedLevel ceiling torchLevel) = true.
Proof.
  intros Hlow.
  assert (Hc : Ios.clampedLevel ceiling torchLevel = Float.tenth).
  { unfold Ios.clampedLevel, Float.max, Float.min.
    assert (H1 : IEEE.ltb Float.one ceiling = false).
    { destruct (IEEE.ltb Float.one ceiling) eqn:H; [ | reflexivity].
      pose proof (ltb_trans _ _ _ H Hlow) as Habs. vm_compute in Habs. discriminate. }
    rewrite H1. destruct (IEEE.ltb torchLevel ceiling) eqn:H.
    - rewrite (ltb_not_leb _ _ (ltb_trans _ _ _ H Hlow)). reflexivity.
    - rewrite (ltb_not_leb _ _ Hlow). reflexivity. }
  rewrite Hc. split; [reflexivity | exact Hlow].
Qed.

Lemma ios_floor_beats_ceiling_witness :
  Ios.clampedLevel (Float.div (Float.of_Z 1) (Float.of_Z 20))
    (Ios.normalizedLevel (Double.of_Z 5)) = Float.tenth.
Proof.
  apply (ios_floor_beats_ceiling (Float.div (Float.of_Z 1) (Float.of_Z 20))
           (Ios.normalizedLevel (Double.of_Z 5))).
  vm_compute. reflexivity.
Defined.

(** Every intensity [setTorchMode] asks for comes out of the clamp. *)
Lemma Ios_setTorchMode_intensity (hw : Ios.Hardware) (enable : bool) (level : option binary)
      (s : Ios.State) (x : binary) :
  In (Ios.SetTorchModeOn x) (Eff.trace (Ios.setTorchMode hw enable level s)) ->
  exists l, x = Ios.clampedLevel (Ios.maxAvailableTorchLevel hw) l.
Proof.
  destruct (if enable then Ios.usable hw else Ios.torchReady hw) eqn:H.
  - destruct enable.
    + rewrite (Ios_setTorchMode_on hw level s H). cbn zeta. cbn [Eff.trace snd].
      intros Hin. apply in_app_or in Hin. destruct Hin as [Hin | Hin].
      * cbn in Hin. destruct Hin as [Hin | [Hin | [Hin | []]]]; try discriminate.
        injection Hin as <-. eexists. reflexivity.
      * apply in_app_or in Hin. destruct Hin as [Hin | Hin].
        -- destruct (Ios.isTorchOn s); cbn in Hin; intuition discriminate.
        -- match type of Hin with context [Double.opt_neq ?a ?b] =>
             destruct (Double.opt_neq a b) end; cbn in Hin; intuition discriminate.
    + rewrite (Ios_setTorchMode_off hw level s H). cbn [Eff.trace snd].
      intros Hin. apply in_app_or in Hin. destruct Hin as [Hin | Hin].
      * cbn in Hin. intuition discriminate.
      * apply in_app_or in Hin. destruct Hin as [Hin | Hin].
        -- destruct (Ios.isTorchOn s); cbn in Hin; intuition discriminate.
        -- destruct (Ios.previousLevel s); cbn in Hin; intuition discriminate.
  - revert H. unfold Ios.usable, Ios.torchReady, Ios.setTorchMode.
    destruct hw as [[[[ | ]] | ] maxA [le | ] [te | ]]; destruct enable; cbn;
      intros H Hin; try discriminate; try contradiction;
      repeat (destruct Hin as [Hin | Hin]; try discriminate; try contradiction);
      injection Hin as <-; eexists; reflexivity.
Qed.

Lemma Ios_dispose_trace (hw : Ios.Hardware) (s : Ios.State) :
  Eff.trace (Ios.dispose hw s) =
    (if Ios.isTorchOn s then Eff.trace (Ios.setTorchMode hw false None s) else []) /\
  Eff.state (Ios.dispose hw s) =
    (if Ios.isTorchOn s then
       match Eff.result (Ios.setTorchMode hw false None s) with
       | Done _ => Ios.set_previousLevel None (Eff.state (Ios.setTorchMode hw false None s))
       | Thrown _ => Eff.state (Ios.setTorchMode hw false None s)
       end
     else Ios.set_previousLevel None s).
Proof.
  unfold Ios.dispose, Eff.catch. rewrite Eff_bind_get.
  destruct (Ios.isTorchOn s); cbn [Eff.when].
  - unfold Eff.bind.
    destruct (Ios.setTorchMode hw false None s) as [[[[] | e] s1] t1]; cbn;
      rewrite ?app_nil_r; auto.
  - cbn. auto.
Qed.

Lemma Ios_perform_intensity (hw : Ios.Hardware) (c : Ios.Call) (s : Ios.State) (x : binary) :
  In (Ios.SetTorchModeOn x) (Eff.trace (Ios.perform hw c s)) ->
  exists l, x = Ios.clampedLevel (Ios.maxAvailableTorchLevel hw) l.
Proof.
  destruct c as [ | | | level | ]; cbn [Ios.perform].
  - unfold Ios.on. rewrite (proj2 (Ios_rethrow_same _ s)). apply Ios_setTorchMode_intensity.
  - unfold Ios.off. rewrite (proj2 (Ios_rethrow_same _ s)). apply Ios_setTorchMode_intensity.
  - unfold Ios.toggle. rewrite (proj2 (Ios_rethrow_same _ s)), Eff_bind_get.
    apply Ios_setTorchMode_intensity.
  - destruct (Ios.validLevel level) eqn:Hv.
    + rewrite (Ios_setLevel_accepts hw level s Hv), (proj2 (Ios_rethrow_same _ s)).
      apply Ios_setTorchMode_intensity.
    + rewrite (Ios_setLevel_rejects hw level s Hv). intros [].
  - rewrite (proj1 (Ios_dispose_trace hw s)). destruct (Ios.isTorchOn s).
    + apply Ios_setTorchMode_intensity.
    + intros [].
Qed.

(** X6.  Whatever is called on iOS, in whatever state and on whatever
    hardware, the device is never asked for an intensity under 0.1 or over
    1.0. *)
Theorem ios_intensity_always_in_range (cs : list (Ios.Hardware * Ios.Call)) (s : Ios.State)
        (x : binary) :
  In (Ios.SetTorchModeOn x) (snd (Ios.run cs s)) ->
  IEEE.leb Float.tenth x = true /\ IEEE.ltb Float.one x = false.
Proof.
  revert s. induction cs as [ | [hw c] cs IH]; intros s; cbn [Ios.run snd].
  - intros [].
  - intros Hin. apply in_app_or in Hin. destruct Hin as [Hin | Hin].
    + destruct (Ios_perform_intensity hw c s x Hin) as [l ->].
      apply Ios_clampedLevel_bounds.
    + apply (IH _ Hin).
Qed.

Lemma ios_intensity_always_in_range_witness :
  IEEE.leb Float.tenth (Ios.clampedLevel Float.one (Ios.normalizedLevel (Double.of_Z 7)))
    = true /\
  IEEE.ltb Float.one (Ios.clampedLevel Float.one (Ios.normalizedLevel (Double.of_Z 7)))
    = false.
Proof.
  apply (ios_intensity_always_in_range
           [(Sample.iphone Float.one, Ios.CallSetLevel (Double.of_Z 7))] Ios.init).
  right. left. reflexivity.
Defined.

(* ================================================================== *)
(** * iOS: levels, ceilings and disposal *)
(* ================================================================== *)

(** X7.  The thermal ceiling bears on the intensity alone: on two devices
    that can both be used, however their ceilings differ, [setLevel] ends
    the same way, leaves the same state and notifies the same. *)
Theorem ios_ceiling_is_not_reported (hw hw' : Ios.Hardware) (level : binary) (s : Ios.State) :
  Ios.usable hw = true ->
  Ios.usable hw' = true ->
  Eff.result (Ios.setLevel hw level s) = Eff.result (Ios.setLevel hw' level s) /\
  Eff.state (Ios.setLevel hw level s) = Eff.state (Ios.setLevel hw' level s) /\
  filter Ios.isNotification (Eff.trace (Ios.setLevel hw level s)) =
    filter Ios.isNotification (Eff.trace (Ios.setLevel hw' level s)).
Proof.
  intros H H'. destruct (Ios.validLevel level) eqn:Hv.
  - rewrite !(Ios_setLevel_accepts _ level s Hv). unfold Ios.rethrow, Eff.catch.
    rewrite (Ios_setTorchMode_level hw _ s H), (Ios_setTorchMode_level hw' _ s H').
    cbn. auto.
  - rewrite !(Ios_setLevel_rejects _ level s Hv). auto.
Qed.

Lemma ios_ceiling_is_not_reported_witness :
  Eff.state (Ios.setLevel (Sample.iphone Sample.half) (Double.of_Z 10) Ios.init) =
  Eff.state (Ios.setLevel (Sample.iphone Float.one) (Double.of_Z 10) Ios.init).
Proof.
  exact (proj1 (proj2 (ios_ceiling_is_not_reported (Sample.iphone Sample.half)
                         (Sample.iphone Float.one) (Double.of_Z 10) Ios.init
                         eq_refl eq_refl))).
Defined.

(** X8.  The ten levels of iOS map to strictly rising intensities, none
    under 0.1 and none over 1.0. *)
Theorem ios_scale_rises (L1 L2 : Z) :
  1 <= L1 -> L1 < L2 -> L2 <= 10 ->
  IEEE.ltb (Ios.normalizedLevel (Double.of_Z L1)) (Ios.normalizedLevel (Double.of_Z L2)) = true /\
  IEEE.leb Float.tenth (Ios.normalizedLevel (Double.of_Z L1)) = true /\
  IEEE.leb (Ios.normalizedLevel (Double.of_Z L2)) Float.one = true.
Proof.
  intros H1 H12 H2.
  assert (Hc1 : L1 = 1 \/ L1 = 2 \/ L1 = 3 \/ L1 = 4 \/ L1 = 5 \/
                L1 = 6 \/ L1 = 7 \/ L1 = 8 \/ L1 = 9) by lia.
  assert (Hc2 : L2 = 2 \/ L2 = 3 \/ L2 = 4 \/ L2 = 5 \/
                L2 = 6 \/ L2 = 7 \/ L2 = 8 \/ L2 = 9 \/ L2 = 10) by lia.
  repeat (destruct Hc1 as [-> | Hc1]); [ .. | subst L1];
    (repeat (destruct Hc2 as [-> | Hc2]); [ .. | subst L2]);
    try lia; vm_compute; repeat split; reflexivity.
Qed.

Lemma ios_scale_rises_witness :
  IEEE.ltb (Ios.normalizedLevel (Double.of_Z 1)) (Ios.normalizedLevel (Double.of_Z 10)) = true.
Proof.
  apply (ios_scale_rises 1 10); lia.
Defined.

Lemma Ios_level_is_kept (L : Z) :
  1 <= L <= 10 ->
  Ios.normalizedLevel (Ios.levelOfNormalized (Ios.normalizedLevel (Double.of_Z L)))
    = Ios.normalizedLevel (Double.of_Z L).
Proof.
  intros HL.
  assert (L = 1 \/ L = 2 \/ L = 3 \/ L = 4 \/ L = 5 \/
          L = 6 \/ L = 7 \/ L = 8 \/ L = 9 \/ L = 10) as Hcases by lia.
  repeat (destruct Hcases as [-> | Hcases]); [ .. | subst L]; vm_compute; reflexivity.
Qed.

(** X9.  [on()] resumes the level set last on iOS: after [setLevel(L)] and
    [off()], [on()] asks the device for the intensity of [L] again, clamped
    by the ceiling of the moment, and the listener hears on and then [L]. *)
Theorem ios_on_resumes_level (hw1 hw2 hw3 : Ios.Hardware) (s : Ios.State) (L : Z) :
  Ios.usable hw1 = true ->
  Ios.torchReady hw2 = true ->
  Ios.usable hw3 = true ->
  1 <= L <= 10 ->
  let s2 := fst (Ios.run [(hw1, Ios.CallSetLevel (Double.of_Z L)); (hw2, Ios.CallOff)] s) in
  let r := Ios.on hw3 s2 in
  filter Ios.isTorchCommand (Eff.trace r) =
    [Ios.SetTorchModeOn
       (Ios.clampedLevel (Ios.maxAvailableTorchLevel hw3)
          (Ios.normalizedLevel (Double.of_Z L)))] /\
  filter Ios.isNotification (Eff.trace r) =
    [Ios.StateChanged true; Ios.LevelChanged (Some (Double.of_Z L))].
Proof.
  intros H1 H2 H3 HL s2 r. subst s2 r.
  destruct (Ios_ten_levels L HL) as (Hv & _ & Hr & _).
  cbn [Ios.run Ios.perform fst snd].
  rewrite (Ios_setLevel_accepts hw1 _ s Hv).
  unfold Ios.off, Ios.on. rewrite !(proj1 (Ios_rethrow_same _ _)), (proj2 (Ios_rethrow_same _ _)).
  rewrite (Ios_setTorchMode_level hw1 _ s H1). cbn zeta. cbn [Eff.state fst snd].
  rewrite (Ios_setTorchMode_off hw2 None _ H2). cbn [Eff.state fst snd Ios.currentLevel].
  rewrite (Ios_setTorchMode_on hw3 None _ H3). cbn zeta.
  cbn [Eff.trace snd Ios.currentLevel Ios.previousLevel Ios.isTorchOn option_map].
  rewrite Hr, (Ios_level_is_kept L HL). cbn. auto.
Qed.

Lemma ios_on_resumes_level_witness :
  filter Ios.isNotification
    (Eff.trace (Ios.on (Sample.iphone Float.one)
                  (fst (Ios.run [(Sample.iphone Float.one, Ios.CallSetLevel (Double.of_Z 7));
                                 (Sample.iphone Float.one, Ios.CallOff)] Ios.init)))) =
    [Ios.StateChanged true; Ios.LevelChanged (Some (Double.of_Z 7))].
Proof.
  apply (ios_on_resumes_level (Sample.iphone Float.one) (Sample.iphone Float.one)
           (Sample.iphone Float.one) Ios.init 7); try reflexivity. lia.
Defined.

(** X10.  A controller on iOS that was never given a level lights at level
    1: the first [on()] locks the device, asks for the intensity 0.1
    (clamped), unlocks, notifies on and then level 1, and records level 1.
    *)
Theorem ios_first_on_is_level_one (hw : Ios.Hardware) :
  Ios.usable hw = true ->
  Ios.on hw Ios.init =
    (Done tt,
     {| Ios.isTorchOn := true; Ios.currentLevel := Double.of_Z 1;
        Ios.previousLevel := Some (Double.of_Z 1) |},
     [Ios.LockForConfiguration;
      Ios.SetTorchModeOn (Ios.clampedLevel (Ios.maxAvailableTorchLevel hw) Float.tenth);
      Ios.UnlockForConfiguration;
      Ios.StateChanged true;
      Ios.LevelChanged (Some (Double.of_Z 1))]).
Proof.
  intros H. unfold Ios.on, Ios.rethrow, Eff.catch.
  rewrite (Ios_setTorchMode_on hw None Ios.init H). reflexivity.
Qed.

Lemma ios_first_on_is_level_one_witness :
  Eff.state (Ios.on (Sample.iphone Sample.half) Ios.init) = Sample.glowing 1.
Proof.
  exact (f_equal Eff.state
           (ios_first_on_is_level_one (Sample.iphone Sample.half) eq_refl)).
Defined.

(** X11.  [dispose] on iOS never throws.  With the torch off it only forgets
    the level on record.  With the torch on and the device ready it switches
    the torch off and notifies off, and [null] for the level if one was on
    record.  With the torch on and the device not ready it leaves the state
    as it was and notifies nothing. *)
Theorem ios_dispose_contract (hw : Ios.Hardware) (s : Ios.State) :
  let r := Ios.dispose hw s in
  Eff.result r = Done tt /\
  (Ios.isTorchOn s = false ->
   Eff.state r = Ios.set_previousLevel None s /\ Eff.trace r = []) /\
  (Ios.isTorchOn s = true -> Ios.torchReady hw = true ->
   Eff.state r = {| Ios.isTorchOn := false; Ios.currentLevel := Ios.currentLevel s;
                    Ios.previousLevel := None |} /\
   filter Ios.isTorchCommand (Eff.trace r) = [Ios.TorchModeOff] /\
   filter Ios.isNotification (Eff.trace r) =
     Ios.StateChanged false
       :: match Ios.previousLevel s with
          | Some _ => [Ios.LevelChanged None]
          | None => []
          end) /\
  (Ios.isTorchOn s = true -> Ios.torchReady hw = false ->
   Eff.state r = s /\ filter Ios.isNotification (Eff.trace r) = []).
Proof.
  cbn zeta. destruct (Ios_dispose_trace hw s) as [Ht Hs]. rewrite Ht, Hs.
  split; [apply Ios_dispose_done | ]. split; [ | split].
  - intros ->. split; reflexivity.
  - intros Hon Hready. rewrite (Ios_setTorchMode_off hw None s Hready), !Hon. cbn.
    destruct (Ios.previousLevel s); repeat split; reflexivity.
  - intros Hon Hnot. rewrite Hon.
    destruct (Ios_setTorchMode_rejects hw false None s Hnot) as (e & t & -> & Hn & _).
    cbn. split; [reflexivity | exact Hn].
Qed.

Lemma ios_dispose_contract_witness :
  Eff.state (Ios.dispose (Sample.iphone Float.one) (Sample.glowing 7)) =
    {| Ios.isTorchOn := false; Ios.currentLevel := Double.of_Z 7;
       Ios.previousLevel := None |}.
Proof.
  exact (proj1 (proj1 (proj2 (proj2 (ios_dispose_contract (Sample.iphone Float.one)
                                       (Sample.glowing 7)))) eq_refl eq_refl)).
Defined.

(** X12.  With no thermal limit, [maxAvailableTorchLevel] being above 1.0,
    [getMaxLevel(true)] is 10 on a device with a torch. *)
Theorem ios_dynamic_maximum_unlimited (hw : Ios.Hardware) :
  At.torchDevice hw = true ->
  IEEE.ltb Float.one (Ios.maxAvailableTorchLevel hw) = true ->
  Ios.getMaxLevel hw (Some true) = Some (Double.of_Z 10).
Proof.
  unfold At.torchDevice, Ios.getMaxLevel. destruct (Ios.device hw) as [dev | ]; [ | discriminate].
  intros -> Hc. cbn [negb]. unfold Float.min. rewrite Hc. vm_compute. reflexivity.
Qed.

Lemma ios_dynamic_maximum_unlimited_witness :
  Ios.getMaxLevel (Sample.iphone Float.greatestFiniteMagnitude) (Some true)
    = Some (Double.of_Z 10).
Proof.
  apply (ios_dynamic_maximum_unlimited (Sample.iphone Float.greatestFiniteMagnitude));
    vm_compute; reflexivity.
Defined.

(* ================================================================== *)
(** * Android: the calls are silent *)
(* ================================================================== *)

Section Silent.
Context {kept : Android.State -> Android.State -> Prop}.
Hypothesis kept_refl : forall s, kept s s.
Hypothesis kept_trans : forall s1 s2 s3, kept s1 s2 -> kept s2 s3 -> kept s1 s3.

Lemma Android_silent_ret {X} (x : X) : Heard.Android_silent kept (Eff.ret x).
Proof using All. intros s. split; [apply kept_refl | reflexivity]. Qed.

Lemma Android_silent_throw {X} (e : Android.Throwable) :
  Heard.Android_silent kept (Eff.throw e : Android.T X).
Proof using All. intros s. split; [apply kept_refl | reflexivity]. Qed.

Lemma Android_silent_get : Heard.Android_silent kept (Eff.get : Android.T Android.State).
Proof using All. intros s. split; [apply kept_refl | reflexivity]. Qed.

Lemma Android_silent_emit (ev : Android.Event) :
  Android.isNotification ev = false ->
  Heard.Android_silent kept (Eff.emit ev : Android.T unit).
Proof using All. intros H s. split; [apply kept_refl | cbn; rewrite H; reflexivity]. Qed.

Lemma Android_silent_modify (f : Android.State -> Android.State) :
  (forall s, kept s (f s)) ->
  Heard.Android_silent kept (Eff.modify f : Android.T unit).
Proof using All. intros H s. split; [apply H | reflexivity]. Qed.

Lemma Android_silent_bind {X Y} (m : Android.T X) (k : X -> Android.T Y) :
  Heard.Android_silent kept m -> (forall x, Heard.Android_silent kept (k x)) ->
  Heard.Android_silent kept (Eff.bind m k).
Proof using All.
  intros Hm Hk s. specialize (Hm s). unfold Eff.bind.
  destruct (m s) as [[[x | e] s1] t1]; cbn [Eff.state Eff.trace fst snd] in *.
  - specialize (Hk x s1). destruct (k x s1) as [[r s2] t2].
    cbn [Eff.state Eff.trace fst snd] in *. destruct Hm as [Hm1 Hm2], Hk as [Hk1 Hk2].
    split; [eapply kept_trans; eassumption | ].
    rewrite filter_app, Hm2, Hk2. reflexivity.
  - exact Hm.
Qed.

Lemma Android_silent_catch {X} (m : Android.T X) (h : Android.Throwable -> Android.T X) :
  Heard.Android_silent kept m -> (forall e, Heard.Android_silent kept (h e)) ->
  Heard.Android_silent kept (Eff.catch m h).
Proof using All.
  intros Hm Hh s. specialize (Hm s). unfold Eff.catch.
  destruct (m s) as [[[x | e] s1] t1]; cbn [Eff.state Eff.trace fst snd] in *.
  - exact Hm.
  - specialize (Hh e s1). destruct (h e s1) as [[r s2] t2].
    cbn [Eff.state Eff.trace fst snd] in *. destruct Hm as [Hm1 Hm2], Hh as [Hh1 Hh2].
    split; [eapply kept_trans; eassumption | ].
    rewrite filter_app, Hm2, Hh2. reflexivity.
Qed.

Lemma Android_silent_when (b : bool) (m : Android.T unit) :
  Heard.Android_silent kept m -> Heard.Android_silent kept (Eff.when b m).
Proof using All. intros H. destruct b; [exact H | apply Android_silent_ret]. Qed.

Lemma Android_silent_handleTorchException {X} (e : Android.TorchException) :
  Heard.Android_silent kept (Android.handleTorchException e : Android.T X).
Proof using All. apply Android_silent_throw. Qed.

Lemma Android_silent_handling {X} (m : Android.T X) :
  Heard.Android_silent kept m -> Heard.Android_silent kept (Android.handling m).
Proof using All.
  intros H. apply Android_silent_catch; [exact H | ].
  intros [e | e | e]; apply Android_silent_throw.
Qed.

Lemma Android_silent_getCameraCharacteristics (manager : Android.CameraManager)
      (cid : string) :
  Heard.Android_silent kept (Android.getCameraCharacteristics manager cid).
Proof using All.
  unfold Android.getCameraCharacteristics.
  apply Android_silent_bind; [apply Android_silent_emit; reflexivity | intros _].
  destruct (Android.cameras manager) as [cs | ]; [ | apply Android_silent_throw].
  destruct (find _ cs) as [c | ]; [ | apply Android_silent_throw].
  destruct (Android.characteristics c); [apply Android_silent_ret | apply Android_silent_throw].
Qed.

Lemma Android_silent_ensureCameraId (p : Android.Platform) :
  (forall s, kept s (Android.set_cameraId (Android.resolved p s) s)) ->
  Heard.Android_silent kept (Android.ensureCameraId p).
Proof using All.
  intros Hc s. destruct (Android_ensureCameraId_spec p s) as (-> & _ & _).
  split; [apply Hc | apply Android_probes_filtered].
Qed.

Lemma Android_silent_setTorchMode (p : Android.Platform) (enable : bool) :
  (forall s, kept s (Android.set_cameraId (Android.resolved p s) s)) ->
  Heard.Android_silent kept (Android.setTorchMode p enable).
Proof using All.
  intros Hc. unfold Android.setTorchMode.
  apply Android_silent_bind.
  { destruct (Android.cameraManager p); [apply Android_silent_ret | apply Android_silent_throw]. }
  intros manager. apply Android_silent_bind.
  { apply Android_silent_when, Android_silent_throw. }
  intros _. apply Android_silent_bind; [apply Android_silent_ensureCameraId, Hc | intros _].
  apply Android_silent_bind; [apply Android_silent_get | intros s].
  apply Android_silent_bind.
  { destruct (Android.cameraId s); [apply Android_silent_ret | apply Android_silent_throw]. }
  intros cid. destruct (Bool.eqb _ _); [apply Android_silent_ret | ].
  apply Android_silent_bind; [apply Android_silent_emit; reflexivity | intros _].
  destruct (Android.setTorchModeError manager);
    [apply Android_silent_throw | apply Android_silent_ret].
Qed.

Lemma Android_silent_setLevel (p : Android.Platform) (level : binary) :
  (forall s, kept s (Android.set_cameraId (Android.resolved p s) s)) ->
  Heard.Android_silent kept (Android.setLevel p level).
Proof using All.
  intros Hc. unfold Android.setLevel.
  apply Android_silent_bind.
  { apply Android_silent_when, Android_silent_handleTorchException. }
  intros _. apply Android_silent_bind.
  { destruct (Android.cameraManager p);
      [apply Android_silent_ret | apply Android_silent_handleTorchException]. }
  intros manager. apply Android_silent_bind; [apply Android_silent_ensureCameraId, Hc | intros _].
  apply Android_silent_bind; [apply Android_silent_get | intros s].
  apply Android_silent_bind.
  { destruct (Android.cameraId s);
      [apply Android_silent_ret | apply Android_silent_handleTorchException]. }
  intros cid. apply Android_silent_bind;
    [apply Android_silent_getCameraCharacteristics | intros ch].
  cbv zeta. apply Android_silent_bind.
  { apply Android_silent_when, Android_silent_handleTorchException. }
  intros _. apply Android_silent_bind.
  { apply Android_silent_when, Android_silent_throw. }
  intros _. apply Android_silent_bind; [apply Android_silent_emit; reflexivity | intros _].
  destruct (Android.turnOnTorchWithStrengthLevelError manager) as [[msg | msg] | ];
    [apply Android_silent_throw | apply Android_silent_throw | apply Android_silent_ret].
Qed.

Lemma Android_silent_getMaxLevel (p : Android.Platform) (dynamic : option bool) :
  (forall s, kept s (Android.set_cameraId (Android.resolved p s) s)) ->
  Heard.Android_silent kept (Android.getMaxLevel p dynamic).
Proof using All.
  intros Hc. unfold Android.getMaxLevel.
  destruct (Android.SDK_INT p <? Android.VERSION_CODES_TIRAMISU); [apply Android_silent_ret | ].
  apply Android_silent_bind; [apply Android_silent_ensureCameraId, Hc | intros _].
  apply Android_silent_bind; [apply Android_silent_get | intros s].
  destruct (Android.cameraId s) as [cid | ]; [ | apply Android_silent_ret].
  destruct (Android.cameraManager p) as [manager | ]; [ | apply Android_silent_ret].
  apply Android_silent_catch.
  - apply Android_silent_bind; [apply Android_silent_getCameraCharacteristics | intros ch].
    cbv zeta. destruct (_ <=? 1); apply Android_silent_ret.
  - intros [e | e | e]; [apply Android_silent_ret | apply Android_silent_ret
                         | apply Android_silent_throw].
Qed.
End Silent.

Lemma Android_view_refl (s : Android.State) : Heard.Android_view s s.
Proof. repeat split. Qed.

Lemma Android_view_trans (s1 s2 s3 : Android.State) :
  Heard.Android_view s1 s2 -> Heard.Android_view s2 s3 -> Heard.Android_view s1 s3.
Proof.
  unfold Heard.Android_view. intros (A & B & C) (A' & B' & C').
  rewrite A', B', C'. auto.
Qed.

Lemma Android_view_cameraId (c : option string) (s : Android.State) :
  Heard.Android_view s (Android.set_cameraId c s).
Proof. repeat split. Qed.

Lemma Android_silent_dispose (p : Android.Platform) :
  Heard.Android_silent Heard.any (Android.dispose p).
Proof.
  assert (R : forall s, Heard.any s s) by exact (fun _ => I).
  assert (T : forall s1 s2 s3, Heard.any s1 s2 -> Heard.any s2 s3 -> Heard.any s1 s3)
    by exact (fun _ _ _ _ _ => I).
  assert (Hmod : forall f, Heard.Android_silent Heard.any (Eff.modify f : Android.T unit)).
  { intros f. apply (Android_silent_modify R T). exact (fun _ => I). }
  unfold Android.dispose. apply (Android_silent_catch R T).
  - apply (Android_silent_bind R T); [apply (Android_silent_get R T) | intros s].
    apply (Android_silent_bind R T).
    { apply (Android_silent_when R T). destruct (Android.cameraId s) as [cid | ];
        [ | apply (Android_silent_ret R T)].
      apply (Android_silent_bind R T); [ | intros _; apply Hmod].
      destruct (Android.cameraManager p) as [manager | ]; [ | apply (Android_silent_ret R T)].
      apply (Android_silent_bind R T); [apply (Android_silent_emit R T); reflexivity | intros _].
      destruct (Android.setTorchModeError manager);
        [apply (Android_silent_throw R T) | apply (Android_silent_ret R T)]. }
    intros _. apply (Android_silent_bind R T).
    { destruct (Android.cameraManager p) as [manager | ]; [ | apply (Android_silent_ret R T)].
      apply (Android_silent_bind R T); [apply (Android_silent_emit R T); reflexivity | intros _].
      destruct (Android.unregisterTorchCallbackError manager);
        [apply (Android_silent_ret R T) | apply Hmod]. }
    intros _. apply (Android_silent_bind R T); [apply Hmod | intros _; apply Hmod].
  - intros e. apply (Android_silent_ret R T).
Qed.

Lemma Android_perform_silent (p : Android.Platform) (c : Android.Call)
        (s : Android.State) :
  filter Android.isNotification (Eff.trace (Android.perform p c s)) = [] /\
  (c <> Android.CallDispose ->
   Heard.Android_view s (Eff.state (Android.perform p c s))).
Proof.
  split.
  - destruct c as [ | | | level | ]; cbn [Android.perform].
    + apply (Android_silent_handling Android_view_refl Android_view_trans),
        (Android_silent_setTorchMode Android_view_refl Android_view_trans),
        (fun s1 => Android_view_cameraId _ s1).
    + apply (Android_silent_handling Android_view_refl Android_view_trans),
        (Android_silent_setTorchMode Android_view_refl Android_view_trans),
        (fun s1 => Android_view_cameraId _ s1).
    + apply (Android_silent_handling Android_view_refl Android_view_trans),
        (Android_silent_bind Android_view_refl Android_view_trans);
        [apply (Android_silent_get Android_view_refl Android_view_trans) | intros s0].
      apply (Android_silent_setTorchMode Android_view_refl Android_view_trans),
        (fun s1 => Android_view_cameraId _ s1).
    + apply (Android_silent_setLevel Android_view_refl Android_view_trans),
        (fun s1 => Android_view_cameraId _ s1).
    + apply Android_silent_dispose.
  - intros Hc. destruct c as [ | | | level | ]; cbn [Android.perform]; [ | | | | congruence].
    + apply (Android_silent_handling Android_view_refl Android_view_trans),
        (Android_silent_setTorchMode Android_view_refl Android_view_trans),
        (fun s1 => Android_view_cameraId _ s1).
    + apply (Android_silent_handling Android_view_refl Android_view_trans),
        (Android_silent_setTorchMode Android_view_refl Android_view_trans),
        (fun s1 => Android_view_cameraId _ s1).
    + apply (Android_silent_handling Android_view_refl Android_view_trans),
        (Android_silent_bind Android_view_refl Android_view_trans);
        [apply (Android_silent_get Android_view_refl Android_view_trans) | intros s0].
      apply (Android_silent_setTorchMode Android_view_refl Android_view_trans),
        (fun s1 => Android_view_cameraId _ s1).
    + apply (Android_silent_setLevel Android_view_refl Android_view_trans),
        (fun s1 => Android_view_cameraId _ s1).
Qed.

(** X13.  On Android no call of the API reports anything itself: [on],
    [off], [toggle], [setLevel] and [dispose] make no call through
    [onStateChanged] or [onLevelChanged], and all but [dispose] leave
    [isTorchOn], [previousLevel] and the registration of the callback as
    they were.  What the listener hears comes from the camera service alone.
    *)
Theorem android_calls_are_silent (p : Android.Platform) (c : Android.Call)
        (s : Android.State) :
  filter Android.isNotification (Eff.trace (Android.perform p c s)) = [] /\
  (c <> Android.CallDispose ->
   Heard.Android_view s (Eff.state (Android.perform p c s))).
Proof. apply Android_perform_silent. Qed.

(* ================================================================== *)
(** * Android: what a listener hears *)
(* ================================================================== *)

Lemma Android_faithful_refl (s : Android.State) : Heard.Android_faithful s [] s.
Proof. repeat split. Qed.

Lemma Android_faithful_trans (s1 s2 s3 : Android.State) (t1 t2 : list Android.Event) :
  Heard.Android_faithful s1 t1 s2 -> Heard.Android_faithful s2 t2 s3 ->
  Heard.Android_faithful s1 (t1 ++ t2) s3.
Proof.
  intros (B1 & C1 & D1) (B2 & C2 & D2). unfold Heard.Android_faithful.
  unfold Heard.Android_states, Heard.Android_levels in *. rewrite !flat_map_app.
  rewrite Heard_changes_app, !last_app_default.
  rewrite B1, D1, C1, C2, B2, D2. repeat split.
Qed.

Lemma Android_unheard (t : list Android.Event) :
  filter Android.isNotification t = [] ->
  Heard.Android_states t = [] /\ Heard.Android_levels t = [].
Proof.
  induction t as [ | ev t IH]; [auto | ].
  destruct ev; cbn; intros H; try discriminate; auto.
Qed.

Lemma Android_silent_faithful (s s' : Android.State) (t : list Android.Event) :
  Heard.Android_view s s' -> filter Android.isNotification t = [] ->
  Heard.Android_faithful s t s'.
Proof.
  intros (A & B & _) H. destruct (Android_unheard t H) as [Hs Hl].
  unfold Heard.Android_faithful. rewrite Hs, Hl, A, B. repeat split.
Qed.

Lemma Android_deliver_faithful (p : Android.Platform) (n : Android.Notification)
      (s : Android.State) :
  let r := Android.deliver p n s in
  Heard.Android_faithful s (Eff.trace r) (Eff.state r).
Proof.
  cbn zeta. unfold Android.deliver. rewrite Eff_bind_get.
  destruct (Android.torchCallbackRegistered s) eqn:Hreg; cbn [Eff.when];
    [ | apply Android_faithful_refl].
  destruct n as [cid enabled | cid l].
  - pose proof (Android_deliver_off p cid s Hreg) as Hoff.
    pose proof (Android_deliver_on p cid s Hreg) as Hon.
    unfold Android.deliver in Hoff, Hon. rewrite Eff_bind_get, Hreg in Hoff, Hon.
    cbn [Eff.when] in Hoff, Hon. destruct enabled.
    + rewrite Hon. repeat split.
    + rewrite Hoff. unfold Heard.Android_faithful.
      destruct (Android.previousLevel s); cbn; repeat split.
  - destruct (Android.VERSION_CODES_TIRAMISU <=? Android.SDK_INT p) eqn:Hsdk.
    + pose proof (Android_deliver_strength p cid l s Hreg (proj1 (Z.leb_le _ _) Hsdk)) as H.
      cbn zeta in H. unfold Android.deliver in H. rewrite Eff_bind_get, Hreg in H.
      cbn [Eff.when] in H. rewrite H. unfold Heard.Android_faithful.
      destruct (Double.opt_neq _ _) eqn:Hc; cbn; rewrite ?Hc; repeat split.
    + unfold Android.onTorchStrengthLevelChanged. rewrite Hsdk. apply Android_faithful_refl.
Qed.

(** X14.  On Android, as long as [dispose] is not called, the listener is
    kept right from any state on, whatever the calls and whatever the camera
    service reports: the state heard last is [isTorchOn], the level heard
    last is the level on record, and no level is heard twice in a row. *)
Theorem android_listener_is_kept_right
        (inputs : list (Android.Platform * Android.Input)) (s : Android.State) :
  Heard.undisposed inputs ->
  Heard.Android_faithful s (snd (Android.run inputs s)) (fst (Android.run inputs s)).
Proof.
  revert s. induction inputs as [ | [p i] inputs IH]; intros s Hu; cbn [Android.run fst snd].
  - apply Android_faithful_refl.
  - inversion Hu as [ | x l Hi Hrest]; subst. cbn [snd] in Hi.
    eapply Android_faithful_trans; [ | apply IH, Hrest].
    destruct i as [c | n]; cbn [Android.step].
    + destruct (Android_perform_silent p c s) as [Hn Hv].
      apply Android_silent_faithful; [apply Hv; congruence | exact Hn].
    + apply Android_deliver_faithful.
Qed.

Lemma android_listener_is_kept_right_witness :
  Heard.Android_faithful (Android.init Sample.pixel)
    (snd (Android.run [(Sample.pixel, Android.Invoke (Android.CallSetLevel (Double.of_Z 3)));
                       (Sample.pixel, Android.Hardware (Android.TorchModeChanged "0" true));
                       (Sample.pixel, Android.Hardware (Android.TorchStrengthLevelChanged "0" 3))]
            (Android.init Sample.pixel)))
    (fst (Android.run [(Sample.pixel, Android.Invoke (Android.CallSetLevel (Double.of_Z 3)));
                       (Sample.pixel, Android.Hardware (Android.TorchModeChanged "0" true));
                       (Sample.pixel, Android.Hardware (Android.TorchStrengthLevelChanged "0" 3))]
            (Android.init Sample.pixel))).
Proof.
  apply android_listener_is_kept_right.
  repeat constructor; cbn; discriminate.
Defined.

(* ================================================================== *)
(** * Android: the camera chosen *)
(* ================================================================== *)

Lemma Android_find_by_id (all : list Android.Camera) (c : Android.Camera) :
  NoDup (map Android.id all) -> In c all ->
  find (fun c' => String.eqb (Android.id c') (Android.id c)) all = Some c.
Proof.
  induction all as [ | a all IH]; cbn; [tauto | ].
  intros Hnd [-> | Hin].
  - rewrite String.eqb_refl. reflexivity.
  - inversion Hnd as [ | x l Hnot Hnd']; subst.
    destruct (String.eqb (Android.id a) (Android.id c)) eqn:He; [ | auto].
    apply String.eqb_eq in He. exfalso. apply Hnot. rewrite He. apply in_map, Hin.
Qed.

Lemma Android_hasBackFlash_result (manager : Android.CameraManager)
      (all : list Android.Camera) (c : Android.Camera) (s : Android.State) :
  Android.cameras manager = Some all -> NoDup (map Android.id all) -> In c all ->
  Eff.result (Android.hasBackFlash manager (Android.id c) s) =
    match Android.characteristics c with
    | Some ch => Done (At.isBackFlash ch)
    | None => Thrown (Android.Exc (Android.CameraAccessException "camera disconnected"))
    end.
Proof.
  intros Hc Hnd Hin. unfold Android.hasBackFlash, Android.getCameraCharacteristics.
  rewrite Hc, (Android_find_by_id all c Hnd Hin). eff.
  destruct (Android.characteristics c); reflexivity.
Qed.

Lemma Android_firstOrNull_found (manager : Android.CameraManager)
      (all cs : list Android.Camera) (s : Android.State) :
  Android.cameras manager = Some all -> NoDup (map Android.id all) -> incl cs all ->
  Forall (fun c => Android.characteristics c <> None) cs ->
  Eff.result (Android.firstOrNull (Android.hasBackFlash manager) (map Android.id cs) s) =
    Done (option_map Android.id
            (find (fun c => match Android.characteristics c with
                            | Some ch => At.isBackFlash ch
                            | None => false
                            end) cs)).
Proof.
  intros Hc Hnd. induction cs as [ | c cs IH]; intros Hin Hr; [reflexivity | ].
  inversion Hr as [ | x l Hch Hr']; subst.
  cbn [map Android.firstOrNull find]. unfold Eff.bind at 1.
  pose proof (Android_hasBackFlash_result manager all c s Hc Hnd (Hin c (or_introl eq_refl)))
    as Hh.
  destruct (Android_hasBackFlash_stateless manager (Android.id c)) as (r & t & Hst).
  rewrite Hst in Hh |- *. cbn [Eff.result fst] in Hh.
  destruct (Android.characteristics c) as [ch | ]; [ | congruence]. subst r.
  destruct (At.isBackFlash ch).
  - reflexivity.
  - assert (Hin' : incl cs all) by (intros x Hx; apply Hin; right; exact Hx).
    specialize (IH Hin' Hr').
    destruct (Android.firstOrNull (Android.hasBackFlash manager) (map Android.id cs) s)
      as [[r2 s2] t2]. exact IH.
Qed.

Lemma Android_firstOrNull_stopped (manager : Android.CameraManager)
      (all pre rest : list Android.Camera) (c : Android.Camera) (s : Android.State) :
  Android.cameras manager = Some all -> NoDup (map Android.id all) ->
  incl (pre ++ c :: rest) all ->
  Forall At.passedOver pre -> Android.characteristics c = None ->
  Eff.result (Android.firstOrNull (Android.hasBackFlash manager)
                (map Android.id (pre ++ c :: rest)) s) =
    Thrown (Android.Exc (Android.CameraAccessException "camera disconnected")).
Proof.
  intros Hc Hnd. induction pre as [ | a pre IH]; intros Hin Hp Hch.
  - cbn [app map Android.firstOrNull]. unfold Eff.bind at 1.
    pose proof (Android_hasBackFlash_result manager all c s Hc Hnd (Hin c (or_introl eq_refl)))
      as Hh.
    destruct (Android.hasBackFlash manager (Android.id c) s) as [[r s1] t1].
    cbn [Eff.result fst] in Hh. rewrite Hch in Hh. subst r. reflexivity.
  - inversion Hp as [ | x l (ch & Ha & Hbf) Hp']; subst.
    cbn [app map Android.firstOrNull]. unfold Eff.bind at 1.
    pose proof (Android_hasBackFlash_result manager all a s Hc Hnd (Hin a (or_introl eq_refl)))
      as Hh.
    destruct (Android_hasBackFlash_stateless manager (Android.id a)) as (r & t & Hst).
    rewrite Hst in Hh |- *. cbn [Eff.result fst] in Hh. rewrite Ha, Hbf in Hh. subst r.
    assert (Hin' : incl (pre ++ c :: rest) all) by (intros x Hx; apply Hin; right; exact Hx).
    specialize (IH Hin' Hp' Hch).
    destruct (Android.firstOrNull (Android.hasBackFlash manager)
                (map Android.id (pre ++ c :: rest)) s) as [[r2 s2] t2]. exact IH.
Qed.

Lemma Android_resolved_search (p : Android.Platform) (manager : Android.CameraManager)
      (cs : list Android.Camera) (s : Android.State) :
  Android.cameraManager p = Some manager -> Android.cameras manager = Some cs ->
  Android.cameraId s = None ->
  Android.resolved p s =
    match Eff.result (Android.firstOrNull (Android.hasBackFlash manager)
                        (map Android.id cs) s) with
    | Done (Some cid) => Some cid
    | Done None => hd_error (map Android.id cs)
    | Thrown _ => None
    end.
Proof.
  intros Hm Hc Hid. unfold Android.resolved, Android.ensureCameraId.
  rewrite Eff_bind_get, Hid, Hm. unfold Eff.catch, Android.cameraIdList. rewrite Hc.
  pose proof (Android_firstOrNull_reading manager cs (map Android.id cs) s Hc (incl_refl _))
    as Hf.
  eff. destruct (Android.firstOrNull (Android.hasBackFlash manager) (map Android.id cs) s)
    as [[[found | e] s1] t1]; unfold Android.reading in Hf; cbn in Hf;
    destruct Hf as (-> & Ht & Hr).
  - destruct found as [cid | ]; cbn; [reflexivity | ].
    destruct s; cbn in Hid |- *. reflexivity.
  - destruct e as [[msg | msg] | te | j]; try contradiction. cbn. exact Hid.
Qed.

(** X15.  The camera [ensureCameraId] settles on, where no camera is chosen
    yet, the cameras have distinct ids and the characteristics of each can
    be read: the first camera that faces back and has a flash, or, where
    there is none, the first camera listed, whatever it is. *)
Theorem android_camera_choice (p : Android.Platform) (manager : Android.CameraManager)
        (cs : list Android.Camera) (s : Android.State) :
  Android.cameraManager p = Some manager -> Android.cameras manager = Some cs ->
  Android.cameraId s = None -> At.readable cs ->
  Android.resolved p s = At.preferred cs.
Proof.
  intros Hm Hc Hid [Hnd Hr].
  rewrite (Android_resolved_search p manager cs s Hm Hc Hid).
  rewrite (Android_firstOrNull_found manager cs cs s Hc Hnd (incl_refl _) Hr).
  unfold At.preferred. destruct (find _ cs); reflexivity.
Qed.

Lemma android_camera_choice_witness :
  Android.resolved Sample.pixel (Android.init Sample.pixel) = Some "0"%string.
Proof.
  apply (android_camera_choice Sample.pixel (Sample.service (Some 5))
           [Sample.front; Sample.back (Some 5)] (Android.init Sample.pixel));
    try reflexivity.
  split; [repeat constructor; cbn; intuition discriminate
         | repeat constructor; cbn; discriminate].
Defined.

(** X16.  A camera whose characteristics cannot be read, listed ahead of
    every back camera with a flash, ends the search of [ensureCameraId]: no
    camera is chosen, not even a flash camera listed after it, and [on()] is
    rejected with [NoFlashAvailable]. *)
Theorem android_unreadable_camera_hides_the_flash
        (p : Android.Platform) (manager : Android.CameraManager)
        (pre rest : list Android.Camera) (c : Android.Camera) (s : Android.State) :
  Android.cameraManager p = Some manager ->
  Android.cameras manager = Some (pre ++ c :: rest) ->
  NoDup (map Android.id (pre ++ c :: rest)) ->
  Forall At.passedOver pre -> Android.characteristics c = None ->
  Android.MIN_API_LEVEL <= Android.SDK_INT p ->
  Android.cameraId s = None ->
  Android.resolved p s = None /\
  Eff.result (Android.on p s) = Thrown (At.structured Android.NoFlashAvailable).
Proof.
  intros Hm Hc Hnd Hp Hch Hsdk Hid.
  assert (Hres : Android.resolved p s = None).
  { rewrite (Android_resolved_search p manager _ s Hm Hc Hid).
    rewrite (Android_firstOrNull_stopped manager _ pre rest c s Hc Hnd (incl_refl _) Hp Hch).
    reflexivity. }
  split; [exact Hres | ].
  destruct (Android_ensureCameraId_spec p s) as (He & _ & _).
  unfold Android.on, Android.handling, Android.setTorchMode, Eff.catch. rewrite Hm.
  replace (Android.SDK_INT p <? Android.MIN_API_LEVEL) with false
    by (symmetry; apply Z.ltb_ge; exact Hsdk).
  unfold Eff.bind at 1. unfold Eff.orThrow, Eff.ret at 1.
  unfold Eff.bind at 1. unfold Eff.when, Eff.ret at 1.
  unfold Eff.bind at 1. rewrite He, Hres. eff. reflexivity.
Qed.

Lemma android_unreadable_camera_hides_the_flash_witness :
  Eff.result (Android.on Sample.shadowed (Android.init Sample.shadowed))
  = Thrown (At.structured Android.NoFlashAvailable).
Proof.
  refine (proj2 (android_unreadable_camera_hides_the_flash
                   Sample.shadowed Sample.shadowedService [Sample.front]
                   [Sample.back (Some 5)] Sample.broken
                   (Android.init Sample.shadowed) eq_refl eq_refl _ _ eq_refl _ eq_refl)).
  - repeat constructor; cbn; intuition discriminate.
  - repeat constructor. eexists. split; reflexivity.
  - cbn. unfold Android.MIN_API_LEVEL, Android.VERSION_CODES_M. lia.
Defined.

(* ================================================================== *)
(** * Android: a camera, once chosen, stays *)
(* ================================================================== *)

Lemma Android_settled_refl (s : Android.State) : Heard.Android_settled s s.
Proof. intros cid H. exact H. Qed.

Lemma Android_settled_trans (s1 s2 s3 : Android.State) :
  Heard.Android_settled s1 s2 -> Heard.Android_settled s2 s3 -> Heard.Android_settled s1 s3.
Proof. intros H1 H2 cid H. apply H2, H1, H. Qed.

Lemma Android_settled_resolved (p : Android.Platform) (s : Android.State) :
  Heard.Android_settled s (Android.set_cameraId (Android.resolved p s) s).
Proof.
  intros cid H. destruct (Android_ensureCameraId_spec p s) as (_ & _ & Hc).
  cbn. apply (Hc cid H).
Qed.

Lemma Android_perform_settled (p : Android.Platform) (c : Android.Call) (s : Android.State) :
  c <> Android.CallDispose ->
  Heard.Android_settled s (Eff.state (Android.perform p c s)).
Proof.
  intros Hc. destruct c as [ | | | level | ]; cbn [Android.perform]; [ | | | | congruence].
  - apply (Android_silent_handling Android_settled_refl Android_settled_trans),
      (Android_silent_setTorchMode Android_settled_refl Android_settled_trans),
      Android_settled_resolved.
  - apply (Android_silent_handling Android_settled_refl Android_settled_trans),
      (Android_silent_setTorchMode Android_settled_refl Android_settled_trans),
      Android_settled_resolved.
  - apply (Android_silent_handling Android_settled_refl Android_settled_trans),
      (Android_silent_bind Android_settled_refl Android_settled_trans);
      [apply (Android_silent_get Android_settled_refl Android_settled_trans) | intros s0].
    apply (Android_silent_setTorchMode Android_settled_refl Android_settled_trans),
      Android_settled_resolved.
  - apply (Android_silent_setLevel Android_settled_refl Android_settled_trans),
      Android_settled_resolved.
Qed.

Lemma Android_deliver_cameraId (p : Android.Platform) (n : Android.Notification)
      (s : Android.State) :
  Android.cameraId (Eff.state (Android.deliver p n s)) = Android.cameraId s.
Proof.
  unfold Android.deliver. rewrite Eff_bind_get.
  destruct (Android.torchCallbackRegistered s); [ | reflexivity]. cbn [Eff.when].
  destruct n as [cid enabled | cid l].
  - unfold Android.onTorchModeChanged. destruct enabled; eff; cbn; [reflexivity | ].
    destruct (Android.previousLevel s); reflexivity.
  - unfold Android.onTorchStrengthLevelChanged.
    destruct (Android.VERSION_CODES_TIRAMISU <=? Android.SDK_INT p); [ | reflexivity].
    eff. destruct (Double.opt_neq _ _); reflexivity.
Qed.

(** X17.  Once a camera is chosen on Android it is the camera of every later
    call, whatever the camera service lists or reports by then and whether
    it is there at all, until [dispose]: [ensureCameraId] keeps it and reads
    nothing. *)
Theorem android_camera_is_chosen_once
        (inputs : list (Android.Platform * Android.Input)) (s : Android.State)
        (cid : string) :
  Heard.undisposed inputs ->
  Android.cameraId s = Some cid ->
  Android.cameraId (fst (Android.run inputs s)) = Some cid /\
  forall p, Android.resolved p (fst (Android.run inputs s)) = Some cid /\
            Android.probes p (fst (Android.run inputs s)) = [].
Proof.
  intros Hu Hid.
  assert (H : Android.cameraId (fst (Android.run inputs s)) = Some cid).
  { revert s Hid. induction inputs as [ | [p i] inputs IH]; intros s Hid;
      cbn [Android.run fst snd]; [exact Hid | ].
    inversion Hu as [ | x l Hi Hrest]; subst. cbn [snd] in Hi.
    apply (IH Hrest). destruct i as [c | n]; cbn [Android.step].
    - apply (Android_perform_settled p c s); [congruence | exact Hid].
    - rewrite Android_deliver_cameraId. exact Hid. }
  split; [exact H | ]. intros p.
  destruct (Android_ensureCameraId_spec p (fst (Android.run inputs s))) as (_ & _ & Hc).
  apply (Hc cid H).
Qed.

Lemma android_camera_is_chosen_once_witness :
  Android.cameraId
    (fst (Android.run
            [(Sample.pixel, Android.Invoke Android.CallOn);
             (Sample.serviceless, Android.Invoke Android.CallToggle)]
            (Android.set_cameraId (Some "0"%string) (Android.init Sample.pixel))))
  = Some "0"%string.
Proof.
  refine (proj1 (android_camera_is_chosen_once
                   [(Sample.pixel, Android.Invoke Android.CallOn);
                    (Sample.serviceless, Android.Invoke Android.CallToggle)]
                   (Android.set_cameraId (Some "0"%string) (Android.init Sample.pixel))
                   "0"%string _ eq_refl)).
  repeat constructor; cbn; discriminate.
Defined.

(* ================================================================== *)
(** * Android: rejected calls *)
(* ================================================================== *)

Lemma Android_setTorchMode_result (p : Android.Platform) (enable : bool) (s : Android.State) :
  Eff.result (Android.setTorchMode p enable s) =
    match Android.cameraManager p with
    | None => Thrown (Android.TorchExc Android.CameraServiceUnavailable)
    | Some manager =>
        if Android.SDK_INT p <? Android.MIN_API_LEVEL
        then Thrown (Android.TorchExc Android.ApiLevelTooLow)
        else match Android.resolved p s with
             | None => Thrown (Android.TorchExc Android.NoFlashAvailable)
             | Some cid =>
                 if Bool.eqb (Android.isTorchOn s) enable then Done tt
                 else match Android.setTorchModeError manager with
                      | None => Done tt
                      | Some e =>
                          Thrown (Android.TorchExc
                                    (Android.AccessFailed (Android.getMessage e)))
                      end
             end
    end.
Proof.
  destruct (Android.cameraManager p) as [manager | ] eqn:Hm.
  2:{ unfold Android.setTorchMode. rewrite Hm. reflexivity. }
  destruct (Android.SDK_INT p <? Android.MIN_API_LEVEL) eqn:Hsdk.
  { unfold Android.setTorchMode. rewrite Hm, Hsdk. reflexivity. }
  destruct (Android.resolved p s) as [cid | ] eqn:Hres.
  - rewrite (Android_setTorchMode_spec p manager cid enable s); [reflexivity | ].
    unfold Android.torchCamera. rewrite Hm, Hres.
    replace (Android.MIN_API_LEVEL <=? Android.SDK_INT p) with true
      by (symmetry; apply Z.leb_le; apply Z.ltb_ge; exact Hsdk).
    reflexivity.
  - destruct (Android_ensureCameraId_spec p s) as (He & _ & _).
    unfold Android.setTorchMode. rewrite Hm, Hsdk.
    unfold Eff.bind at 1. unfold Eff.orThrow, Eff.ret at 1.
    unfold Eff.bind at 1. unfold Eff.when, Eff.ret at 1.
    unfold Eff.bind at 1. rewrite He, Hres. eff. reflexivity.
Qed.

Lemma Android_handling_result {X} (m : Android.T X) (s : Android.State) :
  Eff.result (Android.handling m s) =
    match Eff.result (m s) with
    | Thrown (Android.TorchExc te) => Thrown (At.structured te)
    | r => r
    end.
Proof.
  unfold Android.handling, Eff.catch. destruct (m s) as [[[x | [e | te | j]] s1] t1];
    reflexivity.
Qed.

Lemma Android_switch_result (p : Android.Platform) (c : Android.Call) (s : Android.State) :
  c = Android.CallOn \/ c = Android.CallOff \/ c = Android.CallToggle ->
  exists enable,
    Eff.result (Android.perform p c s) =
      match Eff.result (Android.setTorchMode p enable s) with
      | Thrown (Android.TorchExc te) => Thrown (At.structured te)
      | r => r
      end.
Proof.
  intros [-> | [-> | ->]]; cbn [Android.perform].
  - exists true. apply Android_handling_result.
  - exists false. apply Android_handling_result.
  - exists (negb (Android.isTorchOn s)). unfold Android.toggle.
    rewrite Android_handling_result, Eff_bind_get. reflexivity.
Qed.

(** X18.  What [on], [off] and [toggle] reject with on Android: always the
    structured error of [handleTorchException]; its code is
    [CameraServiceUnavailable] without a camera service, else
    [ApiLevelTooLow] below API 23, else [NoFlashAvailable] without a camera,
    else [AccessFailed], the camera service having refused. *)
Theorem android_switch_errors (p : Android.Platform) (c : Android.Call) (s : Android.State)
        (e : Android.Throwable) :
  c = Android.CallOn \/ c = Android.CallOff \/ c = Android.CallToggle ->
  Eff.result (Android.perform p c s) = Thrown e ->
  exists te,
    e = At.structured te /\
    Android.codeOf te =
      match Android.cameraManager p with
      | None => "CameraServiceUnavailable"%string
      | Some _ =>
          if Android.SDK_INT p <? Android.MIN_API_LEVEL then "ApiLevelTooLow"%string
          else match Android.resolved p s with
               | None => "NoFlashAvailable"%string
               | Some _ => "AccessFailed"%string
               end
      end.
Proof.
  intros Hc H. destruct (Android_switch_result p c s Hc) as (enable & Hr).
  rewrite Hr, Android_setTorchMode_result in H. clear Hr.
  destruct (Android.cameraManager p) as [manager | ].
  2:{ injection H as <-. eexists. split; reflexivity. }
  destruct (Android.SDK_INT p <? Android.MIN_API_LEVEL).
  { injection H as <-. eexists. split; reflexivity. }
  destruct (Android.resolved p s) as [cid | ].
  2:{ injection H as <-. eexists. split; reflexivity. }
  destruct (Bool.eqb (Android.isTorchOn s) enable); [discriminate | ].
  destruct (Android.setTorchModeError manager) as [x | ]; [ | discriminate].
  injection H as <-. eexists. split; reflexivity.
Qed.

Lemma android_switch_errors_witness :
  exists te, At.structured Android.CameraServiceUnavailable = At.structured te /\
             Android.codeOf te = "CameraServiceUnavailable"%string.
Proof.
  exact (android_switch_errors Sample.serviceless Android.CallToggle
           (Android.init Sample.serviceless)
           (At.structured Android.CameraServiceUnavailable)
           (or_intror (or_intror eq_refl)) eq_refl).
Defined.

(* ================================================================== *)
(** * Android: [setLevel] and [getMaxLevel] *)
(* ================================================================== *)

Lemma Android_getCameraCharacteristics_fails (manager : Android.CameraManager) (cid : string)
      (s : Android.State) :
  Android.characteristicsOf manager cid = None ->
  exists x, Android.getCameraCharacteristics manager cid s =
              (Thrown (Android.Exc x), s, [Android.GetCameraCharacteristics cid]).
Proof.
  unfold Android.characteristicsOf, Android.getCameraCharacteristics. intros H.
  destruct (Android.cameras manager) as [cs | ]; [ | eexists; reflexivity].
  destruct (find _ cs) as [c | ]; [ | eexists; reflexivity].
  rewrite H. eexists; reflexivity.
Qed.

(** [setLevel] where the strength cannot be read. *)
Lemma Android_setLevel_early (p : Android.Platform) (level : binary) (s : Android.State) :
  Android.strengthCamera p s = None ->
  exists e s' t,
    Android.setLevel p level s = (Thrown e, s', t) /\
    filter Android.isTorchCommand t = [] /\
    (if Android.SDK_INT p <? Android.VERSION_CODES_TIRAMISU
     then e = At.structured Android.ApiLevelTooLow
     else match Android.cameraManager p, Android.resolved p s with
          | None, _ => e = At.structured Android.CameraServiceUnavailable
          | Some _, None => e = At.structured Android.NoFlashAvailable
          | Some _, Some _ => exists x, e = Android.Exc x
          end).
Proof.
  intros Hcam. unfold Android.strengthCamera in Hcam. unfold Android.setLevel.
  destruct (Android.SDK_INT p <? Android.VERSION_CODES_TIRAMISU) eqn:Hsdk.
  { eexists _, _, _. repeat split. }
  destruct (Android.cameraManager p) as [manager | ] eqn:Hm.
  2:{ eexists _, _, _. repeat split. }
  destruct (Android_ensureCameraId_spec p s) as (He & _ & _).
  destruct (Android_probes_filtered p s) as [Hpc _].
  unfold Eff.bind at 1. unfold Eff.when, Eff.ret at 1.
  unfold Eff.bind at 1. unfold Eff.ret at 1.
  unfold Eff.bind at 1. rewrite He.
  unfold Eff.bind at 1. unfold Eff.get at 1.
  cbn [Android.cameraId Android.set_cameraId].
  destruct (Android.resolved p s) as [cid | ] eqn:Hres.
  - replace (Android.VERSION_CODES_TIRAMISU <=? Android.SDK_INT p) with true in Hcam
      by (symmetry; apply Z.leb_le; apply Z.ltb_ge; exact Hsdk).
    destruct (Android.characteristicsOf manager cid) as [ch | ] eqn:Hch; [discriminate | ].
    unfold Eff.bind at 1. unfold Eff.ret at 1. unfold Eff.bind at 1.
    destruct (Android_getCameraCharacteristics_fails manager cid
                (Android.set_cameraId (Some cid) s) Hch) as (x & ->).
    eexists (Android.Exc x), _, _. cbn [app]. split; [reflexivity | ].
    rewrite !filter_app, Hpc. repeat split. exists x. reflexivity.
  - eexists _, _, _. unfold Android.handleTorchException. eff. cbn [app].
    split; [reflexivity | ]. rewrite !app_nil_r. split; [exact Hpc | reflexivity].
Qed.

(** X19.  What [setLevel] rejects with on Android.  Below API 33 the error
    is [ApiLevelTooLow], whose text names API 23, and nothing has been
    looked at or changed.  A structured error of [setLevel] is one that
    [handleTorchException] builds, never has the code [AccessFailed], and is
    thrown before the camera service is asked for a strength. *)
Theorem android_setLevel_errors (p : Android.Platform) (level : binary) (s : Android.State)
        (e : Android.Throwable) :
  Eff.result (Android.setLevel p level s) = Thrown e ->
  (Android.SDK_INT p < Android.VERSION_CODES_TIRAMISU ->
   Android.setLevel p level s =
     (Thrown (Android.Error {| Android.code := "ApiLevelTooLow"%string;
                               Android.json_message :=
                                 "Android API 23 or higher is required"%string |}), s, [])) /\
  (forall json, e = Android.Error json ->
                (exists te, e = At.structured te) /\
                Android.code json <> "AccessFailed"%string /\
                filter Android.isTorchCommand (Eff.trace (Android.setLevel p level s)) = []).
Proof.
  intros H. split.
  - intros Hsdk. unfold Android.setLevel.
    replace (Android.SDK_INT p <? Android.VERSION_CODES_TIRAMISU) with true
      by (symmetry; apply Z.ltb_lt; exact Hsdk).
    reflexivity.
  - intros json ->. destruct (Android.strengthCamera p s) as [[[manager cid] maxLevel] | ] eqn:Hcam.
    + rewrite (Android_setLevel_spec p manager cid maxLevel level s Hcam) in H |- *.
      cbn [Eff.result Eff.trace fst snd] in H |- *.
      destruct (Android_probes_filtered p s) as [Hpc _].
      destruct (maxLevel <=? 1).
      * injection H as <-. cbn [orb]. rewrite filter_app, Hpc.
        repeat split; [ | discriminate].
        exists Android.BrightnessControlNotSupported. reflexivity.
      * destruct (Android.invalidLevel level maxLevel); [discriminate | ].
        destruct (Android.turnOnTorchWithStrengthLevelError manager) as [[msg | msg] | ];
          discriminate.
    + destruct (Android_setLevel_early p level s Hcam) as (e' & s' & t' & He' & Ht & Hk).
      rewrite He' in H |- *. cbn [Eff.result Eff.trace fst snd] in H |- *.
      injection H as ->. split; [ | split; [ | exact Ht]].
      * destruct (Android.SDK_INT p <? Android.VERSION_CODES_TIRAMISU).
        { exists Android.ApiLevelTooLow. exact Hk. }
        destruct (Android.cameraManager p), (Android.resolved p s).
        -- destruct Hk as (x & Hk). discriminate.
        -- exists Android.NoFlashAvailable. exact Hk.
        -- exists Android.CameraServiceUnavailable. exact Hk.
        -- exists Android.CameraServiceUnavailable. exact Hk.
      * destruct (Android.SDK_INT p <? Android.VERSION_CODES_TIRAMISU).
        { injection Hk as ->. discriminate. }
        destruct (Android.cameraManager p), (Android.resolved p s).
        -- destruct Hk as (x & Hk). discriminate.
        -- injection Hk as ->. discriminate.
        -- injection Hk as ->. discriminate.
        -- injection Hk as ->. discriminate.
Qed.

Lemma android_setLevel_errors_witness :
  Android.setLevel {| Android.SDK_INT := 30;
                      Android.cameraManager := Some (Sample.service (Some 5)) |}
    (Double.of_Z 3) (Android.init Sample.pixel) =
    (Thrown (Android.Error {| Android.code := "ApiLevelTooLow"%string;
                              Android.json_message :=
                                "Android API 23 or higher is required"%string |}),
     Android.init Sample.pixel, []).
Proof.
  refine (proj1 (android_setLevel_errors
                   {| Android.SDK_INT := 30;
                      Android.cameraManager := Some (Sample.service (Some 5)) |}
                   (Double.of_Z 3) (Android.init Sample.pixel)
                   (At.structured Android.ApiLevelTooLow) eq_refl) _).
  cbn. unfold Android.VERSION_CODES_TIRAMISU. lia.
Defined.

Lemma Android_getMaxLevel_unreadable (p : Android.Platform) (dynamic : option bool)
      (s : Android.State) :
  Android.strengthCamera p s = None ->
  Eff.result (Android.getMaxLevel p dynamic s) = Done None.
Proof.
  intros Hcam. unfold Android.strengthCamera in Hcam.
  destruct (Android.SDK_INT p <? Android.VERSION_CODES_TIRAMISU) eqn:Hsdk.
  { apply Android_getMaxLevel_none. left. apply Z.ltb_lt, Hsdk. }
  destruct (Android.resolved p s) as [cid | ] eqn:Hres.
  2:{ apply Android_getMaxLevel_none. right. exact Hres. }
  destruct (Android_ensureCameraId_spec p s) as (He & _ & _).
  unfold Android.getMaxLevel. rewrite Hsdk.
  unfold Eff.bind at 1. rewrite He, Hres.
  unfold Eff.bind at 1. unfold Eff.get at 1.
  cbn [Android.cameraId Android.set_cameraId].
  destruct (Android.cameraManager p) as [manager | ]; [ | reflexivity].
  replace (Android.VERSION_CODES_TIRAMISU <=? Android.SDK_INT p) with true in Hcam
    by (symmetry; apply Z.leb_le; apply Z.ltb_ge; exact Hsdk).
  destruct (Android.characteristicsOf manager cid) as [ch | ] eqn:Hch; [discriminate | ].
  unfold Eff.catch, Eff.bind.
  destruct (Android_getCameraCharacteristics_fails manager cid
              (Android.set_cameraId (Some cid) s) Hch) as (x & ->).
  reflexivity.
Qed.

(** X20.  [getMaxLevel] on Android never throws, notifies nothing, drives
    nothing and leaves [isTorchOn] and the level on record alone; its answer
    is [null] or a whole number above 1, never 1 or less. *)
Theorem android_getMaxLevel_is_safe (p : Android.Platform) (dynamic : option bool)
        (s : Android.State) :
  let r := Android.getMaxLevel p dynamic s in
  (Eff.result r = Done None \/
   exists maxLevel, 1 < maxLevel /\ Eff.result r = Done (Some (Double.of_Z maxLevel))) /\
  filter Android.isTorchCommand (Eff.trace r) = [] /\
  filter Android.isNotification (Eff.trace r) = [] /\
  Heard.Android_view s (Eff.state r).
Proof.
  cbn zeta. split; [ | split; [ | split]].
  - destruct (Android.strengthCamera p s) as [[[manager cid] maxLevel] | ] eqn:Hcam.
    + rewrite (Android_getMaxLevel_spec p manager cid maxLevel dynamic s Hcam).
      destruct (maxLevel <=? 1) eqn:H1; [left; reflexivity | right].
      exists maxLevel. split; [apply Z.leb_gt, H1 | reflexivity].
    + left. apply Android_getMaxLevel_unreadable, Hcam.
  - unfold Android.getMaxLevel.
    destruct (Android.SDK_INT p <? Android.VERSION_CODES_TIRAMISU); [reflexivity | ].
    destruct (Android_ensureCameraId_spec p s) as (He & _ & _).
    destruct (Android_probes_filtered p s) as [Hpc _].
    unfold Eff.bind at 1. rewrite He.
    unfold Eff.bind at 1. unfold Eff.get at 1.
    cbn [Android.cameraId Android.set_cameraId].
    destruct (Android.resolved p s) as [cid | ];
      [ | cbn [Eff.ret Eff.trace snd]; rewrite !app_nil_r; exact Hpc].
    destruct (Android.cameraManager p) as [manager | ];
      [ | cbn [Eff.ret Eff.trace snd]; rewrite !app_nil_r; exact Hpc].
    destruct (Android_getCameraCharacteristics_stateless manager cid) as (r0 & t0 & Hst).
    pose proof (Android_silent_getCameraCharacteristics
                  Android_view_refl Android_view_trans manager cid s) as [_ Hn].
    unfold Eff.catch, Eff.bind. rewrite Hst.
    assert (Ht0 : filter Android.isTorchCommand t0 = []).
    { specialize (Hst s). unfold Android.getCameraCharacteristics in Hst. revert Hst. eff.
      destruct (Android.cameras manager) as [cs | ].
      - destruct (find _ cs) as [c | ].
        + destruct (Android.characteristics c); intros [= <- <-]; reflexivity.
        + intros [= <- <-]; reflexivity.
      - intros [= <- <-]; reflexivity. }
    destruct r0 as [ch | [x | te | j]]; cbv zeta; try destruct (_ <=? 1);
      cbn [Eff.ret Eff.throw Eff.trace snd]; rewrite !filter_app, Hpc, ?Ht0; reflexivity.
  - apply (Android_silent_getMaxLevel Android_view_refl Android_view_trans p dynamic
             (fun s0 => Android_view_cameraId _ s0) s).
  - apply (Android_silent_getMaxLevel Android_view_refl Android_view_trans p dynamic
             (fun s0 => Android_view_cameraId _ s0) s).
Qed.

(** X21.  [getMaxLevel] and [setLevel] agree on Android: where [getMaxLevel]
    answers [null], [setLevel] rejects every level and the torch is not
    driven. *)
Theorem android_no_maximum_no_level (p : Android.Platform) (dynamic : option bool)
        (level : binary) (s : Android.State) :
  Eff.result (Android.getMaxLevel p dynamic s) = Done None ->
  (exists e, Eff.result (Android.setLevel p level s) = Thrown e) /\
  filter Android.isTorchCommand (Eff.trace (Android.setLevel p level s)) = [].
Proof.
  intros H. destruct (Android.strengthCamera p s) as [[[manager cid] maxLevel] | ] eqn:Hcam.
  - rewrite (Android_getMaxLevel_spec p manager cid maxLevel dynamic s Hcam) in H.
    destruct (maxLevel <=? 1) eqn:H1; [ | discriminate].
    rewrite (Android_setLevel_spec p manager cid maxLevel level s Hcam), H1.
    cbn [Eff.result Eff.trace fst snd orb]. split; [eexists; reflexivity | ].
    rewrite filter_app, (proj1 (Android_probes_filtered p s)). reflexivity.
  - destruct (Android_setLevel_early p level s Hcam) as (e & s' & t & He & Ht & _).
    rewrite He. split; [exists e; reflexivity | exact Ht].
Qed.

Lemma android_no_maximum_no_level_witness :
  filter Android.isTorchCommand
    (Eff.trace (Android.setLevel (Sample.phone (Some 1)) (Double.of_Z 1)
                  (Android.init (Sample.phone (Some 1))))) = [].
Proof.
  exact (proj2 (android_no_maximum_no_level (Sample.phone (Some 1)) None (Double.of_Z 1)
                  (Android.init (Sample.phone (Some 1))) eq_refl)).
Defined.

(* ================================================================== *)
(** * Android: [dispose] *)
(* ================================================================== *)

Lemma Android_dispose_done (p : Android.Platform) (s : Android.State) :
  Eff.result (Android.dispose p s) = Done tt.
Proof.
  unfold Android.dispose, Eff.catch.
  match goal with |- context [Eff.bind ?m ?k s] => destruct (Eff.bind m k s) as [[[[] | e] s1] t1] end;
    reflexivity.
Qed.

(** [dispose] where the camera service refuses to switch the torch off. *)
Lemma Android_dispose_refused (p : Android.Platform) (manager : Android.CameraManager)
      (cid : string) (x : Android.Exception) (s : Android.State) :
  Android.isTorchOn s = true -> Android.MIN_API_LEVEL <= Android.SDK_INT p ->
  Android.cameraId s = Some cid -> Android.cameraManager p = Some manager ->
  Android.setTorchModeError manager = Some x ->
  Android.dispose p s = (Done tt, s, [Android.SetTorchMode cid false]).
Proof.
  intros Hon Hsdk Hid Hm Hx. unfold Android.dispose, Eff.catch.
  rewrite Eff_bind_get, Hon, Hid, Hm, Hx.
  replace (Android.MIN_API_LEVEL <=? Android.SDK_INT p) with true
    by (symmetry; apply Z.leb_le; exact Hsdk).
  reflexivity.
Qed.

(** [dispose] where nothing is thrown on the way. *)
Lemma Android_dispose_through (p : Android.Platform) (s : Android.State) :
  let switching := Android.isTorchOn s && (Android.MIN_API_LEVEL <=? Android.SDK_INT p) in
  (switching = true ->
   forall cid manager, Android.cameraId s = Some cid ->
                       Android.cameraManager p = Some manager ->
                       Android.setTorchModeError manager = None) ->
  Android.dispose p s =
    (Done tt,
     {| Android.cameraId := None;
        Android.isTorchOn :=
          match Android.cameraId s with
          | Some _ => if switching then false else Android.isTorchOn s
          | None => Android.isTorchOn s
          end;
        Android.previousLevel := None;
        Android.torchCallbackRegistered :=
          match Android.cameraManager p with
          | Some manager =>
              match Android.unregisterTorchCallbackError manager with
              | None => false
              | Some _ => Android.torchCallbackRegistered s
              end
          | None => Android.torchCallbackRegistered s
          end |},
     match Android.cameraId s, Android.cameraManager p with
     | Some cid, Some _ => if switching then [Android.SetTorchMode cid false] else []
     | _, _ => []
     end
     ++ match Android.cameraManager p with
        | Some _ => [Android.UnregisterTorchCallback]
        | None => []
        end).
Proof.
  cbn zeta. intros Hok. unfold Android.dispose, Eff.catch. rewrite Eff_bind_get.
  destruct (Android.isTorchOn s && (Android.MIN_API_LEVEL <=? Android.SDK_INT p)) eqn:Hsw.
  - destruct (Android.cameraId s) as [cid | ] eqn:Hid.
    + destruct (Android.cameraManager p) as [manager | ] eqn:Hm.
      * rewrite (Hok eq_refl cid manager eq_refl eq_refl).
        destruct (Android.unregisterTorchCallbackError manager); destruct s; reflexivity.
      * destruct s; reflexivity.
    + destruct (Android.cameraManager p) as [manager | ] eqn:Hm.
      * destruct (Android.unregisterTorchCallbackError manager); destruct s;
          cbn in Hid |- *; subst; reflexivity.
      * destruct s; cbn in Hid |- *; subst; reflexivity.
  - destruct (Android.cameraId s) as [cid | ] eqn:Hid;
      destruct (Android.cameraManager p) as [manager | ] eqn:Hm;
      try destruct (Android.unregisterTorchCallbackError manager);
      destruct s; cbn in Hid |- *; subst; reflexivity.
Qed.

(** X22.  [dispose] on Android never throws and tells the listener nothing,
    not even that the torch went off.  With the torch on, API 23 and a
    camera chosen it asks the camera service to switch the torch off, then
    records the torch off and forgets the camera and the level; if the
    service refuses, nothing is cleaned up: the state is as before, the
    callback still registered.  With the torch off, or on without a camera
    chosen, no torch command is issued, [isTorchOn] stays, and the camera
    and the level are forgotten. *)
Theorem android_dispose_contract (p : Android.Platform) (s : Android.State) :
  let r := Android.dispose p s in
  Eff.result r = Done tt /\
  filter Android.isNotification (Eff.trace r) = [] /\
  (forall cid manager,
      Android.isTorchOn s = true -> Android.MIN_API_LEVEL <= Android.SDK_INT p ->
      Android.cameraId s = Some cid -> Android.cameraManager p = Some manager ->
      match Android.setTorchModeError manager with
      | None =>
          filter Android.isTorchCommand (Eff.trace r) = [Android.SetTorchMode cid false] /\
          Android.isTorchOn (Eff.state r) = false /\
          Android.cameraId (Eff.state r) = None /\
          Android.previousLevel (Eff.state r) = None
      | Some _ =>
          Eff.state r = s /\ Eff.trace r = [Android.SetTorchMode cid false]
      end) /\
  (Android.isTorchOn s = false \/ Android.cameraId s = None ->
   filter Android.isTorchCommand (Eff.trace r) = [] /\
   Android.isTorchOn (Eff.state r) = Android.isTorchOn s /\
   Android.cameraId (Eff.state r) = None /\
   Android.previousLevel (Eff.state r) = None).
Proof.
  cbn zeta. split; [apply Android_dispose_done | ].
  split; [apply (Android_silent_dispose p s) | ]. split.
  - intros cid manager Hon Hsdk Hid Hm.
    destruct (Android.setTorchModeError manager) as [x | ] eqn:Hx.
    + rewrite (Android_dispose_refused p manager cid x s Hon Hsdk Hid Hm Hx). auto.
    + rewrite Android_dispose_through.
      2:{ intros _ cid' manager' _ Hm'. rewrite Hm in Hm'. injection Hm' as <-. exact Hx. }
      cbn [Eff.state Eff.trace fst snd Android.isTorchOn Android.cameraId
           Android.previousLevel].
      rewrite Hon, Hid, Hm.
      replace (Android.MIN_API_LEVEL <=? Android.SDK_INT p) with true
        by (symmetry; apply Z.leb_le; exact Hsdk).
      cbn. auto.
  - intros Hoff. rewrite Android_dispose_through.
    2:{ intros Hsw cid manager Hid _. destruct Hoff as [Hoff | Hoff].
        - rewrite Hoff in Hsw. discriminate.
        - rewrite Hoff in Hid. discriminate. }
    cbn [Eff.state Eff.trace fst snd Android.isTorchOn Android.cameraId Android.previousLevel].
    destruct Hoff as [Hoff | Hoff]; rewrite Hoff.
    + cbn [andb]. destruct (Android.cameraId s), (Android.cameraManager p); cbn; auto.
    + destruct (Android.cameraManager p); cbn; auto.
Qed.

Lemma android_dispose_contract_witness :
  Eff.state
    (Android.dispose
       {| Android.SDK_INT := 34;
          Android.cameraManager :=
            Some {| Android.cameras := Some [Sample.front; Sample.back (Some 5)];
                    Android.setTorchModeError :=
                      Some (Android.CameraAccessException "camera in use");
                    Android.turnOnTorchWithStrengthLevelError := None;
                    Android.registerTorchCallbackError := None;
                    Android.unregisterTorchCallbackError := None |} |}
       {| Android.cameraId := Some "0"%string; Android.isTorchOn := true;
          Android.previousLevel := Some (Double.of_Z 3);
          Android.torchCallbackRegistered := true |})
  = {| Android.cameraId := Some "0"%string; Android.isTorchOn := true;
       Android.previousLevel := Some (Double.of_Z 3);
       Android.torchCallbackRegistered := true |}.
Proof.
  refine (proj1 (proj1 (proj2 (proj2 (android_dispose_contract
     {| Android.SDK_INT := 34;
        Android.cameraManager :=
          Some {| Android.cameras := Some [Sample.front; Sample.back (Some 5)];
                  Android.setTorchModeError :=
                    Some (Android.CameraAccessException "camera in use");
                  Android.turnOnTorchWithStrengthLevelError := None;
                  Android.registerTorchCallbackError := None;
                  Android.unregisterTorchCallbackError := None |} |}
     {| Android.cameraId := Some "0"%string; Android.isTorchOn := true;
        Android.previousLevel := Some (Double.of_Z 3);
        Android.torchCallbackRegistered := true |})))
     "0"%string _ eq_refl _ eq_refl eq_refl)).
  cbn. unfold Android.MIN_API_LEVEL, Android.VERSION_CODES_M. lia.
Defined.

(* ================================================================== *)
(** * A level that is not a number *)
(* ================================================================== *)

(** X23.  NaN as a level.  iOS rejects it as a level out of range.  On
    Android both comparisons of the range check are false for it, so it
    passes the check, and the camera service is asked for the strength 0. *)
Theorem nan_level :
  (forall (hw : Ios.Hardware) (s : Ios.State),
      Ios.setLevel hw S754_nan s =
        (Thrown {| Ios.err_code := "AccessFailed";
                   Ios.err_message := "Failed: Level must be between 1 and 10" |}, s, [])) /\
  (forall (p : Android.Platform) (manager : Android.CameraManager) (cid : string)
          (maxLevel : Z) (s : Android.State),
      Android.strengthCamera p s = Some (manager, cid, maxLevel) ->
      1 < maxLevel ->
      filter Android.isTorchCommand (Eff.trace (Android.setLevel p S754_nan s)) =
        [Android.TurnOnTorchWithStrengthLevel cid 0]).
Proof.
  split.
  - intros hw s. apply Ios_setLevel_rejects. reflexivity.
  - intros p manager cid maxLevel s Hcam Hmax.
    rewrite (Android_setLevel_spec p manager cid maxLevel S754_nan s Hcam).
    replace (maxLevel <=? 1) with false by (symmetry; apply Z.leb_gt; exact Hmax).
    assert (Hv : Android.invalidLevel S754_nan maxLevel = false).
    { unfold Android.invalidLevel, IEEE.ltb, SFltb.
      destruct (Double.of_Z maxLevel); reflexivity. }
    rewrite Hv. cbn [Eff.trace snd orb].
    rewrite filter_app, (proj1 (Android_probes_filtered p s)). reflexivity.
Qed.

Lemma nan_level_witness :
  filter Android.isTorchCommand
    (Eff.trace (Android.setLevel Sample.pixel S754_nan (Android.init Sample.pixel))) =
    [Android.TurnOnTorchWithStrengthLevel "0" 0].
Proof.
  refine (proj2 nan_level Sample.pixel (Sample.service (Some 5)) "0"%string 5
            (Android.init Sample.pixel) eq_refl _).
  lia.
Defined.

(* ================================================================== *)
(** * The pattern of [parseTorchError] *)
(* ================================================================== *)

Lemma string_app_assoc (a b c : string) : ((a ++ b) ++ c = a ++ (b ++ c))%string.
Proof. induction a as [ | x a IH]; cbn; [reflexivity | rewrite IH; reflexivity]. Qed.

Lemma prefix_app (pat s x : string) :
  String.prefix pat s = true -> String.prefix pat (s ++ x) = true.
Proof.
  revert s. induction pat as [ | a pat IH]; intros s;
    [intros _; destruct (s ++ x)%string; reflexivity | ].
  destruct s as [ | b s]; cbn; [discriminate | ].
  destruct (Ascii.ascii_dec a b); [apply IH | discriminate].
Qed.

Lemma after_first_app (pat s x : string) :
  Js.after_first pat s <> None -> Js.after_first pat (s ++ x) <> None.
Proof.
  induction s as [ | c s IH].
  - cbn [Js.after_first]. destruct (String.prefix pat "") eqn:Hp.
    + intros _. destruct pat; [ | discriminate]. cbn. destruct x; cbn; discriminate.
    + congruence.
  - cbn [Js.after_first append].
    destruct (String.prefix pat (String c s)) eqn:Hp.
    + intros _. change (String c (s ++ x)) with (String c s ++ x)%string.
      rewrite (prefix_app _ _ x Hp). discriminate.
    + intros H. specialize (IH H).
      destruct (String.prefix pat (String c (s ++ x))); [discriminate | exact IH].
Qed.

Lemma after_first_cons (pat : string) (c : ascii) (s : string) :
  Js.after_first pat s <> None -> Js.after_first pat (String c s) <> None.
Proof.
  intros H. cbn [Js.after_first].
  destruct (String.prefix pat (String c s)); [discriminate | exact H].
Qed.

Lemma before_rbrace_spec (r inner : string) :
  Js.before_rbrace r = Some inner ->
  exists after, r = (inner ++ "}" ++ after)%string /\
                Js.before_rbrace (inner ++ "}") = Some inner.
Proof.
  revert inner. induction r as [ | c r IH]; intros inner; cbn [Js.before_rbrace];
    [discriminate | ].
  destruct (Js.is_char c Js.rbrace) eqn:Hc.
  - intros [= <-]. exists r. split; [ | reflexivity].
    unfold Js.is_char, Js.rbrace in Hc. apply Nat.eqb_eq in Hc.
    assert (c = "}"%char) as ->
        by (rewrite <- (ascii_nat_embedding c), Hc; reflexivity).
    reflexivity.
  - destruct (Js.before_rbrace r) as [inner' | ]; [ | discriminate].
    intros [= <-]. destruct (IH inner' eq_refl) as (after & -> & Hb).
    exists after. split; [reflexivity | ].
    cbn [append Js.before_rbrace]. rewrite Hc, Hb. reflexivity.
Qed.

Lemma jsonMatch_spec (text matched : string) :
  Js.jsonMatch text = Some matched ->
  exists inner,
    matched = ("{" ++ inner ++ "}")%string /\
    Wire.braced inner text /\
    Js.type_then_message inner = true.
Proof.
  induction text as [ | c r IH]; cbn [Js.jsonMatch]; [discriminate | ].
  assert (Hrest : Js.jsonMatch r = Some matched ->
                  exists inner,
                    matched = ("{" ++ inner ++ "}")%string /\
                    Wire.braced inner (String c r) /\
                    Js.type_then_message inner = true).
  { intros H. destruct (IH H) as (inner & Hm & (before & after & Hr & Hb) & Ht).
    exists inner. split; [exact Hm | split; [ | exact Ht]].
    exists (String c before), after. rewrite Hr. split; [reflexivity | exact Hb]. }
  destruct (Js.is_char c Js.lbrace) eqn:Hc; [ | exact Hrest].
  destruct (Js.before_rbrace r) as [inner | ] eqn:Hb; [ | discriminate].
  destruct (Js.type_then_message inner) eqn:Ht; [ | exact Hrest].
  intros [= <-]. exists inner.
  unfold Js.is_char, Js.lbrace in Hc. apply Nat.eqb_eq in Hc.
  assert (c = "{"%char) as -> by (rewrite <- (ascii_nat_embedding c), Hc; reflexivity).
  split; [reflexivity | split; [ | exact Ht]].
  destruct (before_rbrace_spec r inner Hb) as (after & -> & Hb').
  exists ""%string, after. split; [reflexivity | exact Hb'].
Qed.

(** X24.  What the pattern of [parseTorchError] extracts from a message is
    the text from a [{] to the first [}] after it, and only where the quoted
    words type and then message stand in between. *)
Theorem pattern_match_is_a_braced_object (text matched : string) :
  Js.jsonMatch text = Some matched ->
  exists inner,
    matched = ("{" ++ inner ++ "}")%string /\
    Wire.braced inner text /\
    Js.type_then_message inner = true.
Proof. apply jsonMatch_spec. Qed.

Lemma pattern_match_is_a_braced_object_witness :
  exists inner,
    ("{" ++ Js.quoted "type" ++ ":1," ++ Js.quoted "message" ++ ":2}")%string
      = ("{" ++ inner ++ "}")%string /\
    Wire.braced inner
      ("on(): {" ++ Js.quoted "type" ++ ":1," ++ Js.quoted "message" ++ ":2} {}")%string /\
    Js.type_then_message inner = true.
Proof.
  apply (pattern_match_is_a_braced_object
           ("on(): {" ++ Js.quoted "type" ++ ":1," ++ Js.quoted "message" ++ ":2} {}")%string).
  vm_compute. reflexivity.
Defined.

Lemma type_then_message_needs_type (inner : string) :
  Js.type_then_message inner = true -> Js.after_first (Js.quoted "type") inner <> None.
Proof.
  unfold Js.type_then_message.
  destruct (Js.after_first (Js.quoted "type") inner); [discriminate | discriminate].
Qed.

Lemma after_first_within (pat before inner after : string) :
  Js.after_first pat inner <> None ->
  Js.after_first pat (before ++ "{" ++ inner ++ "}" ++ after) <> None.
Proof.
  intros H. induction before as [ | c before IH].
  - cbn [append]. apply after_first_cons, after_first_app, H.
  - cbn [append]. apply after_first_cons, IH.
Qed.

(** X25.  A message without the quoted word type is never matched by the
    pattern of [parseTorchError]: an [Error] with such a message is
    classified by [JSON.parse] of the whole message, and where that is no
    JSON it comes out [Unknown] with its message, whatever object the
    message holds. *)
Theorem message_without_type_is_parsed_whole (JSON_parse : string -> option Js.value)
        (errorMessage : string) :
  Js.after_first (Js.quoted "type") errorMessage = None ->
  errorMessage <> ""%string ->
  Js.jsonMatch errorMessage = None /\
  Js.candidate errorMessage = errorMessage /\
  (JSON_parse errorMessage = None ->
   Js.parseAndNormalizeError JSON_parse (Js.ErrorInstance errorMessage) =
     Some {| Js.message := Js.Str errorMessage; Js.code := Js.Str Js.Unknown |}).
Proof.
  intros Hty Hne.
  assert (Hm : Js.jsonMatch errorMessage = None).
  { destruct (Js.jsonMatch errorMessage) as [matched | ] eqn:Hm; [exfalso | reflexivity].
    destruct (jsonMatch_spec _ _ Hm) as (inner & _ & (before & after & Ht & _) & Htm).
    apply (after_first_within (Js.quoted "type") before inner after
             (type_then_message_needs_type inner Htm)).
    rewrite <- Ht. exact Hty. }
  assert (He : String.eqb errorMessage "" = false) by (apply String.eqb_neq; exact Hne).
  split; [exact Hm | ]. split.
  - unfold Js.candidate. rewrite He, Hm. reflexivity.
  - intros Hp. unfold Js.parseAndNormalizeError, Js.parseTorchError.
    rewrite He, Hm, Hp. reflexivity.
Qed.

Lemma message_without_type_is_parsed_whole_witness :
  Js.parseAndNormalizeError Js.JSON_parse
    (Js.ErrorInstance ("Torch.on(): " ++ Wire.object "NoFlashAvailable" "Device has no torch"))
  = Some {| Js.message :=
              Js.Str ("Torch.on(): " ++ Wire.object "NoFlashAvailable" "Device has no torch");
            Js.code := Js.Str Js.Unknown |}.
Proof.
  apply (message_without_type_is_parsed_whole Js.JSON_parse
           ("Torch.on(): " ++ Wire.object "NoFlashAvailable" "Device has no torch"));
    vm_compute; [reflexivity | discriminate | reflexivity].
Defined.

(* ================================================================== *)
(** * From [toJSON] to [parseAndNormalizeError] *)
(* ================================================================== *)

Lemma plainChar_inv (c : ascii) :
  Wire.plainChar c = true ->
  Js.is_char c Js.rbrace = false /\ Js.is_char c Js.lbrace = false /\
  Nat.eqb (Js.code_of c) 34 = false /\ Nat.eqb (Js.code_of c) 92 = false /\
  Nat.ltb (Js.code_of c) 32 = false.
Proof.
  unfold Wire.plainChar, Js.is_char, Js.rbrace, Js.lbrace, Js.code_of. cbv zeta.
  rewrite !andb_true_iff, !negb_true_iff. intros ((((H32 & H34) & H92) & H123) & H125).
  repeat split; try assumption. apply Nat.ltb_ge, Nat.leb_le, H32.
Qed.

Lemma plain_braceless (a : string) : Wire.plain a = true -> Wire.braceless a = true.
Proof.
  induction a as [ | c a IH]; [reflexivity | ]. cbn [Wire.plain Wire.braceless].
  intros H. apply andb_true_iff in H. destruct H as [Hc Ha].
  destruct (plainChar_inv c Hc) as (-> & -> & _). rewrite (IH Ha). reflexivity.
Qed.

Lemma braceless_app (a b : string) :
  Wire.braceless (a ++ b) = Wire.braceless a && Wire.braceless b.
Proof.
  induction a as [ | c a IH]; [reflexivity | ]. cbn [append Wire.braceless].
  rewrite IH, andb_assoc. reflexivity.
Qed.

Lemma before_rbrace_braceless (a b : string) :
  Wire.braceless a = true ->
  Js.before_rbrace (a ++ b) = option_map (append a) (Js.before_rbrace b).
Proof.
  intros Ha. induction a as [ | c a IH]; cbn [append Js.before_rbrace].
  - destruct (Js.before_rbrace b); reflexivity.
  - cbn [Wire.braceless] in Ha. rewrite !andb_true_iff, !negb_true_iff in Ha.
    destruct Ha as [[_ Hr] Ha]. rewrite Hr, (IH Ha).
    destruct (Js.before_rbrace b); reflexivity.
Qed.

Lemma jsonMatch_braceless (a b : string) :
  Wire.braceless a = true -> Js.jsonMatch (a ++ b) = Js.jsonMatch b.
Proof.
  intros Ha. induction a as [ | c a IH]; cbn [append Js.jsonMatch]; [reflexivity | ].
  cbn [Wire.braceless] in Ha. rewrite !andb_true_iff, !negb_true_iff in Ha.
  destruct Ha as [[Hl _] Ha]. rewrite Hl. apply IH, Ha.
Qed.

Lemma string_app_nil (a : string) : (a ++ "")%string = a.
Proof. induction a as [ | c a IH]; cbn; [reflexivity | rewrite IH; reflexivity]. Qed.

Lemma scan_string_plain (a rest : string) :
  Wire.plain a = true ->
  Js.scan_string (a ++ String (ascii_of_nat 34) rest) = Some (a, rest).
Proof.
  intros Ha. induction a as [ | c a IH].
  - reflexivity.
  - cbn [Wire.plain] in Ha. apply andb_true_iff in Ha. destruct Ha as [Hc Ha].
    destruct (plainChar_inv c Hc) as (_ & _ & H34 & H92 & H32).
    cbn [append Js.scan_string]. rewrite H34, H92, H32, (IH Ha). reflexivity.
Qed.

Lemma jsonMatch_lbrace (r : string) :
  Js.jsonMatch (String "{" r) =
    match Js.before_rbrace r with
    | Some inner =>
        if Js.type_then_message inner then Some (String "{" (inner ++ "}")) else Js.jsonMatch r
    | None => None
    end.
Proof. reflexivity. Qed.

(** In the object the pattern finds all of it or nothing. *)
Lemma Wire_object_candidate (code message : string) :
  Wire.plain code = true -> Wire.plain message = true ->
  Js.candidate (Wire.object code message) = Wire.object code message.
Proof.
  intros Hc Hm.
  set (inner := ((Js.quoted "code" ++ ":" ++ Js.dquote) ++ code ++ Wire.middle
                   ++ message ++ Js.dquote)%string).
  assert (Htext : Wire.object code message = String "{" (inner ++ "}")).
  { unfold inner, Wire.object, Wire.closing. rewrite !string_app_assoc. reflexivity. }
  assert (Hb : Wire.braceless inner = true).
  { unfold inner. rewrite !braceless_app, (plain_braceless _ Hc), (plain_braceless _ Hm).
    reflexivity. }
  unfold Js.candidate. rewrite Htext.
  change (String.eqb (String "{" (inner ++ "}")) "") with false. cbv iota.
  rewrite jsonMatch_lbrace, (before_rbrace_braceless inner "}" Hb).
  change (Js.before_rbrace "}") with (Some ""%string). cbn [option_map].
  rewrite string_app_nil.
  destruct (Js.type_then_message inner); [reflexivity | ].
  rewrite (jsonMatch_braceless inner "}" Hb). reflexivity.
Qed.

Lemma parse_value_string (fuel : nat) (a rest : string) :
  Wire.plain a = true ->
  Js.parse_value (S fuel) (String (ascii_of_nat 34) (a ++ String (ascii_of_nat 34) rest))
    = Some (Js.Str a, rest).
Proof.
  intros Ha.
  change (Js.parse_value (S fuel)
            (String (ascii_of_nat 34) (a ++ String (ascii_of_nat 34) rest)))
    with (option_map (fun '(chars, rest) => (Js.Str chars, rest))
            (Js.scan_string (a ++ String (ascii_of_nat 34) rest))).
  rewrite (scan_string_plain a rest Ha). reflexivity.
Qed.

Lemma parse_value_object (fuel : nat) (r : string) :
  Js.parse_value (S fuel) (String "{" (String (ascii_of_nat 34) r)) =
    option_map (fun '(ms, rest) => (Js.Object ms, rest))
      (Js.parse_members fuel (String (ascii_of_nat 34) r)).
Proof. reflexivity. Qed.

Lemma parse_members_step (fuel : nat) (key r : string) :
  Wire.plain key = true ->
  Js.parse_members (S fuel)
    (String (ascii_of_nat 34) (key ++ String (ascii_of_nat 34) (String ":" r))) =
    match Js.parse_value fuel r with
    | None => None
    | Some (v, r3) =>
        match Js.strip_prefix "," (Js.skip_ws r3), Js.strip_prefix "}" (Js.skip_ws r3) with
        | Some r4, _ =>
            option_map (fun '(ms, rest) => ((key, v) :: ms, rest))
              (Js.parse_members fuel r4)
        | None, Some rest => Some ([(key, v)], rest)
        | None, None => None
        end
    end.
Proof.
  intros Hk.
  transitivity
    (match Js.scan_string (key ++ String (ascii_of_nat 34) (String ":" r)) with
     | None => None
     | Some (key, r1) =>
         match Js.strip_prefix ":" (Js.skip_ws r1) with
         | None => None
         | Some r2 =>
             match Js.parse_value fuel r2 with
             | None => None
             | Some (v, r3) =>
                 match Js.strip_prefix "," (Js.skip_ws r3),
                       Js.strip_prefix "}" (Js.skip_ws r3) with
                 | Some r4, _ =>
                     option_map (fun '(ms, rest) => ((key, v) :: ms, rest))
                       (Js.parse_members fuel r4)
                 | None, Some rest => Some ([(key, v)], rest)
                 | None, None => None
                 end
             end
         end
     end); [reflexivity | ].
  rewrite (scan_string_plain key _ Hk). reflexivity.
Qed.

Lemma Wire_object_parse (code message : string) :
  Wire.plain code = true -> Wire.plain message = true ->
  Js.JSON_parse (Wire.object code message) =
    Some (Js.Object [("code"%string, Js.Str code); ("message"%string, Js.Str message)]).
Proof.
  intros Hc Hm. unfold Js.JSON_parse.
  assert (Hfuel : exists k, (2 * String.length (Wire.object code message) + 2
                             = S (S (S (S k))))%nat).
  { assert (Hn : exists n, String.length (Wire.object code message) = S n)
      by (unfold Wire.object, Wire.opening; cbn [append String.length]; eexists; reflexivity).
    destruct Hn as (n & ->). exists (2 * n)%nat. lia. }
  destruct Hfuel as (k & ->).
  change (Wire.object code message)
    with (String "{"
            (String (ascii_of_nat 34)
               ("code" ++ String (ascii_of_nat 34)
                  (String ":"
                     (String (ascii_of_nat 34)
                        (code ++ String (ascii_of_nat 34)
                           (String ","
                              (String (ascii_of_nat 34)
                                 ("message" ++ String (ascii_of_nat 34)
                                    (String ":"
                                       (String (ascii_of_nat 34)
                                          (message ++ String (ascii_of_nat 34)
                                             (String "}" EmptyString)))))))))))))%string.
  rewrite parse_value_object, (parse_members_step _ "code" _ eq_refl).
  rewrite (parse_value_string _ code _ Hc).
  cbv beta iota.
  match goal with
  | |- context [Js.strip_prefix "," (Js.skip_ws (String "," ?x))] =>
      change (Js.strip_prefix "," (Js.skip_ws (String "," x))) with (Some x)
  end.
  cbv beta iota.
  rewrite (parse_members_step _ "message" _ eq_refl), (parse_value_string _ message _ Hm).
  reflexivity.
Qed.

(** X26.  The text that [toJSON] of the iOS controller falls back on is read
    back by the classifier: where the message holds no quote, backslash,
    brace or control character, [parseAndNormalizeError] returns the code
    and the message of the error. *)
Theorem ios_fallback_is_read_back (e : Ios.TorchError) :
  Wire.plain (Ios.message e) = true ->
  Js.parseAndNormalizeError Js.JSON_parse (Js.ErrorInstance (Wire.Ios_fallback e)) =
    Some {| Js.message := Js.Str (Ios.err_message (Ios.toJSON e));
            Js.code := Js.Str (Ios.err_code (Ios.toJSON e)) |}.
Proof.
  intros Hm. assert (Hc : Wire.plain (Ios.code e) = true) by (destruct e; reflexivity).
  pose proof (Wire_object_candidate _ _ Hc Hm) as Hcand.
  pose proof (Wire_object_parse _ _ Hc Hm) as Hparse.
  unfold Wire.Ios_fallback. unfold Js.candidate in Hcand.
  unfold Js.parseAndNormalizeError, Js.parseTorchError.
  destruct (Js.jsonMatch _) as [matched | ]; rewrite Hcand, Hparse; reflexivity.
Qed.

Lemma ios_fallback_is_read_back_witness :
  Js.parseAndNormalizeError Js.JSON_parse
    (Js.ErrorInstance (Wire.Ios_fallback (Ios.failed "Level must be between 1 and 10"))) =
    Some {| Js.message := Js.Str "Failed: Level must be between 1 and 10";
            Js.code := Js.Str "AccessFailed" |}.
Proof.
  apply (ios_fallback_is_read_back (Ios.failed "Level must be between 1 and 10")).
  reflexivity.
Defined.

(* ================================================================== *)
(** * Android: a controller that is not listening *)
(* ================================================================== *)

Lemma Android_deliver_unregistered (p : Android.Platform) (n : Android.Notification)
      (s : Android.State) :
  Android.torchCallbackRegistered s = false ->
  Android.deliver p n s = (Done tt, s, []).
Proof. intros H. unfold Android.deliver. rewrite Eff_bind_get, H. reflexivity. Qed.

Lemma Android_dispose_registered (p : Android.Platform) (s : Android.State) :
  Android.torchCallbackRegistered s = false ->
  Android.torchCallbackRegistered (Eff.state (Android.dispose p s)) = false.
Proof.
  intros Hreg.
  destruct (Android.isTorchOn s && (Android.MIN_API_LEVEL <=? Android.SDK_INT p)) eqn:Hsw.
  - apply andb_true_iff in Hsw. destruct Hsw as [Hon Hsdk]. apply Z.leb_le in Hsdk.
    destruct (Android.cameraId s) as [cid | ] eqn:Hid.
    + destruct (Android.cameraManager p) as [manager | ] eqn:Hm.
      * destruct (Android.setTorchModeError manager) as [x | ] eqn:Hx.
        -- rewrite (Android_dispose_refused p manager cid x s Hon Hsdk Hid Hm Hx). exact Hreg.
        -- rewrite Android_dispose_through.
           ++ cbn. rewrite Hm, Hreg. destruct (Android.unregisterTorchCallbackError manager);
                reflexivity.
           ++ intros _ cid' manager' _ Hm'. rewrite Hm in Hm'. injection Hm' as <-. exact Hx.
      * rewrite Android_dispose_through.
        -- cbn. rewrite Hm. exact Hreg.
        -- intros _ cid' manager' _ Hm'. rewrite Hm in Hm'. discriminate.
    + rewrite Android_dispose_through.
      * cbn. rewrite Hreg. destruct (Android.cameraManager p) as [manager | ];
          [destruct (Android.unregisterTorchCallbackError manager) | ]; reflexivity.
      * intros _ cid' manager' Hid'. rewrite Hid in Hid'. discriminate.
  - rewrite Android_dispose_through.
    + cbn. rewrite Hreg. destruct (Android.cameraManager p) as [manager | ];
        [destruct (Android.unregisterTorchCallbackError manager) | ]; reflexivity.
    + intros Hsw'. rewrite Hsw in Hsw'. discriminate.
Qed.

Lemma Android_step_unregistered (p : Android.Platform) (i : Android.Input)
      (s : Android.State) :
  Android.torchCallbackRegistered s = false ->
  Android.torchCallbackRegistered (Eff.state (Android.step p i s)) = false /\
  filter Android.isNotification (Eff.trace (Android.step p i s)) = [].
Proof.
  intros Hreg. destruct i as [c | n]; cbn [Android.step].
  - destruct (Android_perform_silent p c s) as [Hn Hv]. split; [ | exact Hn].
    destruct c as [ | | | level | ];
      try (destruct Hv as (_ & _ & ->); [discriminate | exact Hreg]).
    apply Android_dispose_registered, Hreg.
  - rewrite (Android_deliver_unregistered p n s Hreg). split; [exact Hreg | reflexivity].
Qed.

(** X27.  A controller on Android whose callback is not registered, because
    registering failed at construction or because [dispose] has unregistered
    it, is deaf for good: whatever is called afterwards and whatever the
    camera service reports, the listener hears nothing, and nothing
    registers the callback again. *)
Theorem android_unregistered_controller_is_deaf
        (inputs : list (Android.Platform * Android.Input)) (s : Android.State) :
  Android.torchCallbackRegistered s = false ->
  filter Android.isNotification (snd (Android.run inputs s)) = [] /\
  Android.torchCallbackRegistered (fst (Android.run inputs s)) = false.
Proof.
  revert s. induction inputs as [ | [p i] inputs IH]; intros s Hreg;
    cbn [Android.run fst snd]; [auto | ].
  destruct (Android_step_unregistered p i s Hreg) as [Hreg' Hn].
  destruct (IH _ Hreg') as [IHn IHreg].
  rewrite filter_app, Hn, IHn. auto.
Qed.

Lemma android_unregistered_controller_is_deaf_witness :
  filter Android.isNotification
    (snd (Android.run
            [(Sample.pixel, Android.Invoke Android.CallOn);
             (Sample.pixel, Android.Hardware (Android.TorchModeChanged "0" true))]
            (Eff.state (Android.dispose Sample.pixel (Android.init Sample.pixel))))) = [].
Proof.
  refine (proj1 (android_unregistered_controller_is_deaf
                   [(Sample.pixel, Android.Invoke Android.CallOn);
                    (Sample.pixel, Android.Hardware (Android.TorchModeChanged "0" true))]
                   (Eff.state (Android.dispose Sample.pixel (Android.init Sample.pixel)))
                   eq_refl)).
Defined.

(** [setTorchMode] where basic control is not at hand. *)
Lemma Android_setTorchMode_early (p : Android.Platform) (enable : bool) (s : Android.State) :
  Android.torchCamera p s = None ->
  filter Android.isTorchCommand (Eff.trace (Android.setTorchMode p enable s)) = [].
Proof.
  unfold Android.torchCamera. intros Hcam. unfold Android.setTorchMode.
  destruct (Android.cameraManager p) as [manager | ] eqn:Hm; [ | reflexivity].
  destruct (Android.SDK_INT p <? Android.MIN_API_LEVEL) eqn:Hsdk; [reflexivity | ].
  replace (Android.MIN_API_LEVEL <=? Android.SDK_INT p) with true in Hcam
    by (symmetry; apply Z.leb_le; apply Z.ltb_ge; exact Hsdk).
  destruct (Android.resolved p s) as [cid | ] eqn:Hres; [discriminate | ].
  destruct (Android_ensureCameraId_spec p s) as (He & _ & _).
  unfold Eff.bind at 1. unfold Eff.orThrow, Eff.ret at 1.
  unfold Eff.bind at 1. unfold Eff.when, Eff.ret at 1.
  unfold Eff.bind at 1. rewrite He, Hres.
  eff. cbn [Android.cameraId Android.set_cameraId app snd fst].
  rewrite ?app_nil_r. apply Android_probes_filtered.
Qed.

Lemma Android_setTorchMode_commands (p : Android.Platform) (enable : bool)
      (s : Android.State) (ev : Android.Event) :
  In ev (filter Android.isTorchCommand (Eff.trace (Android.setTorchMode p enable s))) ->
  exists cid, ev = Android.SetTorchMode cid enable /\ Android.isTorchOn s = negb enable.
Proof.
  destruct (Android.torchCamera p s) as [[manager cid] | ] eqn:Hcam.
  - rewrite (Android_setTorchMode_spec p manager cid enable s Hcam).
    cbn [Eff.trace snd]. rewrite filter_app, (proj1 (Android_probes_filtered p s)).
    destruct (Bool.eqb (Android.isTorchOn s) enable) eqn:He; cbn; [tauto | ].
    intros [<- | []]. exists cid. split; [reflexivity | ].
    destruct (Android.isTorchOn s), enable; cbn in He |- *; congruence.
  - rewrite (Android_setTorchMode_early p enable s Hcam). intros [].
Qed.

Lemma Android_perform_commands (p : Android.Platform) (c : Android.Call) (s : Android.State)
      (cid : string) :
  Android.isTorchOn s = false ->
  ~ In (Android.SetTorchMode cid false) (Eff.trace (Android.perform p c s)).
Proof.
  intros Hoff Hin.
  assert (Hcmd : In (Android.SetTorchMode cid false)
                   (filter Android.isTorchCommand (Eff.trace (Android.perform p c s))))
    by (apply filter_In; split; [exact Hin | reflexivity]).
  clear Hin. destruct c as [ | | | level | ]; cbn [Android.perform] in Hcmd.
  - unfold Android.on in Hcmd. rewrite (proj1 (proj2 (Android_handling_same _ s))) in Hcmd.
    destruct (Android_setTorchMode_commands p true s _ Hcmd) as (cid' & Hev & _).
    discriminate.
  - unfold Android.off in Hcmd. rewrite (proj1 (proj2 (Android_handling_same _ s))) in Hcmd.
    destruct (Android_setTorchMode_commands p false s _ Hcmd) as (cid' & _ & Hon).
    rewrite Hoff in Hon. discriminate.
  - unfold Android.toggle in Hcmd.
    rewrite (proj1 (proj2 (Android_handling_same _ s))), Eff_bind_get, Hoff in Hcmd.
    destruct (Android_setTorchMode_commands p true s _ Hcmd) as (cid' & Hev & _).
    discriminate.
  - destruct (Android.strengthCamera p s) as [[[manager cid'] maxLevel] | ] eqn:Hcam.
    + rewrite (Android_setLevel_spec p manager cid' maxLevel level s Hcam) in Hcmd.
      cbn [Eff.trace snd] in Hcmd.
      rewrite filter_app, (proj1 (Android_probes_filtered p s)) in Hcmd.
      destruct ((maxLevel <=? 1) || Android.invalidLevel level maxLevel); cbn in Hcmd.
      * exact Hcmd.
      * destruct Hcmd as [Hev | []]. discriminate.
    + destruct (Android_setLevel_early p level s Hcam) as (e & s' & t & He & Ht & _).
      rewrite He in Hcmd. cbn [Eff.trace snd] in Hcmd. rewrite Ht in Hcmd. exact Hcmd.
  - rewrite Android_dispose_through in Hcmd.
    + cbn [Eff.trace snd] in Hcmd. rewrite Hoff in Hcmd. cbn [andb] in Hcmd.
      destruct (Android.cameraId s), (Android.cameraManager p); cbn in Hcmd; tauto.
    + rewrite Hoff. discriminate.
Qed.

Lemma Android_step_dark (p : Android.Platform) (i : Android.Input) (s : Android.State) :
  Android.torchCallbackRegistered s = false -> Android.isTorchOn s = false ->
  Android.isTorchOn (Eff.state (Android.step p i s)) = false.
Proof.
  intros Hreg Hoff. destruct i as [c | n]; cbn [Android.step].
  - destruct (Android_perform_silent p c s) as [_ Hv].
    destruct c as [ | | | level | ];
      try (destruct Hv as (-> & _); [discriminate | exact Hoff]).
    cbn [Android.perform]. rewrite Android_dispose_through.
    + cbn. rewrite Hoff. destruct (Android.cameraId s); reflexivity.
    + rewrite Hoff. discriminate.
  - rewrite (Android_deliver_unregistered p n s Hreg). exact Hoff.
Qed.

(** X28.  Where the callback is not registered and the torch is recorded
    off, as after a construction at which registering failed, the controller
    never learns that the torch is on: [isTorchOn] stays [false] whatever is
    called and whatever the camera service reports, so the camera service is
    never asked to switch the torch off, neither by [off()], nor by
    [toggle()], nor by [dispose]. *)
Theorem android_unheard_torch_is_never_switched_off
        (inputs : list (Android.Platform * Android.Input)) (s : Android.State)
        (cid : string) :
  Android.torchCallbackRegistered s = false ->
  Android.isTorchOn s = false ->
  Android.isTorchOn (fst (Android.run inputs s)) = false /\
  ~ In (Android.SetTorchMode cid false) (snd (Android.run inputs s)).
Proof.
  revert s. induction inputs as [ | [p i] inputs IH]; intros s Hreg Hoff;
    cbn [Android.run fst snd]; [split; [exact Hoff | intros []] | ].
  destruct (Android_step_unregistered p i s Hreg) as [Hreg' _].
  pose proof (Android_step_dark p i s Hreg Hoff) as Hoff'.
  destruct (IH _ Hreg' Hoff') as [IHoff IHin].
  split; [exact IHoff | ]. intros Hin. apply in_app_or in Hin. destruct Hin as [Hin | Hin].
  - destruct i as [c | n]; cbn [Android.step] in Hin.
    + exact (Android_perform_commands p c s cid Hoff Hin).
    + rewrite (Android_deliver_unregistered p n s Hreg) in Hin. exact Hin.
  - exact (IHin Hin).
Qed.

Lemma android_unheard_torch_is_never_switched_off_witness :
  ~ In (Android.SetTorchMode "0" false)
      (snd (Android.run
              [(Sample.unheard, Android.Invoke Android.CallOn);
               (Sample.unheard, Android.Hardware (Android.TorchModeChanged "0" true));
               (Sample.unheard, Android.Invoke Android.CallOff)]
              (Android.init Sample.unheard))).
Proof.
  refine (proj2 (android_unheard_torch_is_never_switched_off
                   [(Sample.unheard, Android.Invoke Android.CallOn);
                    (Sample.unheard, Android.Hardware (Android.TorchModeChanged "0" true));
                    (Sample.unheard, Android.Invoke Android.CallOff)]
                   (Android.init Sample.unheard) "0"%string eq_refl eq_refl)).
Defined.

(* ================================================================== *)
(** * iOS: the configuration lock *)
(* ================================================================== *)

Lemma Ios_setTorchMode_thrown (hw : Ios.Hardware) (enable : bool) (level : option binary)
      (s : Ios.State) (e : Ios.TorchError) :
  Eff.result (Ios.setTorchMode hw enable level s) = Thrown e ->
  let t := Eff.trace (Ios.setTorchMode hw enable level s) in
  (At.torchDevice hw = false /\ t = []) \/
  (exists err, Ios.lockError hw = Some err /\ e = Ios.failed err /\
               t = [Ios.LockForConfiguration]) \/
  (exists err x, Ios.torchReady hw = true /\ enable = true /\
                 Ios.torchOnError hw = Some err /\ e = Ios.failed err /\
                 t = [Ios.LockForConfiguration; Ios.SetTorchModeOn x]).
Proof.
  cbn zeta. destruct (if enable then Ios.usable hw else Ios.torchReady hw) eqn:Hok.
  { destruct enable.
    - rewrite (Ios_setTorchMode_on hw level s Hok). discriminate.
    - rewrite (Ios_setTorchMode_off hw level s Hok). discriminate. }
  revert Hok. unfold Ios.usable, Ios.torchReady, Ios.setTorchMode, At.torchDevice.
  destruct hw as [[[[ | ]] | ] maxA [le | ] [te | ]]; destruct enable; cbn;
    intros Hok H; try discriminate; injection H as <-;
    try (left; split; reflexivity);
    try (right; left; eexists; repeat split; reflexivity);
    right; right; eexists _, _; repeat split; reflexivity.
Qed.

(** X29.  A call on iOS that is rejected never unlocks the device.  Where
    the device was locked and then refused the intensity, the call ends
    after [setTorchModeOn(level:)], with the device still locked for
    configuration: [unlockForConfiguration] is reached only when nothing
    is thrown. *)
Theorem ios_failure_leaves_device_locked (hw : Ios.Hardware) (c : Ios.Call) (s : Ios.State)
        (e : Ios.NSError) :
  Eff.result (Ios.perform hw c s) = Thrown e ->
  ~ In Ios.UnlockForConfiguration (Eff.trace (Ios.perform hw c s)) /\
  (Ios.torchReady hw = true ->
   In Ios.LockForConfiguration (Eff.trace (Ios.perform hw c s)) ->
   exists err x,
     Ios.torchOnError hw = Some err /\
     e = Ios.toJSON (Ios.failed err) /\
     Eff.trace (Ios.perform hw c s) = [Ios.LockForConfiguration; Ios.SetTorchModeOn x]).
Proof.
  assert (Hcore : forall enable level,
             Eff.result (Ios.rethrow (Ios.setTorchMode hw enable level) s) = Thrown e ->
             let t := Eff.trace (Ios.rethrow (Ios.setTorchMode hw enable level) s) in
             ~ In Ios.UnlockForConfiguration t /\
             (Ios.torchReady hw = true -> In Ios.LockForConfiguration t ->
              exists err x,
                Ios.torchOnError hw = Some err /\ e = Ios.toJSON (Ios.failed err) /\
                t = [Ios.LockForConfiguration; Ios.SetTorchModeOn x])).
  { intros enable level H. cbn zeta.
    destruct (Ios_rethrow_result _ s e H) as (te & Hte & ->).
    rewrite (proj2 (Ios_rethrow_same _ s)).
    destruct (Ios_setTorchMode_thrown hw enable level s te Hte)
      as [[Hdev ->] | [(err & Hlock & -> & ->) | (err & x & Hready & _ & Herr & -> & ->)]].
    - split; [intros [] | intros _ []].
    - split; [intros [H' | []]; discriminate | ].
      intros Hready _. unfold Ios.torchReady in Hready. rewrite Hlock in Hready.
      destruct (Ios.device hw); discriminate.
    - split; [intros [H' | [H' | []]]; discriminate | ].
      intros _ _. exists err, x. repeat split. exact Herr. }
  destruct c as [ | | | level | ]; cbn [Ios.perform].
  - apply Hcore.
  - apply Hcore.
  - unfold Ios.toggle.
    replace (Ios.rethrow (Eff.bind Eff.get (fun s0 => Ios.setTorchMode hw (negb (Ios.isTorchOn s0)) None)) s)
      with (Ios.rethrow (Ios.setTorchMode hw (negb (Ios.isTorchOn s)) None) s)
      by (unfold Ios.rethrow, Eff.catch; rewrite Eff_bind_get; reflexivity).
    apply Hcore.
  - destruct (Ios.validLevel level) eqn:Hv.
    + rewrite (Ios_setLevel_accepts hw level s Hv). apply Hcore.
    + rewrite (Ios_setLevel_rejects hw level s Hv). intros _.
      split; [intros [] | intros _ []].
  - rewrite Ios_dispose_done. discriminate.
Qed.

Lemma ios_failure_leaves_device_locked_witness :
  exists e,
    Eff.result
      (Ios.perform {| Ios.device := Some {| Ios.hasTorch := true |};
                      Ios.maxAvailableTorchLevel := Float.one;
                      Ios.lockError := None;
                      Ios.torchOnError := Some "torch unavailable"%string |}
         Ios.CallOn Ios.init) = Thrown e /\
    ~ In Ios.UnlockForConfiguration
        (Eff.trace
           (Ios.perform {| Ios.device := Some {| Ios.hasTorch := true |};
                           Ios.maxAvailableTorchLevel := Float.one;
                           Ios.lockError := None;
                           Ios.torchOnError := Some "torch unavailable"%string |}
              Ios.CallOn Ios.init)).
Proof.
  eexists. split; [reflexivity | ].
  exact (proj1 (ios_failure_leaves_device_locked
                  {| Ios.device := Some {| Ios.hasTorch := true |};
                     Ios.maxAvailableTorchLevel := Float.one;
                     Ios.lockError := None;
                     Ios.torchOnError := Some "torch unavailable"%string |}
                  Ios.CallOn Ios.init _ eq_refl)).
Defined.
